(** * azul3d/gfx, package window: the GLFW window backend

    A shallow embedding of [window/glfwwindow.go], [window/glfwinit.go]
    and the [Run] entry point, with the properties of the window
    state/event coordination subsystem stated over it.

    Conventions of the embedding.
    - Go's [int] is the 64-bit one of the amd64 build; integers are [Z]
      and the one arithmetic expression of the package is wrapped by
      [int_wrap].
    - [float64] is Rocq's primitive binary64 float, so [==], [-] and
      [math.Inf(-1)] are the IEEE operations the Go code runs.
    - A Go string is a [string] (a sequence of bytes).
    - Methods of [*glfwWindow] are computations in the monad [M]: they read
      and update a [Machine], and end normally, by panicking, parked
      forever on a lock or a [select], or with the process exited.
    - One goroutine runs at a time: a method is followed from its first
      statement to its last. What other goroutines do in between shows
      only as the state a method starts from and as the messages the main
      loop receives.
    - Calls into GLFW that act on the native window are recorded, in
      order, in the machine's [calls] trace. GLFW delivers callbacks from
      [PollEvents]; a callback it would run from inside another native
      call is delivered as one more callback. *)

From Stdlib Require Import ZArith String Ascii Floats.PrimFloat Floats.SpecFloat Floats.FloatOps.
From stdpp Require Import base tactics option list gmap strings pretty.

Open Scope string_scope.
Open Scope list_scope.
Open Scope Z_scope.

(** ** Integers and floats *)

Definition int_bits : Z := 64.

(** Two's complement wrap-around of a Go [int]. *)
Definition int_wrap (z : Z) : Z :=
  (z + 2 ^ (int_bits - 1)) mod 2 ^ int_bits - 2 ^ (int_bits - 1).

Definition int_range (z : Z) : Prop :=
  - 2 ^ (int_bits - 1) <= z < 2 ^ (int_bits - 1).

(** Go's [/] on [int]: the quotient truncated toward zero. *)
Definition int_div (a b : Z) : Z := int_wrap (Z.quot a b).
Definition int_sub (a b : Z) : Z := int_wrap (a - b).

Definition float64 := float.

(** [math.Inf(-1)]. *)
Definition Inf_neg : float64 := neg_infinity.

(** Go's [==] and [!=] on [float64]. *)
Definition feq (a b : float64) : bool := PrimFloat.eqb a b.
Definition fne (a b : float64) : bool := negb (PrimFloat.eqb a b).

(** [math.Ceil] followed by the conversion [int(...)], on a finite value
    whose ceiling fits an [int]. The exact value of a finite float is
    [(-1)^s * m * 2^e]. For NaN, the infinities and values out of range
    the Go specification leaves the conversion to the implementation; the
    amd64 instruction yields the smallest [int], which is what is modelled. *)
Definition ceil_SF (f : spec_float) : option Z :=
  match f with
  | S754_zero _ => Some 0
  | S754_finite s m e =>
      let n := if s then Z.neg m else Z.pos m in
      Some (if 0 <=? e then n * 2 ^ e else - ((- n) / 2 ^ (- e)))
  | S754_infinity _ | S754_nan => None
  end.

Definition int_of_Ceil (x : float64) : Z :=
  match ceil_SF (Prim2SF x) with
  | Some z => if (- 2 ^ (int_bits - 1) <=? z) && (z <? 2 ^ (int_bits - 1))
              then z else - 2 ^ (int_bits - 1)
  | None => - 2 ^ (int_bits - 1)
  end.

(** ** Strings: [fmt.Sprintf] with the verb [%d] and [strings.Replace] *)

(** [fmt.Sprintf("%dFPS", n)]. *)
Definition Sprintf_d_FPS (n : Z) : string := pretty n +:+ "FPS".

Fixpoint HasPrefix (s prefix : string) {struct prefix} : bool :=
  match prefix, s with
  | EmptyString, _ => true
  | String c p', String d s' => if Ascii.eqb c d then HasPrefix s' p' else false
  | String _ _, EmptyString => false
  end.

Fixpoint string_drop (n : nat) (s : string) : string :=
  match n, s with
  | O, _ => s
  | S n', String _ s' => string_drop n' s'
  | S _, EmptyString => EmptyString
  end.

(** [strings.Index(s, sep)]: the byte offset of the first occurrence of
    [sep] in [s], or [-1]. *)
Fixpoint Index (s sep : string) : Z :=
  if HasPrefix s sep then 0
  else match s with
       | EmptyString => -1
       | String _ s' => let i := Index s' sep in if i =? -1 then -1 else 1 + i
       end.

Fixpoint string_take (n : nat) (s : string) : string :=
  match n, s with
  | S n', String c s' => String c (string_take n' s')
  | _, _ => EmptyString
  end.

(** [strings.Replace(s, old, new, n)] for a non-empty [old] and a count
    [n >= 0]. As in the library, each round looks for the next occurrence
    with [Index], copies what precedes it, then [new], and goes on after
    the occurrence; it stops when [n] occurrences are replaced or none is
    left. *)
Fixpoint Replace (n : nat) (s old new : string) : string :=
  match n with
  | O => s
  | S n' =>
      let j := Index s old in
      if j =? -1 then s
      else string_take (Z.to_nat j) s +:+ new +:+
           Replace n' (string_drop (Z.to_nat j + String.length old) s) old new
  end.

(** ** The data model *)

(** Modelled from the spec: the type [gfx.Precision] is declared outside
    the package; only its fields are read, to hint the framebuffer format. *)
Record Precision := {
  RedBits : Z; GreenBits : Z; BlueBits : Z; AlphaBits : Z;
  DepthBits : Z; StencilBits : Z; Samples : Z
}.

(** Modelled from the spec: the declaration of [Props] (props.go) is not
    among the sources. It is the Property Set of the specification, a
    record of named fields read by a getter and written by a setter each;
    the getters and setters below are the ones the package calls. The
    fields are named after their getters. *)
Record Props := {
  Title : string;
  Size : Z * Z;
  Pos : Z * Z;
  CursorPos : float64 * float64;
  ShouldClose : bool;
  Visible : bool;
  Minimized : bool;
  Focused : bool;
  Resizable : bool;
  Decorated : bool;
  AlwaysOnTop : bool;
  VSync : bool;
  CursorGrabbed : bool;
  Fullscreen : bool;
  FramebufferSize : Z * Z;
  GetPrecision : Precision
}.

Definition SetSize (width height : Z) (p : Props) : Props :=
  {| Title := Title p; Size := (width, height); Pos := Pos p; CursorPos := CursorPos p;
     ShouldClose := ShouldClose p; Visible := Visible p; Minimized := Minimized p;
     Focused := Focused p; Resizable := Resizable p; Decorated := Decorated p;
     AlwaysOnTop := AlwaysOnTop p; VSync := VSync p; CursorGrabbed := CursorGrabbed p;
     Fullscreen := Fullscreen p; FramebufferSize := FramebufferSize p;
     GetPrecision := GetPrecision p |}.

Definition SetPos (x y : Z) (p : Props) : Props :=
  {| Title := Title p; Size := Size p; Pos := (x, y); CursorPos := CursorPos p;
     ShouldClose := ShouldClose p; Visible := Visible p; Minimized := Minimized p;
     Focused := Focused p; Resizable := Resizable p; Decorated := Decorated p;
     AlwaysOnTop := AlwaysOnTop p; VSync := VSync p; CursorGrabbed := CursorGrabbed p;
     Fullscreen := Fullscreen p; FramebufferSize := FramebufferSize p;
     GetPrecision := GetPrecision p |}.

Definition SetCursorPos (x y : float64) (p : Props) : Props :=
  {| Title := Title p; Size := Size p; Pos := Pos p; CursorPos := (x, y);
     ShouldClose := ShouldClose p; Visible := Visible p; Minimized := Minimized p;
     Focused := Focused p; Resizable := Resizable p; Decorated := Decorated p;
     AlwaysOnTop := AlwaysOnTop p; VSync := VSync p; CursorGrabbed := CursorGrabbed p;
     Fullscreen := Fullscreen p; FramebufferSize := FramebufferSize p;
     GetPrecision := GetPrecision p |}.

Definition SetVisible (b : bool) (p : Props) : Props :=
  {| Title := Title p; Size := Size p; Pos := Pos p; CursorPos := CursorPos p;
     ShouldClose := ShouldClose p; Visible := b; Minimized := Minimized p;
     Focused := Focused p; Resizable := Resizable p; Decorated := Decorated p;
     AlwaysOnTop := AlwaysOnTop p; VSync := VSync p; CursorGrabbed := CursorGrabbed p;
     Fullscreen := Fullscreen p; FramebufferSize := FramebufferSize p;
     GetPrecision := GetPrecision p |}.

Definition SetMinimized (b : bool) (p : Props) : Props :=
  {| Title := Title p; Size := Size p; Pos := Pos p; CursorPos := CursorPos p;
     ShouldClose := ShouldClose p; Visible := Visible p; Minimized := b;
     Focused := Focused p; Resizable := Resizable p; Decorated := Decorated p;
     AlwaysOnTop := AlwaysOnTop p; VSync := VSync p; CursorGrabbed := CursorGrabbed p;
     Fullscreen := Fullscreen p; FramebufferSize := FramebufferSize p;
     GetPrecision := GetPrecision p |}.

Definition SetFocused (b : bool) (p : Props) : Props :=
  {| Title := Title p; Size := Size p; Pos := Pos p; CursorPos := CursorPos p;
     ShouldClose := ShouldClose p; Visible := Visible p; Minimized := Minimized p;
     Focused := b; Resizable := Resizable p; Decorated := Decorated p;
     AlwaysOnTop := AlwaysOnTop p; VSync := VSync p; CursorGrabbed := CursorGrabbed p;
     Fullscreen := Fullscreen p; FramebufferSize := FramebufferSize p;
     GetPrecision := GetPrecision p |}.

Definition SetVSync (b : bool) (p : Props) : Props :=
  {| Title := Title p; Size := Size p; Pos := Pos p; CursorPos := CursorPos p;
     ShouldClose := ShouldClose p; Visible := Visible p; Minimized := Minimized p;
     Focused := Focused p; Resizable := Resizable p; Decorated := Decorated p;
     AlwaysOnTop := AlwaysOnTop p; VSync := b; CursorGrabbed := CursorGrabbed p;
     Fullscreen := Fullscreen p; FramebufferSize := FramebufferSize p;
     GetPrecision := GetPrecision p |}.

Definition SetCursorGrabbed (b : bool) (p : Props) : Props :=
  {| Title := Title p; Size := Size p; Pos := Pos p; CursorPos := CursorPos p;
     ShouldClose := ShouldClose p; Visible := Visible p; Minimized := Minimized p;
     Focused := Focused p; Resizable := Resizable p; Decorated := Decorated p;
     AlwaysOnTop := AlwaysOnTop p; VSync := VSync p; CursorGrabbed := b;
     Fullscreen := Fullscreen p; FramebufferSize := FramebufferSize p;
     GetPrecision := GetPrecision p |}.

Definition SetFramebufferSize (width height : Z) (p : Props) : Props :=
  {| Title := Title p; Size := Size p; Pos := Pos p; CursorPos := CursorPos p;
     ShouldClose := ShouldClose p; Visible := Visible p; Minimized := Minimized p;
     Focused := Focused p; Resizable := Resizable p; Decorated := Decorated p;
     AlwaysOnTop := AlwaysOnTop p; VSync := VSync p; CursorGrabbed := CursorGrabbed p;
     Fullscreen := Fullscreen p; FramebufferSize := (width, height);
     GetPrecision := GetPrecision p |}.

(** [time.Time], as the instant read by [time.Now()]. *)
Definition Time := Z.

(** Modelled from the spec: the event types (events.go) are not among the
    sources. These are the events of the specification's tagged union that
    the callbacks of this file construct, with the fields the callbacks
    give them; the keyboard and mouse events belong to other packages.
    The event [Minimized] is [EvMinimized] here, [Minimized] being a
    property too. *)
Inductive Event : Type :=
| Close (T : Time)
| Damaged (T : Time)
| EvMinimized (T : Time)
| Restored (T : Time)
| GainedFocus (T : Time)
| LostFocus (T : Time)
| Moved (X Y : Z) (T : Time)
| Resized (Width Height : Z) (T : Time)
| FramebufferResized (Width Height : Z) (T : Time)
| ItemsDropped (Items : list string) (T : Time)
| CursorMoved (X Y : float64) (Delta : bool) (T : Time)
| CursorEnter (T : Time)
| CursorExit (T : Time).

(** [type EventMask uint32] and its constants. *)
Definition EventMask := Z.

Definition NoEvents : EventMask := 0.
Definition CloseEvents : EventMask := Z.shiftl 1 0.
Definition DamagedEvents : EventMask := Z.shiftl 1 1.
Definition CursorMovedEvents : EventMask := Z.shiftl 1 2.
Definition CursorEnterEvents : EventMask := Z.shiftl 1 3.
Definition CursorExitEvents : EventMask := Z.shiftl 1 4.
Definition MinimizedEvents : EventMask := Z.shiftl 1 5.
Definition RestoredEvents : EventMask := Z.shiftl 1 6.
Definition GainedFocusEvents : EventMask := Z.shiftl 1 7.
Definition LostFocusEvents : EventMask := Z.shiftl 1 8.
Definition MovedEvents : EventMask := Z.shiftl 1 9.
Definition ResizedEvents : EventMask := Z.shiftl 1 10.
Definition FramebufferResizedEvents : EventMask := Z.shiftl 1 11.
Definition ItemsDroppedEvents : EventMask := Z.shiftl 1 12.
Definition MouseEvents : EventMask := Z.shiftl 1 13.
Definition MouseScrolledEvents : EventMask := Z.shiftl 1 14.
Definition KeyboardTypedEvents : EventMask := Z.shiftl 1 15.
Definition KeyboardStateEvents : EventMask := Z.shiftl 1 16.
Definition AllEvents : EventMask := 2 ^ 32 - 1.

(** ** The machine the methods run on *)

(** A channel of events is known by its address. The heap maps an address
    to the channel's capacity and the events buffered in it; the address 0,
    and any address the heap does not hold, stands for the nil channel.
    Receiving is the subscriber's business and no part of this package;
    a send that a parked receiver would take at once is a send that finds
    room. The channels are open: a subscriber is to unsubscribe a channel
    before it closes it. *)
Definition chan := nat.

Record Chan := { cap : nat; buf : list Event }.

(** [type notifier struct { EventMask; ch chan<- Event }]. *)
Record notifier := { mask : EventMask; ch : chan }.

(** A Go slice that starts at the base of its backing array: the array
    (whose length is the slice's capacity) and the slice's length. Two
    slices over one array see each other's writes, so functions that hold
    two of them, as [deleteNotifiers] does, keep the array once and the
    two lengths apart. *)
Record slice (A : Type) := { array : list A; len : nat }.
Arguments array {A} _.
Arguments len {A} _.
Arguments Build_slice {A} _ _.

Definition elems {A} (s : slice A) : list A := take (len s) (array s).

(** [sync.RWMutex], as seen by the one goroutine that is running: whether
    it holds the write lock and how many read locks it holds. *)
Record RWMutex := { writer : bool; readers : nat }.

Inductive LockMode := NoLock | ReadLock | WriteLock.

Definition holding (l : RWMutex) : LockMode :=
  if writer l then WriteLock
  else match readers l with O => NoLock | S _ => ReadLock end.

(** The primary monitor: [GetVideoMode] gives the width and height of the
    video mode, or fails. *)
Record Monitor := { GetVideoMode : option (Z * Z) }.

(** What the window uses of the renderer: the frame rate its clock
    measures and the drawable bounds it is told. *)
Record Renderer := { FrameRate : float64; Bounds : Z * Z }.

(** [type glfwWindow struct], without the handles of native objects and
    the input watchers (they are addressed through the calls below), and
    without the channels of the run loop (see [doRun]). *)
Record glfwWindow := {
  mu : RWMutex;
  props : Props;
  last : Props;
  renderer : Renderer;
  monitor : Monitor;
  lastCursorX : float64;
  lastCursorY : float64;
  extWGLEXTSwapControlTear : bool;
  extGLXEXTSwapControlTear : bool;
  notifiers : slice notifier;
  closed : bool
}.

(** Calls into GLFW, the Go runtime and the renderer that change
    something outside the window structure. *)
Module glfw.
Inductive InputMode := CursorDisabled | CursorNormal.

Inductive Hint :=
| HVisible | HResizable | HDecorated | HAutoIconify | HFloating
| HRedBits | HGreenBits | HBlueBits | HAlphaBits | HDepthBits
| HStencilBits | HSamples | HSRGBCapable.

Inductive Call :=
| SetTitle (title : string)
| SetSize (width height : Z)
| SetPosition (x y : Z)
| SetCursorPosition (x y : float64)
| Show
| Hide
| Iconify
| Restore
| SwapInterval (interval : Z)
| SetInputMode (value : InputMode)
| Init
| Terminate
| WindowHint (hint : Hint) (value : Z)
| CreateWindow (width height : Z) (title : string) (fullscreen shared : bool)
| MakeContextCurrent
| DetachCurrentContext
| Destroy
| SwapBuffers
| PollEvents
| NewRenderer
| SetDebugOutput
| UpdateBounds (width height : Z)
| RegisterCallbacks
| LockOSThread
| UnlockOSThread
| GoLoader
| GoGfxLoop
| LoaderShutdown.
End glfw.

(** Which of the two property sets an access touches. *)
Inductive PropsRef := Requested | Last.

(** An access to the pair ([props], [last]): which one, whether it writes,
    and the lock the running goroutine holds at that moment. *)
Record Access := { target : PropsRef; writes : bool; held : LockMode }.

Record Machine := {
  win : glfwWindow;
  chans : gmap chan Chan;
  calls : list glfw.Call;
  audit : list Access
}.

(** How a computation ends: normally, with a panic (the message and the
    machine at that point), parked forever, or with the process exited by
    [log.Fatal]. *)
Inductive Outcome (A : Type) : Type :=
| Done (a : A) (m : Machine)
| Panic (msg : string) (m : Machine)
| Blocked (m : Machine)
| Exited (m : Machine).
Arguments Done {A} _ _.
Arguments Panic {A} _ _.
Arguments Blocked {A} _.
Arguments Exited {A} _.

Definition M (A : Type) : Type := Machine -> Outcome A.

#[global] Instance M_ret : MRet M := fun A a m => Done a m.

#[global] Instance M_bind : MBind M := fun A B k c m =>
  match c m with
  | Done a m' => k a m'
  | Panic msg m' => Panic msg m'
  | Blocked m' => Blocked m'
  | Exited m' => Exited m'
  end.

Definition panic {A} (msg : string) : M A := fun m => Panic msg m.

(** Parked for good: a [select] none of whose channels gets ready. *)
Definition park {A} : M A := fun m => Blocked m.

(** [log.Fatal]: the process exits; deferred calls do not run. *)
Definition Fatal {A} : M A := fun m => Exited m.

(** [defer f()] around a body: [f] runs when the body returns and also
    when it panics, before the panic goes on. *)
Definition defer {A} (f : M unit) (body : M A) : M A :=
  fun m => match body m with
           | Done a m' => (f;; mret a) m'
           | Panic msg m' =>
               match f m' with
               | Done _ m'' => Panic msg m''
               | Panic msg' m'' => Panic msg' m''
               | Blocked m'' => Blocked m''
               | Exited m'' => Exited m''
               end
           | Blocked m' => Blocked m'
           | Exited m' => Exited m'
           end.

(** *** Field updates *)

Definition with_win (f : glfwWindow -> glfwWindow) (m : Machine) : Machine :=
  {| win := f (win m); chans := chans m; calls := calls m; audit := audit m |}.

Definition with_chans (f : gmap chan Chan -> gmap chan Chan) (m : Machine) : Machine :=
  {| win := win m; chans := f (chans m); calls := calls m; audit := audit m |}.

Definition set_mu (l : RWMutex) (w : glfwWindow) : glfwWindow :=
  {| mu := l; props := props w; last := last w; renderer := renderer w;
     monitor := monitor w; lastCursorX := lastCursorX w; lastCursorY := lastCursorY w;
     extWGLEXTSwapControlTear := extWGLEXTSwapControlTear w;
     extGLXEXTSwapControlTear := extGLXEXTSwapControlTear w;
     notifiers := notifiers w; closed := closed w |}.

Definition set_props (p : Props) (w : glfwWindow) : glfwWindow :=
  {| mu := mu w; props := p; last := last w; renderer := renderer w;
     monitor := monitor w; lastCursorX := lastCursorX w; lastCursorY := lastCursorY w;
     extWGLEXTSwapControlTear := extWGLEXTSwapControlTear w;
     extGLXEXTSwapControlTear := extGLXEXTSwapControlTear w;
     notifiers := notifiers w; closed := closed w |}.

Definition set_last (p : Props) (w : glfwWindow) : glfwWindow :=
  {| mu := mu w; props := props w; last := p; renderer := renderer w;
     monitor := monitor w; lastCursorX := lastCursorX w; lastCursorY := lastCursorY w;
     extWGLEXTSwapControlTear := extWGLEXTSwapControlTear w;
     extGLXEXTSwapControlTear := extGLXEXTSwapControlTear w;
     notifiers := notifiers w; closed := closed w |}.

Definition set_renderer (r : Renderer) (w : glfwWindow) : glfwWindow :=
  {| mu := mu w; props := props w; last := last w; renderer := r;
     monitor := monitor w; lastCursorX := lastCursorX w; lastCursorY := lastCursorY w;
     extWGLEXTSwapControlTear := extWGLEXTSwapControlTear w;
     extGLXEXTSwapControlTear := extGLXEXTSwapControlTear w;
     notifiers := notifiers w; closed := closed w |}.

Definition set_lastCursor (x y : float64) (w : glfwWindow) : glfwWindow :=
  {| mu := mu w; props := props w; last := last w; renderer := renderer w;
     monitor := monitor w; lastCursorX := x; lastCursorY := y;
     extWGLEXTSwapControlTear := extWGLEXTSwapControlTear w;
     extGLXEXTSwapControlTear := extGLXEXTSwapControlTear w;
     notifiers := notifiers w; closed := closed w |}.

Definition set_ext (wgl glx : bool) (w : glfwWindow) : glfwWindow :=
  {| mu := mu w; props := props w; last := last w; renderer := renderer w;
     monitor := monitor w; lastCursorX := lastCursorX w; lastCursorY := lastCursorY w;
     extWGLEXTSwapControlTear := wgl;
     extGLXEXTSwapControlTear := glx;
     notifiers := notifiers w; closed := closed w |}.

Definition set_notifiers (s : slice notifier) (w : glfwWindow) : glfwWindow :=
  {| mu := mu w; props := props w; last := last w; renderer := renderer w;
     monitor := monitor w; lastCursorX := lastCursorX w; lastCursorY := lastCursorY w;
     extWGLEXTSwapControlTear := extWGLEXTSwapControlTear w;
     extGLXEXTSwapControlTear := extGLXEXTSwapControlTear w;
     notifiers := s; closed := closed w |}.

(** *** Primitive steps *)

Definition gets {A} (f : glfwWindow -> A) : M A := fun m => Done (f (win m)) m.

Definition modify (f : glfwWindow -> glfwWindow) : M unit :=
  fun m => Done tt (with_win f m).

(** A call into the native library: appended to the trace. *)
Definition native (c : glfw.Call) : M unit :=
  fun m => Done tt {| win := win m; chans := chans m;
                      calls := calls m ++ [c]; audit := audit m |}.

Definition record_access (t : PropsRef) (wr : bool) : M unit :=
  fun m => Done tt {| win := win m; chans := chans m; calls := calls m;
                      audit := audit m ++ [{| target := t; writes := wr;
                                              held := holding (mu (win m)) |}] |}.

(** [w.Lock()]: the write lock is free only when nobody holds the mutex;
    a goroutine that asks for it while it holds the mutex itself never
    gets it. *)
Definition Lock : M unit :=
  fun m => match holding (mu (win m)) with
           | NoLock => Done tt (with_win (set_mu {| writer := true; readers := 0 |}) m)
           | _ => Blocked m
           end.

Definition Unlock : M unit :=
  fun m => if writer (mu (win m))
           then Done tt (with_win (set_mu {| writer := false; readers := readers (mu (win m)) |}) m)
           else Panic "sync: Unlock of unlocked RWMutex" m.

(** [w.RLock()]: waits while the write lock is held. *)
Definition RLock : M unit :=
  fun m => if writer (mu (win m)) then Blocked m
           else Done tt (with_win (set_mu {| writer := false;
                                             readers := S (readers (mu (win m))) |}) m).

Definition RUnlock : M unit :=
  fun m => match readers (mu (win m)) with
           | S n => Done tt (with_win (set_mu {| writer := writer (mu (win m)); readers := n |}) m)
           | O => Panic "sync: RUnlock of unlocked RWMutex" m
           end.

(** Reads through [w.props] and [w.last], and writes to them. *)
Definition load_props : M Props := record_access Requested false;; gets props.
Definition load_last : M Props := record_access Last false;; gets last.
Definition store_props (f : Props -> Props) : M unit :=
  record_access Requested true;; modify (fun w => set_props (f (props w)) w).
Definition store_last (f : Props -> Props) : M unit :=
  record_access Last true;; modify (fun w => set_last (f (last w)) w).

(** ** Slices of notifiers *)

(** The nil channel, and the zero value of [notifier]. *)
Definition nil_chan : chan := 0%nat.
Definition zero_notifier : notifier := {| mask := 0; ch := nil_chan |}.

(** The built-in [copy] into the backing array at an offset. *)
Definition copy_into {A} (off : nat) (src arr : list A) : list A :=
  take off arr ++ src ++ drop (off + length src) arr.

(** [append(s, x)]: in place when the capacity allows, else into a new
    array of twice the capacity (at least one). *)
Definition append (s : slice notifier) (x : notifier) : slice notifier :=
  if (len s <? length (array s))%nat
  then {| array := copy_into (len s) [x] (array s); len := S (len s) |}
  else {| array := elems s ++ [x] ++
                   replicate (Nat.max (2 * length (array s)) 1 - S (len s)) zero_notifier;
          len := S (len s) |}.

(** [append(s[:idx], s[idx+1:]...)] for [idx < len(s)], where [s] has
    length [slen] over the array [arr]: the elements after [idx] move one
    place down inside the array, whose last touched cell keeps its old
    content. The result is the slice of length [slen - 1] over it. *)
Definition remove_at (idx slen : nat) (arr : list notifier) : list notifier :=
  copy_into idx (take (slen - S idx) (drop (S idx) arr)) arr.

(** ** Notification registry *)

Fixpoint find_from (l : list notifier) (c : chan) (index : Z) : Z :=
  match l with
  | [] => -1
  | ev :: l' => if (ch ev =? c)%nat then index else find_from l' c (index + 1)
  end.

(** [findNotifier]: the index in [w.notifiers] of the first notifier for
    [c], or [-1]. *)
Definition findNotifier (c : chan) : M Z :=
  gets (fun w => find_from (elems (notifiers w)) c 0).

(** The loop of [deleteNotifiers]. The local slice [s] shares its array
    with [w.notifiers]; [slen] is [len(s)], and the array is the one held
    in the window. [s[:idx]] needs [idx <= cap(s)] and [s[idx+1:]] needs
    [idx + 1 <= len(s)]; on an empty [s] the latter fails for every index
    [findNotifier] can give. *)
Fixpoint delete_loop (c : chan) (slen : nat) (idx : Z) : M nat :=
  if idx =? -1 then mret slen
  else
    capacity ← gets (fun w => length (array (notifiers w)));
    match slen with
    | S slen' =>
        if (idx <=? Z.of_nat capacity) && (idx + 1 <=? Z.of_nat slen)
        then
          modify (fun w => set_notifiers
                    {| array := remove_at (Z.to_nat idx) slen (array (notifiers w));
                       len := len (notifiers w) |} w);;
          idx' ← findNotifier c;
          delete_loop c slen' idx'
        else panic "runtime error: slice bounds out of range"
    | O => panic "runtime error: slice bounds out of range"
    end.

(** [deleteNotifiers]: meant to delete all notifiers associated with [c]. *)
Definition deleteNotifiers (c : chan) : M unit :=
  slen ← gets (fun w => len (notifiers w));
  idx ← findNotifier c;
  slen' ← delete_loop c slen idx;
  modify (fun w => set_notifiers {| array := array (notifiers w); len := slen' |} w).

Definition Notify (c : chan) (m : EventMask) : M unit :=
  Lock;;
  (if m =? NoEvents then deleteNotifiers c
   else modify (fun w => set_notifiers (append (notifiers w) {| mask := m; ch := c |}) w));;
  Unlock.

(** [select { case c <- ev: default: }]: the event is buffered when the
    channel has room, and nothing happens otherwise. *)
Definition try_send (c : chan) (ev : Event) : M unit :=
  fun m =>
    if (c =? nil_chan)%nat then Done tt m
    else match chans m !! c with
         | Some q =>
             if (length (buf q) <? cap q)%nat
             then Done tt (with_chans <[c := {| cap := cap q; buf := buf q ++ [ev] |}]> m)
             else Done tt m
         | None => Done tt m
         end.

Fixpoint send_each (nfs : list notifier) (ev : Event) (m : EventMask) : M unit :=
  match nfs with
  | [] => mret tt
  | nf :: rest =>
      (if negb (Z.land (mask nf) m =? 0) then try_send (ch nf) ev else mret tt);;
      send_each rest ev m
  end.

Definition sendEvent (ev : Event) (m : EventMask) : M unit :=
  RLock;;
  nfs ← gets (fun w => elems (notifiers w));
  send_each nfs ev m;;
  RUnlock.

(** [Props()]. *)
Definition GetProps : M Props :=
  RLock;;
  p ← load_props;
  RUnlock;;
  mret p.

(** ** Property reconciliation *)

(** [updateTitle]: the window title, with the first ["{FPS}"] replaced by
    the frame rate. *)
Definition updateTitle : M unit :=
  rate ← gets (fun w => FrameRate (renderer w));
  let fps := Sprintf_d_FPS (int_of_Ceil rate) in
  p ← load_props;
  let title := Replace 1 (Title p) "{FPS}" fps in
  native (glfw.SetTitle title).

(** The closure [withoutLock] of [useProps]: runs [f] without the lock
    that is currently held. *)
Definition withoutLock (f : M unit) : M unit := Unlock;; f;; Lock.

(** The blocks of [useProps], in the order of the source. Each reads the
    requested and the last known value of one property and, when forced or
    when they differ, stores the requested value in [last] and tells the
    native window. *)

Definition useProps_Size (force : bool) : M (Z * Z) :=
  rp ← load_props;
  let width := fst (Size rp) in
  let height := snd (Size rp) in
  lp ← load_last;
  let lastWidth := fst (Size lp) in
  let lastHeight := snd (Size lp) in
  (if force || negb (width =? lastWidth) || negb (height =? lastHeight)
   then store_last (SetSize width height);;
        withoutLock (native (glfw.SetSize width height))
   else mret tt);;
  mret (width, height).

Definition useProps_Pos (force : bool) (width height : Z) : M unit :=
  rp ← load_props;
  let x := fst (Pos rp) in
  let y := snd (Pos rp) in
  lp ← load_last;
  let lastX := fst (Pos lp) in
  let lastY := snd (Pos lp) in
  if force || negb (x =? lastX) || negb (y =? lastY)
  then store_last (SetPos x y);;
       mon ← gets monitor;
       let xy :=
         if (x =? -1) && (y =? -1)
         then match GetVideoMode mon with
              | Some vm => (int_sub (int_div (fst vm) 2) (int_div width 2),
                            int_sub (int_div (snd vm) 2) (int_div height 2))
              | None => (x, y)
              end
         else (x, y) in
       withoutLock (native (glfw.SetPosition (fst xy) (snd xy)))
  else mret tt.

Definition useProps_CursorPos (force : bool) : M unit :=
  rp ← load_props;
  let cursorX := fst (CursorPos rp) in
  let cursorY := snd (CursorPos rp) in
  lp ← load_last;
  let lastCursorX := fst (CursorPos lp) in
  let lastCursorY := snd (CursorPos lp) in
  if force || fne cursorX lastCursorX || fne cursorY lastCursorY
  then store_last (SetCursorPos cursorX cursorY);;
       if fne cursorX (-1)%float && fne cursorY (-1)%float
       then withoutLock (native (glfw.SetCursorPosition cursorX cursorY))
       else mret tt
  else mret tt.

Definition useProps_Visible (force : bool) : M unit :=
  rp ← load_props;
  let visible := Visible rp in
  lp ← load_last;
  if force || negb (Bool.eqb (Visible lp) visible)
  then store_last (SetVisible visible);;
       withoutLock (if visible then native glfw.Show else native glfw.Hide)
  else mret tt.

Definition useProps_Minimized (force : bool) : M unit :=
  rp ← load_props;
  let minimized := Minimized rp in
  lp ← load_last;
  if force || negb (Bool.eqb (Minimized lp) minimized)
  then store_last (SetMinimized minimized);;
       withoutLock (if minimized then native glfw.Iconify else native glfw.Restore)
  else mret tt.

Definition useProps_VSync (force : bool) : M unit :=
  rp ← load_props;
  let vsync := VSync rp in
  lp ← load_last;
  if force || negb (Bool.eqb (VSync lp) vsync)
  then store_last (SetVSync vsync);;
       wgl ← gets extWGLEXTSwapControlTear;
       glx ← gets extGLXEXTSwapControlTear;
       let swapInterval :=
         if vsync then (if wgl || glx then -1 else 1) else 0 in
       native (glfw.SwapInterval swapInterval)
  else mret tt.

Definition useProps_CursorGrabbed (force : bool) : M unit :=
  rp ← load_props;
  let grabbed := CursorGrabbed rp in
  lp ← load_last;
  if force || negb (Bool.eqb (CursorGrabbed lp) grabbed)
  then store_last (SetCursorGrabbed grabbed);;
       modify (set_lastCursor Inf_neg Inf_neg);;
       withoutLock (if grabbed then native (glfw.SetInputMode glfw.CursorDisabled)
                    else native (glfw.SetInputMode glfw.CursorNormal))
  else mret tt.

(** What [useProps] does between taking and releasing the lock. The
    width and height read by the size block are used again to center the
    window. *)
Definition useProps_locked (p : Props) (force : bool) : M unit :=
  record_access Requested true;;
  modify (set_props p);;
  updateTitle;;
  size ← useProps_Size force;
  useProps_Pos force (fst size) (snd size);;
  useProps_CursorPos force;;
  useProps_Visible force;;
  useProps_Minimized force;;
  useProps_VSync force;;
  useProps_CursorGrabbed force.

Definition useProps (p : Props) (force : bool) : M unit :=
  Lock;;
  defer Unlock (useProps_locked p force).

(** ** Native callbacks

    The callbacks [initCallbacks] registers that touch the property sets.
    Each takes what GLFW reports and the instant [time.Now()] gives. *)

(** Minimized and Restored events. *)
Definition IconifyCallback (iconify : bool) (now : Time) : M unit :=
  RLock;;
  store_last (SetMinimized iconify);;
  store_props (SetMinimized iconify);;
  RUnlock;;
  if iconify then sendEvent (EvMinimized now) MinimizedEvents
  else sendEvent (Restored now) RestoredEvents.

(** FocusChanged event. *)
Definition FocusCallback (focused : bool) (now : Time) : M unit :=
  RLock;;
  store_last (SetFocused focused);;
  store_props (SetFocused focused);;
  RUnlock;;
  if focused then sendEvent (GainedFocus now) GainedFocusEvents
  else sendEvent (LostFocus now) LostFocusEvents.

(** Moved event. *)
Definition PositionCallback (x y : Z) (now : Time) : M unit :=
  RLock;;
  store_last (SetPos x y);;
  store_props (SetPos x y);;
  RUnlock;;
  sendEvent (Moved x y now) MovedEvents.

(** Resized event. *)
Definition SizeCallback (width height : Z) (now : Time) : M unit :=
  RLock;;
  store_last (SetSize width height);;
  store_props (SetSize width height);;
  RUnlock;;
  sendEvent (Resized width height now) ResizedEvents.

(** FramebufferResized event. *)
Definition FramebufferSizeCallback (width height : Z) (now : Time) : M unit :=
  RLock;;
  store_last (SetFramebufferSize width height);;
  store_props (SetFramebufferSize width height);;
  RUnlock;;
  modify (fun w => set_renderer {| FrameRate := FrameRate (renderer w);
                                   Bounds := (width, height) |} w);;
  native (glfw.UpdateBounds width height);;
  sendEvent (FramebufferResized width height now) FramebufferResizedEvents.

(** CursorMoved event. The first part gives the coordinates the event
    will carry, or nothing when the callback returns early (the read lock
    then being released already). *)
Definition CursorPositionCallback (x y : float64) (now : Time) : M unit :=
  RLock;;
  rp ← load_props;
  let grabbed := CursorGrabbed rp in
  xy ← (if grabbed
        then
          lastX ← gets lastCursorX;
          lastY ← gets lastCursorY;
          modify (set_lastCursor x y);;
          if feq lastX Inf_neg && feq lastY Inf_neg
          then RUnlock;; mret None
          else mret (Some (PrimFloat.sub x lastX, PrimFloat.sub y lastY))
        else
          store_last (SetCursorPos x y);;
          store_props (SetCursorPos x y);;
          mret (Some (x, y)));
  match xy with
  | None => mret tt
  | Some xy =>
      RUnlock;;
      sendEvent (CursorMoved (fst xy) (snd xy) grabbed now) CursorMovedEvents
  end.

(** A callback as GLFW delivers it from [PollEvents]. *)
Inductive RawEvent :=
| RawIconify (iconify : bool)
| RawFocus (focused : bool)
| RawPosition (x y : Z)
| RawSize (width height : Z)
| RawFramebufferSize (width height : Z)
| RawCursorPosition (x y : float64).

Definition dispatch (e : RawEvent) (now : Time) : M unit :=
  match e with
  | RawIconify b => IconifyCallback b now
  | RawFocus b => FocusCallback b now
  | RawPosition x y => PositionCallback x y now
  | RawSize w h => SizeCallback w h now
  | RawFramebufferSize w h => FramebufferSizeCallback w h now
  | RawCursorPosition x y => CursorPositionCallback x y now
  end.

(** ** The run loop *)

(** [intBool] returns 0 or 1 depending on [b]. *)
Definition intBool (b : bool) : Z := if b then 1 else 0.

(** What the native side answers while [doRun] sets up: whether
    [glfw.Init] and the two [glfw.CreateWindow] succeed, the primary
    monitor if there is one, the renderer [gl2.New] gives if it gives one,
    and which extensions [glfw.ExtensionSupported] reports. *)
Record Native := {
  Init_ok : bool;
  CreateAssets_ok : bool;
  PrimaryMonitor : option Monitor;
  CreateWindow_ok : bool;
  NewRenderer : option Renderer;
  ExtensionSupported : string -> bool
}.

(** What the [select] of the main loop receives: a tick of the one-second
    timer, the shutdown signal, a function to run on the main thread, or a
    render function, given by whether it rendered a frame, the frame rate
    the renderer's clock then measures, and the callbacks GLFW delivers
    from [PollEvents] with the instants they read. *)
Inductive Msg :=
| UpdateFPS
| Shutdown
| RunOnMain (fn : M unit)
| RenderExec (renderedFrame : bool) (rate : float64) (events : list (RawEvent * Time)).

Fixpoint deliver (events : list (RawEvent * Time)) : M unit :=
  match events with
  | [] => mret tt
  | (e, now) :: rest => dispatch e now;; deliver rest
  end.

(** The main rendering loop of [doRun], over the messages its [select]
    receives in turn; with none left, the loop waits. *)
Fixpoint mainLoop (inbox : list Msg) : M unit :=
  match inbox with
  | [] => park
  | UpdateFPS :: rest =>
      Lock;; updateTitle;; Unlock;;
      mainLoop rest
  | Shutdown :: _ =>
      native glfw.LoaderShutdown;;
      native glfw.Destroy
  | RunOnMain fn :: rest =>
      fn;;
      mainLoop rest
  | RenderExec renderedFrame rate events :: rest =>
      modify (fun w => set_renderer {| FrameRate := rate; Bounds := Bounds (renderer w) |} w);;
      (if renderedFrame
       then native glfw.SwapBuffers;; native glfw.PollEvents;; deliver events
       else mret tt);;
      mainLoop rest
  end.

(** The user's graphics loop runs in a goroutine of its own; here it is
    only told apart from [nil]. *)
Inductive GfxLoop := gfxLoopFunc.

Section Run.

(** Modelled from the spec: [NewProps] (props.go) is not among the
    sources; it gives a new property set with the default values. *)
Variable NewProps : Props.

Variable native_side : Native.

(** [Request]: what it puts on the [runOnMain] channel. *)
Definition Request (p : Props) : Msg := RunOnMain (useProps p false).

Definition doRun (gfxLoop : GfxLoop) (p : Props) (inbox : list Msg) : M unit :=
  native glfw.Init;;
  (if Init_ok native_side then mret tt else Fatal);;
  defer (native glfw.Terminate) (
    native (glfw.WindowHint glfw.HVisible 0);;
    native (glfw.CreateWindow 32 32 "assets" false false);;
    (if CreateAssets_ok native_side then mret tt else Fatal);;
    monitor ← (match PrimaryMonitor native_side with
               | Some mon => mret mon
               | None => Fatal
               end);
    let targetMonitor := Fullscreen p in
    native (glfw.WindowHint glfw.HVisible 0);;
    native (glfw.WindowHint glfw.HResizable (intBool (Resizable p)));;
    native (glfw.WindowHint glfw.HDecorated (intBool (Decorated p)));;
    native (glfw.WindowHint glfw.HAutoIconify 1);;
    native (glfw.WindowHint glfw.HFloating (intBool (AlwaysOnTop p)));;
    let prec := GetPrecision p in
    native (glfw.WindowHint glfw.HRedBits (RedBits prec));;
    native (glfw.WindowHint glfw.HGreenBits (GreenBits prec));;
    native (glfw.WindowHint glfw.HBlueBits (BlueBits prec));;
    native (glfw.WindowHint glfw.HAlphaBits (AlphaBits prec));;
    native (glfw.WindowHint glfw.HDepthBits (DepthBits prec));;
    native (glfw.WindowHint glfw.HStencilBits (StencilBits prec));;
    native (glfw.WindowHint glfw.HSamples (Samples prec));;
    native (glfw.WindowHint glfw.HSRGBCapable 1);;
    native (glfw.CreateWindow (fst (Size p)) (snd (Size p)) (Title p) targetMonitor true);;
    (if CreateWindow_ok native_side then mret tt else Fatal);;
    native glfw.MakeContextCurrent;;
    defer (native glfw.DetachCurrentContext) (
      native glfw.NewRenderer;;
      r ← (match NewRenderer native_side with
           | Some r => mret r
           | None => Fatal
           end);
      native glfw.SetDebugOutput;;
      native glfw.GoLoader;;
      modify (fun _ =>
                {| mu := {| writer := false; readers := 0 |};
                   props := p;
                   last := NewProps;
                   renderer := r;
                   monitor := monitor;
                   lastCursorX := 0%float;
                   lastCursorY := 0%float;
                   extWGLEXTSwapControlTear := false;
                   extGLXEXTSwapControlTear := false;
                   notifiers := {| array := []; len := 0 |};
                   closed := false |});;
      modify (fun w => set_ext (ExtensionSupported native_side "WGL_EXT_swap_control_tear")
                               (extGLXEXTSwapControlTear w) w);;
      modify (fun w => set_ext (extWGLEXTSwapControlTear w)
                               (ExtensionSupported native_side "GLX_EXT_swap_control_tear") w);;
      native glfw.RegisterCallbacks;;
      useProps p true;;
      native glfw.GoGfxLoop;;
      mainLoop inbox)).

(** [Run]. *)
Definition Run (gfxLoop : option GfxLoop) (p : option Props) (inbox : list Msg) : M unit :=
  native glfw.LockOSThread;;
  defer (native glfw.UnlockOSThread) (
    let p := match p with
             | None => NewProps
             | Some p => p
             end in
    match gfxLoop with
    | None => panic "window: nil graphics loop function!"
    | Some gfxLoop => doRun gfxLoop p inbox
    end).

End Run.

(** ** Initialization and teardown of GLFW (glfwinit.go) *)

Module glfwinit.

(** A Go [error] that is not nil. *)
Definition error := string.

(** What [doInit] and [doExit] do outside the package variables, in
    order. The calls made by the asset loader goroutine while it shuts
    down are part of the trace: [doExit] waits for them. *)
Inductive Call :=
| Init
| WindowHint_Visible_0
| CreateWindow_assets
| MakeContextCurrent
| glfwNewDevice
| DetachCurrentContext
| go_assetLoader
| go_pollEvents
| asset_exit_send
| Device_Destroy
| Window_Destroy
| UnlockOSThread
| asset_exit_receive
| pollerExit_send
| Terminate.

(** What the native side answers: the error of each call that can
    fail, if any. *)
Record Native := {
  Init_err : option error;
  WindowHint_err : option error;
  CreateWindow_err : option error;
  glfwNewDevice_err : option error;
  Window_Destroy_err : option error;
  Terminate_err : option error
}.

(** The package variable [glfwInit], whether the asset loader goroutine
    that [doInit] started is still running (it returns once it has
    answered the exit signal), and the trace. *)
Record State := { glfwInit : bool; loader : bool; trace : list Call }.

Definition call (c : Call) (s : State) : State :=
  {| glfwInit := glfwInit s; loader := loader s; trace := trace s ++ [c] |}.

Definition set_glfwInit (b : bool) (s : State) : State :=
  {| glfwInit := b; loader := loader s; trace := trace s |}.

Definition set_loader (b : bool) (s : State) : State :=
  {| glfwInit := glfwInit s; loader := b; trace := trace s |}.

(** How [doExit] ends: it returns an error ([None] for nil), or it waits
    for ever in a channel operation. *)
Inductive Result :=
| Returned (err : option error) (s : State)
| Parked (s : State).

Section with_native.

Variable native_side : Native.

(** [doInit] initializes GLFW and the hidden asset window/device, if
    not already initialized. The result is the error returned ([None]
    for nil) and the state. *)
Definition doInit (s : State) : option error * State :=
  if glfwInit s then (None, s)
  else
    let s := call Init s in
    match Init_err native_side with
    | Some err => (Some err, s)
    | None =>
        let s := call WindowHint_Visible_0 s in
        match WindowHint_err native_side with
        | Some err => (Some err, s)
        | None =>
            let s := call CreateWindow_assets s in
            match CreateWindow_err native_side with
            | Some err => (Some err, s)
            | None =>
                let s := call MakeContextCurrent s in
                let s := call glfwNewDevice s in
                match glfwNewDevice_err native_side with
                | Some err => (Some err, s)
                | None =>
                    let s := call DetachCurrentContext s in
                    let s := set_loader true (call go_assetLoader s) in
                    let s := call go_pollEvents s in
                    (None, set_glfwInit true s)
                end
            end
        end
    end.

(** The branch of [assetLoader] that answers the exit signal: it
    destroys the device, releases the context, destroys the window,
    unlocks its thread and sends the window's error back; the goroutine
    then returns. *)
Definition assetLoader_exit (s : State) : option error * State :=
  let s := call Device_Destroy s in
  let s := call DetachCurrentContext s in
  let s := call Window_Destroy s in
  let s := call UnlockOSThread s in
  (Window_Destroy_err native_side, set_loader false s).

(** [doExit] de-initializes GLFW and the hidden asset window/device,
    only if it is initialized. The channel [asset.exit] has no buffer:
    the send [asset.exit <- nil] is taken by the asset loader if that
    goroutine is running, and waits for ever if it has returned. *)
Definition doExit (s : State) : Result :=
  if negb (glfwInit s) then Returned None s
  else if negb (loader s) then Parked s
  else
    let s := call asset_exit_send s in
    let (err, s) := assetLoader_exit s in
    let s := call asset_exit_receive s in
    match err with
    | Some err => Returned (Some err) s
    | None =>
        let s := call pollerExit_send s in
        let s := call Terminate s in
        Returned (Terminate_err native_side) (set_glfwInit false s)
    end.

End with_native.

End glfwinit.
(** * Notions used in the statements *)

(** ** Slices and channels *)

Definition slice_ok (s : slice notifier) : Prop := (len s <= length (array s))%nat.

Definition last_is_for (c : chan) (s : slice notifier) : Prop :=
  exists nf, array s !! (len s - 1)%nat = Some nf /\ ch nf = c /\ (0 < len s)%nat.

(** How many notifiers of [l] are for channel [c] and match the mask [m]. *)
Fixpoint deliveries (c : chan) (m : EventMask) (l : list notifier) : nat :=
  match l with
  | [] => 0
  | nf :: rest =>
      let hit := (ch nf =? c)%nat && negb (Z.land (mask nf) m =? 0) in
      ((if hit then 1 else 0) + deliveries c m rest)%nat
  end.

(** A channel after [n] attempts to send it [ev]: those that found room. *)
Definition delivered (n : nat) (ev : Event) (q : Chan) : Chan :=
  {| cap := cap q; buf := buf q ++ replicate (Nat.min n (cap q - length (buf q))) ev |}.

(** ** What a run of [useProps] is expected to do *)

(** The running goroutine holds the write lock, and nothing else. *)
Definition locked (m : Machine) : Prop :=
  mu (win m) = {| writer := true; readers := 0 |}.

Definition write_locked (a : Access) : Prop := held a = WriteLock.
Definition read_locked (a : Access) : Prop := held a = ReadLock.

(** The effect of a step on a machine: [last] and the cursor baseline
    become the given ones, the calls [C] are issued, and every access to
    the property sets made on the way satisfies [P]. Nothing else
    changes. *)
Definition eff (P : Access -> Prop) (m m' : Machine) (L : Props) (cx cy : float64)
    (C : list glfw.Call) : Prop :=
  win m' = set_last L (set_lastCursor cx cy (win m))
  /\ chans m' = chans m
  /\ calls m' = calls m ++ C
  /\ exists A, audit m' = audit m ++ A /\ Forall P A.

(** The title [updateTitle] gives the native window. *)
Definition applied_title (p : Props) (r : Renderer) : string :=
  Replace 1 (Title p) "{FPS}" (Sprintf_d_FPS (int_of_Ceil (FrameRate r))).

(** Per property: whether the block applies it, the value [last] has
    after it, and the native calls it issues. [p] is the requested
    property set, [l] the last known one. *)
Definition Size_applies (force : bool) (p l : Props) : bool :=
  force || negb (fst (Size p) =? fst (Size l)) || negb (snd (Size p) =? snd (Size l)).

Definition Pos_applies (force : bool) (p l : Props) : bool :=
  force || negb (fst (Pos p) =? fst (Pos l)) || negb (snd (Pos p) =? snd (Pos l)).

Definition CursorPos_applies (force : bool) (p l : Props) : bool :=
  force || fne (fst (CursorPos p)) (fst (CursorPos l))
        || fne (snd (CursorPos p)) (snd (CursorPos l)).

Definition Visible_applies (force : bool) (p l : Props) : bool :=
  force || negb (Bool.eqb (Visible l) (Visible p)).

Definition Minimized_applies (force : bool) (p l : Props) : bool :=
  force || negb (Bool.eqb (Minimized l) (Minimized p)).

Definition VSync_applies (force : bool) (p l : Props) : bool :=
  force || negb (Bool.eqb (VSync l) (VSync p)).

Definition CursorGrabbed_applies (force : bool) (p l : Props) : bool :=
  force || negb (Bool.eqb (CursorGrabbed l) (CursorGrabbed p)).

(** The position given to the native window for a requested position:
    the centered one for the sentinel [(-1, -1)] when the monitor tells
    its video mode. *)
Definition resolved_Pos (mon : Monitor) (width height : Z) (p : Props) : Z * Z :=
  if (fst (Pos p) =? -1) && (snd (Pos p) =? -1)
  then match GetVideoMode mon with
       | Some vm => (int_sub (int_div (fst vm) 2) (int_div width 2),
                     int_sub (int_div (snd vm) 2) (int_div height 2))
       | None => Pos p
       end
  else Pos p.

(** The swap interval for a requested vsync, given the two extensions. *)
Definition swap_interval (vsync wgl glx : bool) : Z :=
  if vsync then (if wgl || glx then -1 else 1) else 0.

Definition Size_calls (force : bool) (p l : Props) : list glfw.Call :=
  if Size_applies force p l then [glfw.SetSize (fst (Size p)) (snd (Size p))] else [].

Definition Pos_calls (force : bool) (mon : Monitor) (width height : Z) (p l : Props)
    : list glfw.Call :=
  if Pos_applies force p l
  then [glfw.SetPosition (fst (resolved_Pos mon width height p))
                         (snd (resolved_Pos mon width height p))]
  else [].

Definition CursorPos_calls (force : bool) (p l : Props) : list glfw.Call :=
  if CursorPos_applies force p l
     && (fne (fst (CursorPos p)) (-1)%float && fne (snd (CursorPos p)) (-1)%float)
  then [glfw.SetCursorPosition (fst (CursorPos p)) (snd (CursorPos p))] else [].

Definition Visible_calls (force : bool) (p l : Props) : list glfw.Call :=
  if Visible_applies force p l
  then [if Visible p then glfw.Show else glfw.Hide] else [].

Definition Minimized_calls (force : bool) (p l : Props) : list glfw.Call :=
  if Minimized_applies force p l
  then [if Minimized p then glfw.Iconify else glfw.Restore] else [].

Definition VSync_calls (force wgl glx : bool) (p l : Props) : list glfw.Call :=
  if VSync_applies force p l
  then [glfw.SwapInterval (swap_interval (VSync p) wgl glx)]
  else [].

Definition CursorGrabbed_calls (force : bool) (p l : Props) : list glfw.Call :=
  if CursorGrabbed_applies force p l
  then [glfw.SetInputMode (if CursorGrabbed p then glfw.CursorDisabled else glfw.CursorNormal)]
  else [].

(** All native calls of one run of [useProps p force] on the window [w]. *)
Definition reconcile_calls (force : bool) (w : glfwWindow) (p : Props) : list glfw.Call :=
  let l := last w in
  [glfw.SetTitle (applied_title p (renderer w))]
  ++ Size_calls force p l
  ++ Pos_calls force (monitor w) (fst (Size p)) (snd (Size p)) p l
  ++ CursorPos_calls force p l ++ Visible_calls force p l
  ++ Minimized_calls force p l
  ++ VSync_calls force (extWGLEXTSwapControlTear w) (extGLXEXTSwapControlTear w) p l
  ++ CursorGrabbed_calls force p l.

(** [last] after each block, and after one run of [useProps p force]. *)
Definition apply_Size (force : bool) (p l : Props) : Props :=
  if Size_applies force p l then SetSize (fst (Size p)) (snd (Size p)) l else l.

Definition apply_Pos (force : bool) (p l : Props) : Props :=
  if Pos_applies force p l then SetPos (fst (Pos p)) (snd (Pos p)) l else l.

Definition apply_CursorPos (force : bool) (p l : Props) : Props :=
  if CursorPos_applies force p l
  then SetCursorPos (fst (CursorPos p)) (snd (CursorPos p)) l else l.

Definition apply_Visible (force : bool) (p l : Props) : Props :=
  if Visible_applies force p l then SetVisible (Visible p) l else l.

Definition apply_Minimized (force : bool) (p l : Props) : Props :=
  if Minimized_applies force p l then SetMinimized (Minimized p) l else l.

Definition apply_VSync (force : bool) (p l : Props) : Props :=
  if VSync_applies force p l then SetVSync (VSync p) l else l.

Definition apply_CursorGrabbed (force : bool) (p l : Props) : Props :=
  if CursorGrabbed_applies force p l then SetCursorGrabbed (CursorGrabbed p) l else l.

Definition reconcile_last (force : bool) (p l : Props) : Props :=
  apply_CursorGrabbed force p
    (apply_VSync force p
       (apply_Minimized force p
          (apply_Visible force p
             (apply_CursorPos force p
                (apply_Pos force p
                   (apply_Size force p l)))))).

(** The cursor baseline after one run: reset when the grab block applies. *)
Definition reconcile_baseline (force : bool) (p l : Props) (old : float64) : float64 :=
  if CursorGrabbed_applies force p l then Inf_neg else old.

(** Go's [==] on the coordinates of two cursor positions. *)
Definition CursorPos_eq (a b : float64 * float64) : bool :=
  feq (fst a) (fst b) && feq (snd a) (snd b).

(** ** Reading traces *)

(** The calls a computation has issued when it is done. *)
Definition run_calls (c : M unit) (m : Machine) : option (list glfw.Call) :=
  match c m with
  | Done _ m' => Some (calls m')
  | _ => None
  end.

(** The positions given to [SetPosition] in a trace. *)
Definition SetPosition_args (l : list glfw.Call) : list (Z * Z) :=
  omap (fun c => match c with glfw.SetPosition x y => Some (x, y) | _ => None end) l.

(** The intervals given to [SwapInterval] in a trace. *)
Definition SwapInterval_args (l : list glfw.Call) : list Z :=
  omap (fun c => match c with glfw.SwapInterval n => Some n | _ => None end) l.

(** The titles given to [SetTitle] in a trace. *)
Definition SetTitle_args (l : list glfw.Call) : list string :=
  omap (fun c => match c with glfw.SetTitle t => Some t | _ => None end) l.

(** ** Callbacks *)

(** What a callback, run by a goroutine that does not hold the write
    lock, is expected to do about locking: it returns, gives the mutex
    back as it found it, and touches the property sets under the read
    lock only. *)
Definition under_read_lock (cb : M unit) : Prop :=
  forall m, writer (mu (win m)) = false ->
    exists m' A, cb m = Done tt m'
      /\ mu (win m') = mu (win m)
      /\ audit m' = audit m ++ A
      /\ Forall read_locked A.

(** The accesses a computation has made when it is done. *)
Definition run_audit (c : M unit) (m : Machine) : option (list Access) :=
  match c m with
  | Done _ m' => Some (audit m')
  | _ => None
  end.

(** ** Titles *)

(** Whether the byte [c] occurs in [s]. *)
Fixpoint has_byte (c : ascii) (s : string) : bool :=
  match s with
  | EmptyString => false
  | String d s' => Ascii.eqb c d || has_byte c s'
  end.

(** ** Unsubscribing *)

(** The notifiers of [l] that are not for channel [c]. *)
Definition others (c : chan) (l : list notifier) : list notifier :=
  List.filter (fun nf => negb (ch nf =? c)%nat) l.

(** The last notifier of the slice is for a channel other than [c]. *)
Definition last_is_other (c : chan) (s : slice notifier) : Prop :=
  exists t, array s !! (len s - 1)%nat = Some t /\ ch t <> c /\ (0 < len s)%nat.

(** ** Sample machines *)

Definition Precision0 : Precision :=
  {| RedBits := 8; GreenBits := 8; BlueBits := 8; AlphaBits := 0;
     DepthBits := 24; StencilBits := 0; Samples := 0 |}.

Definition sample_props : Props :=
  {| Title := "Game {FPS}"; Size := (800, 600); Pos := (-1, -1);
     CursorPos := ((-1)%float, (-1)%float); ShouldClose := true; Visible := true;
     Minimized := false; Focused := true; Resizable := true; Decorated := true;
     AlwaysOnTop := false; VSync := true; CursorGrabbed := false; Fullscreen := false;
     FramebufferSize := (1, 1); GetPrecision := Precision0 |}.

Definition sample_window : glfwWindow :=
  {| mu := {| writer := false; readers := 0 |};
     props := sample_props; last := sample_props;
     renderer := {| FrameRate := 42%float; Bounds := (800, 600) |};
     monitor := {| GetVideoMode := Some (1920, 1080) |};
     lastCursorX := 0%float; lastCursorY := 0%float;
     extWGLEXTSwapControlTear := false; extGLXEXTSwapControlTear := false;
     notifiers := {| array := []; len := 0 |};
     closed := false |}.

(** A machine with one channel of capacity [n] at address 1. *)
Definition sample_machine (n : nat) : Machine :=
  {| win := sample_window;
     chans := {[ 1%nat := {| cap := n; buf := [] |} ]};
     calls := []; audit := [] |}.

(** A request that differs from [sample_props] in size, position and
    cursor grab. *)
Definition sample_request : Props :=
  SetPos 10 20 (SetSize 640 480 (SetCursorGrabbed true sample_props)).

(** A machine whose only channel, of capacity one, is full and subscribed
    to close events. *)
Definition full_machine : Machine :=
  {| win := set_notifiers {| array := [{| mask := CloseEvents; ch := 1%nat |}]; len := 1 |}
              sample_window;
     chans := {[ 1%nat := {| cap := 1; buf := [Damaged 0] |} ]};
     calls := []; audit := [] |}.

(** A machine whose only channel, of capacity four, is empty and
    subscribed to cursor motion. *)
Definition grab_machine : Machine :=
  {| win := set_notifiers {| array := [{| mask := CursorMovedEvents; ch := 1%nat |}];
                             len := 1 |} sample_window;
     chans := {[ 1%nat := {| cap := 4; buf := [] |} ]};
     calls := []; audit := [] |}.

(** A machine with two subscriptions of channel 1 followed by one of
    channel 2. *)
Definition shared_machine : Machine :=
  {| win := set_notifiers
              {| array := [{| mask := CloseEvents; ch := 1%nat |};
                           {| mask := AllEvents; ch := 1%nat |};
                           {| mask := CloseEvents; ch := 2%nat |}];
                 len := 3 |} sample_window;
     chans := {[ 1%nat := {| cap := 4; buf := [] |} ]};
     calls := []; audit := [] |}.

(** A native side on which every call of [glfwinit] succeeds. *)
Definition glfwinit_ok : glfwinit.Native :=
  {| glfwinit.Init_err := None; glfwinit.WindowHint_err := None;
     glfwinit.CreateWindow_err := None; glfwinit.glfwNewDevice_err := None;
     glfwinit.Window_Destroy_err := None; glfwinit.Terminate_err := None |}.

From Stdlib Require Floats.FloatAxioms.

(** * The rest of the window's callbacks, and the asset loader *)

(** ** Callbacks that only publish (glfwwindow.go, [initCallbacks]) *)

(** Damaged event. *)
Definition RefreshCallback (now : Time) : M unit :=
  sendEvent (Damaged now) DamagedEvents.

(** Dropped event. *)
Definition DropCallback (items : list string) (now : Time) : M unit :=
  sendEvent (ItemsDropped items now) ItemsDroppedEvents.

(** CursorEnter and CursorExit events. *)
Definition CursorEnterCallback (enter : bool) (now : Time) : M unit :=
  if enter then sendEvent (CursorEnter now) CursorEnterEvents
  else sendEvent (CursorExit now) CursorExitEvents.

(** [w.shutdown] is made with room for one value. The channel is passed
    along as the values buffered in it; the main loop is its only
    receiver. *)
Definition shutdown_cap : nat := 1.

(** [Close()]: [w.shutdown <- true]. The send waits while the channel is
    full. *)
Definition glfwWindow_Close (shutdown : list bool) : M (list bool) :=
  if (length shutdown <? shutdown_cap)%nat then mret (shutdown ++ [true]) else park.

(** Close event: if the properties say the window should close, the
    window is closed and no event is sent. *)
Definition CloseCallback (now : Time) (shutdown : list bool) : M (list bool) :=
  p ← GetProps;
  if ShouldClose p then glfwWindow_Close shutdown
  else sendEvent (Close now) CloseEvents;; mret shutdown.

(** ** The asset loader goroutine (glfwinit.go) *)

Module asset.

(** What the [select] of [assetLoader] receives in turn: a value on
    [asset.withoutContext] (and whether the sender, once done, sends the
    second value that hands the context back), the exit signal, or a
    function from the device's [Exec] channel, known by a number. *)
Inductive Msg :=
| WithoutContext (resumed : bool)
| Exit
| Exec (fn : nat).

Inductive Step :=
| LockOSThread
| MakeContextCurrent
| DetachCurrentContext
| withoutContext_send
| withoutContext_receive
| Call (fn : nat)
| Device_Destroy
| Window_Destroy
| UnlockOSThread
| exit_send (err : option glfwinit.error).

(** How the goroutine ends up: returned, or waiting in a receive. *)
Inductive Result :=
| Returned (t : list Step)
| Waiting (t : list Step).

Definition steps (r : Result) : list Step :=
  match r with
  | Returned t => t
  | Waiting t => t
  end.

Section with_native.

Variable native_side : glfwinit.Native.

(** The [for { select { ... } }] of [assetLoader], after the steps [t]. *)
Fixpoint loop (inbox : list Msg) (t : list Step) : Result :=
  match inbox with
  | [] => Waiting t
  | WithoutContext resumed :: rest =>
      let t := t ++ [DetachCurrentContext; withoutContext_send] in
      if resumed
      then loop rest (t ++ [withoutContext_receive; MakeContextCurrent])
      else Waiting t
  | Exit :: _ =>
      Returned (t ++ [Device_Destroy; DetachCurrentContext; Window_Destroy;
                      UnlockOSThread;
                      exit_send (glfwinit.Window_Destroy_err native_side)])
  | Exec fn :: rest => loop rest (t ++ [Call fn])
  end.

Definition assetLoader (inbox : list Msg) : Result :=
  loop inbox [LockOSThread; MakeContextCurrent].

End with_native.

End asset.

(** * Further notions used in the statements *)

(** ** The ceiling of a frame rate *)

(** The integer [z] is the ceiling of the float [f]: [f] is a number,
    whose exact value is [0] or [(-1)^s * m * 2^e], and
    [z - 1 < value <= z]. The comparison is made on integers, both sides
    being multiplied by [2^(-e)] when [e] is negative. *)
Definition is_ceiling (f : spec_float) (z : Z) : Prop :=
  match f with
  | S754_zero _ => z = 0
  | S754_finite s m e =>
      let n := if s then Z.neg m else Z.pos m in
      if 0 <=? e then z = n * 2 ^ e
      else (z - 1) * 2 ^ (- e) < n <= z * 2 ^ (- e)
  | S754_infinity _ | S754_nan => False
  end.

(** [sample_machine 1] when the renderer's clock measures 41.5 frames a
    second. *)
Definition fractional_machine : Machine :=
  with_win (set_renderer {| FrameRate := 41.5%float; Bounds := (800, 600) |})
    (sample_machine 1).


(** ** What a callback stands for *)

(** The event a callback publishes and the mask it publishes it under,
    for a window that is [w] when the callback starts; nothing for the
    first cursor sample after a grab. *)
Definition published (e : RawEvent) (now : Time) (w : glfwWindow) : option (Event * EventMask) :=
  match e with
  | RawIconify true => Some (EvMinimized now, MinimizedEvents)
  | RawIconify false => Some (Restored now, RestoredEvents)
  | RawFocus true => Some (GainedFocus now, GainedFocusEvents)
  | RawFocus false => Some (LostFocus now, LostFocusEvents)
  | RawPosition x y => Some (Moved x y now, MovedEvents)
  | RawSize width height => Some (Resized width height now, ResizedEvents)
  | RawFramebufferSize width height =>
      Some (FramebufferResized width height now, FramebufferResizedEvents)
  | RawCursorPosition x y =>
      if CursorGrabbed (props w)
      then if feq (lastCursorX w) Inf_neg && feq (lastCursorY w) Inf_neg
           then None
           else Some (CursorMoved (PrimFloat.sub x (lastCursorX w))
                                  (PrimFloat.sub y (lastCursorY w)) true now,
                      CursorMovedEvents)
      else Some (CursorMoved x y false now, CursorMovedEvents)
  end.

(** What a callback reports, written into a property set. *)
Definition reported (e : RawEvent) (p : Props) : Props :=
  match e with
  | RawIconify b => SetMinimized b p
  | RawFocus b => SetFocused b p
  | RawPosition x y => SetPos x y p
  | RawSize width height => SetSize width height p
  | RawFramebufferSize width height => SetFramebufferSize width height p
  | RawCursorPosition x y => SetCursorPos x y p
  end.

(** The window after a callback. *)
Definition recorded (e : RawEvent) (w : glfwWindow) : glfwWindow :=
  match e with
  | RawCursorPosition x y =>
      if CursorGrabbed (props w) then set_lastCursor x y w
      else set_props (reported e (props w)) (set_last (reported e (last w)) w)
  | RawFramebufferSize width height =>
      set_renderer {| FrameRate := FrameRate (renderer w); Bounds := (width, height) |}
        (set_props (reported e (props w)) (set_last (reported e (last w)) w))
  | _ => set_props (reported e (props w)) (set_last (reported e (last w)) w)
  end.

(** The native calls of a callback. *)
Definition callback_calls (e : RawEvent) : list glfw.Call :=
  match e with
  | RawFramebufferSize width height => [glfw.UpdateBounds width height]
  | _ => []
  end.

(** A channel after the callback [e] on the window [w]. *)
Definition after_callback (e : RawEvent) (now : Time) (w : glfwWindow)
    (c : chan) (q : Chan) : Chan :=
  match published e now w with
  | Some (ev, msk) => delivered (deliveries c msk (elems (notifiers w))) ev q
  | None => q
  end.

(** ** The two property sets in step *)

(** [last] agrees with [props] on every property [useProps] compares;
    for the cursor position, in the sense of Go's [==], which no
    coordinate that is not a number satisfies. *)
Definition in_step (w : glfwWindow) : Prop :=
  Size (last w) = Size (props w)
  /\ Pos (last w) = Pos (props w)
  /\ CursorPos_eq (CursorPos (props w)) (CursorPos (last w)) = true
  /\ Visible (last w) = Visible (props w)
  /\ Minimized (last w) = Minimized (props w)
  /\ VSync (last w) = VSync (props w)
  /\ CursorGrabbed (last w) = CursorGrabbed (props w).

(** What a raw cursor sample must be for the cursor position to stay a
    number. *)
Definition is_number (e : RawEvent) : Prop :=
  match e with
  | RawCursorPosition x y => feq x x = true /\ feq y y = true
  | _ => True
  end.

(** A cursor position both of whose coordinates are numbers. *)
Definition numeric (xy : float64 * float64) : Prop :=
  feq (fst xy) (fst xy) = true /\ feq (snd xy) (snd xy) = true.

(** ** The main loop and its teardown *)

(** *** The loop with the shutdown channel and every callback

    [mainLoop] stands for the loop as long as the callbacks GLFW
    delivers are those that record a property, and takes the shutdown
    signal where its inbox says so. [eventLoop] is the same loop with the
    channel [w.shutdown] in hand, as the values buffered in it, and with
    every callback [initCallbacks] registers whose code is in this file
    (those of the keyboard and the mouse hand their events to watchers
    of other packages). *)

Inductive Callback :=
| OnProperty (e : RawEvent)
| OnClose
| OnRefresh
| OnDrop (items : list string)
| OnCursorEnter (enter : bool).

Definition callback (cb : Callback) (now : Time) (shutdown : list bool) : M (list bool) :=
  match cb with
  | OnProperty e => dispatch e now;; mret shutdown
  | OnClose => CloseCallback now shutdown
  | OnRefresh => RefreshCallback now;; mret shutdown
  | OnDrop items => DropCallback items now;; mret shutdown
  | OnCursorEnter enter => CursorEnterCallback enter now;; mret shutdown
  end.

(** What happens while [glfw.PollEvents] runs: GLFW calls a callback, or
    another goroutine calls [Close()]. *)
Inductive Happening :=
| Calls (cb : Callback) (now : Time)
| ClosedElsewhere.

(** [Close()] called by another goroutine: its send goes through if the
    channel has room; if not, it is that goroutine that waits. *)
Definition Close_elsewhere (shutdown : list bool) : list bool :=
  if (length shutdown <? shutdown_cap)%nat then shutdown ++ [true] else shutdown.

Fixpoint poll (during : list Happening) (shutdown : list bool) : M (list bool) :=
  match during with
  | [] => mret shutdown
  | Calls cb now :: rest => sd ← callback cb now shutdown; poll rest sd
  | ClosedElsewhere :: rest => poll rest (Close_elsewhere shutdown)
  end.

(** One round of the loop: the case its [select] takes, with what
    happens during the frame; or, between two rounds, a [Close()] called
    by another goroutine. *)
Inductive Received :=
| GotUpdateFPS
| GotShutdown
| GotRunOnMain (fn : M unit)
| GotRenderExec (renderedFrame : bool) (rate : float64) (during : list Happening)
| CloseCalled.

(** The main rendering loop of [doRun]. The case of [w.shutdown] can
    only be taken when a value is pending there; an inbox that names it
    when none is describes a loop that waits for one. *)
Fixpoint eventLoop (inbox : list Received) (shutdown : list bool) : M unit :=
  match inbox with
  | [] => park
  | GotUpdateFPS :: rest =>
      Lock;; updateTitle;; Unlock;;
      eventLoop rest shutdown
  | GotShutdown :: _ =>
      match shutdown with
      | [] => park
      | _ :: _ =>
          native glfw.LoaderShutdown;;
          native glfw.Destroy
      end
  | GotRunOnMain fn :: rest =>
      fn;;
      eventLoop rest shutdown
  | GotRenderExec renderedFrame rate during :: rest =>
      modify (fun w => set_renderer {| FrameRate := rate; Bounds := Bounds (renderer w) |} w);;
      sd ← (if renderedFrame
            then native glfw.SwapBuffers;; native glfw.PollEvents;; poll during shutdown
            else mret shutdown);
      eventLoop rest sd
  | CloseCalled :: rest => eventLoop rest (Close_elsewhere shutdown)
  end.

(** The inbox of [mainLoop] as one of [eventLoop]. *)
Definition lift (msg : Msg) : Received :=
  match msg with
  | UpdateFPS => GotUpdateFPS
  | Shutdown => GotShutdown
  | RunOnMain fn => GotRunOnMain fn
  | RenderExec renderedFrame rate events =>
      GotRenderExec renderedFrame rate
        (map (fun e => Calls (OnProperty (fst e)) (snd e)) events)
  end.

Section Run_with.

Variable NewProps : Props.

Variable native_side : Native.

(** [doRun], its main rendering loop being given. *)
Definition doRun_with (gfxLoop : GfxLoop) (p : Props) (loop : M unit) : M unit :=
  native glfw.Init;;
  (if Init_ok native_side then mret tt else Fatal);;
  defer (native glfw.Terminate) (
    native (glfw.WindowHint glfw.HVisible 0);;
    native (glfw.CreateWindow 32 32 "assets" false false);;
    (if CreateAssets_ok native_side then mret tt else Fatal);;
    monitor ← (match PrimaryMonitor native_side with
               | Some mon => mret mon
               | None => Fatal
               end);
    let targetMonitor := Fullscreen p in
    native (glfw.WindowHint glfw.HVisible 0);;
    native (glfw.WindowHint glfw.HResizable (intBool (Resizable p)));;
    native (glfw.WindowHint glfw.HDecorated (intBool (Decorated p)));;
    native (glfw.WindowHint glfw.HAutoIconify 1);;
    native (glfw.WindowHint glfw.HFloating (intBool (AlwaysOnTop p)));;
    let prec := GetPrecision p in
    native (glfw.WindowHint glfw.HRedBits (RedBits prec));;
    native (glfw.WindowHint glfw.HGreenBits (GreenBits prec));;
    native (glfw.WindowHint glfw.HBlueBits (BlueBits prec));;
    native (glfw.WindowHint glfw.HAlphaBits (AlphaBits prec));;
    native (glfw.WindowHint glfw.HDepthBits (DepthBits prec));;
    native (glfw.WindowHint glfw.HStencilBits (StencilBits prec));;
    native (glfw.WindowHint glfw.HSamples (Samples prec));;
    native (glfw.WindowHint glfw.HSRGBCapable 1);;
    native (glfw.CreateWindow (fst (Size p)) (snd (Size p)) (Title p) targetMonitor true);;
    (if CreateWindow_ok native_side then mret tt else Fatal);;
    native glfw.MakeContextCurrent;;
    defer (native glfw.DetachCurrentContext) (
      native glfw.NewRenderer;;
      r ← (match NewRenderer native_side with
           | Some r => mret r
           | None => Fatal
           end);
      native glfw.SetDebugOutput;;
      native glfw.GoLoader;;
      modify (fun _ =>
                {| mu := {| writer := false; readers := 0 |};
                   props := p;
                   last := NewProps;
                   renderer := r;
                   monitor := monitor;
                   lastCursorX := 0%float;
                   lastCursorY := 0%float;
                   extWGLEXTSwapControlTear := false;
                   extGLXEXTSwapControlTear := false;
                   notifiers := {| array := []; len := 0 |};
                   closed := false |});;
      modify (fun w => set_ext (ExtensionSupported native_side "WGL_EXT_swap_control_tear")
                               (extGLXEXTSwapControlTear w) w);;
      modify (fun w => set_ext (extWGLEXTSwapControlTear w)
                               (ExtensionSupported native_side "GLX_EXT_swap_control_tear") w);;
      native glfw.RegisterCallbacks;;
      useProps p true;;
      native glfw.GoGfxLoop;;
      loop)).

(** [Run], likewise. *)
Definition Run_with (gfxLoop : option GfxLoop) (p : option Props) (loop : M unit) : M unit :=
  native glfw.LockOSThread;;
  defer (native glfw.UnlockOSThread) (
    let p := match p with
             | None => NewProps
             | Some p => p
             end in
    match gfxLoop with
    | None => panic "window: nil graphics loop function!"
    | Some gfxLoop => doRun_with gfxLoop p loop
    end).

End Run_with.

(** What happens during a frame, cursor positions being pairs of
    numbers. *)
Definition numeric_happening (h : Happening) : Prop :=
  match h with
  | Calls (OnProperty e) _ => is_number e
  | _ => True
  end.

(** What the main loop is given in a run of the package: ticks of the
    timer, the shutdown signal, requests, frames with what happens during
    them, and [Close()] called from elsewhere. *)
Inductive orderly : Received -> Prop :=
| orderly_tick : orderly GotUpdateFPS
| orderly_shutdown : orderly GotShutdown
| orderly_request p : numeric (CursorPos p) -> orderly (GotRunOnMain (useProps p false))
| orderly_frame renderedFrame rate during :
    Forall numeric_happening during ->
    orderly (GotRenderExec renderedFrame rate during)
| orderly_close : orderly CloseCalled.

Definition no_close_callback (h : Happening) : bool :=
  match h with
  | Calls OnClose _ => false
  | _ => true
  end.

Definition is_ClosedElsewhere (h : Happening) : bool :=
  match h with
  | ClosedElsewhere => true
  | _ => false
  end.

(** The round neither takes the shutdown signal nor has GLFW call the
    close callback. *)
Definition carries_on (r : Received) : bool :=
  match r with
  | GotShutdown => false
  | GotRenderExec _ _ during => forallb no_close_callback during
  | _ => true
  end.

(** In the round, [Close()] is called from elsewhere. *)
Definition closes (r : Received) : bool :=
  match r with
  | CloseCalled => true
  | GotRenderExec true _ during => existsb is_ClosedElsewhere during
  | _ => false
  end.

(** From [m] to [m']: the mutex is free, [last] agrees with [props]
    if it did, and native calls have only been added. *)
Definition stays (m m' : Machine) : Prop :=
  holding (mu (win m')) = NoLock
  /\ (in_step (win m) -> in_step (win m'))
  /\ exists C, calls m' = calls m ++ C.

(** How the loop may end, started on the machine [m]: it returns, the
    shutdown of the loader and the destruction of the native window being
    the last native calls, or it waits; either way with the mutex free
    and with [last] in agreement with [props] if they agreed in [m]. *)
Definition settled (m : Machine) (o : Outcome unit) : Prop :=
  match o with
  | Done _ m' =>
      holding (mu (win m')) = NoLock
      /\ (in_step (win m) -> in_step (win m'))
      /\ exists C, calls m' = calls m ++ C ++ [glfw.LoaderShutdown; glfw.Destroy]
  | Blocked m' =>
      holding (mu (win m')) = NoLock
      /\ (in_step (win m) -> in_step (win m'))
  | Panic _ _ | Exited _ => False
  end.

Definition is_Shutdown (msg : Msg) : bool :=
  match msg with
  | Shutdown => true
  | _ => false
  end.

(** The machine after one more native call. *)
Definition logged (c : glfw.Call) (m : Machine) : Machine :=
  {| win := win m; chans := chans m; calls := calls m ++ [c]; audit := audit m |}.

(** The outcome of a body whose deferred call is the native call [c]:
    the call is made when the body returns and when it panics, and is
    not made when the goroutine is parked or the process has exited. *)
Definition deferred {A} (c : glfw.Call) (o : Outcome A) : Outcome A :=
  match o with
  | Done a m => Done a (logged c m)
  | Panic msg m => Panic msg (logged c m)
  | Blocked m => Blocked m
  | Exited m => Exited m
  end.

(** Whether every answer the native side gives during setup is a
    success. *)
Definition setup_ok (n : Native) : bool :=
  Init_ok n && CreateAssets_ok n && bool_decide (is_Some (PrimaryMonitor n))
  && CreateWindow_ok n && bool_decide (is_Some (NewRenderer n)).

(** ** The asset loader's context *)

Module asset_notions.

(** Whether the context is current on the loader's thread after the
    steps [t], given whether it was before. *)
Fixpoint current_after (cur : bool) (t : list asset.Step) : bool :=
  match t with
  | [] => cur
  | asset.MakeContextCurrent :: t' => current_after true t'
  | asset.DetachCurrentContext :: t' => current_after false t'
  | _ :: t' => current_after cur t'
  end.

(** What a step needs of the context: functions and the device's
    destruction need it current; the hand-over and the window's
    destruction need it released. *)
Definition step_ok (cur : bool) (s : asset.Step) : bool :=
  match s with
  | asset.Call _ | asset.Device_Destroy => cur
  | asset.withoutContext_send | asset.withoutContext_receive
  | asset.Window_Destroy => negb cur
  | _ => true
  end.

Fixpoint context_ok (cur : bool) (t : list asset.Step) : bool :=
  match t with
  | [] => true
  | s :: t' => step_ok cur s && context_ok (current_after cur [s]) t'
  end.

(** The functions called, in order. *)
Fixpoint called (t : list asset.Step) : list nat :=
  match t with
  | [] => []
  | asset.Call fn :: t' => fn :: called t'
  | _ :: t' => called t'
  end.

(** The functions of the messages, in order. *)
Fixpoint submitted (inbox : list asset.Msg) : list nat :=
  match inbox with
  | [] => []
  | asset.Exec fn :: rest => fn :: submitted rest
  | _ :: rest => submitted rest
  end.

Definition hands_back (msg : asset.Msg) : bool :=
  match msg with
  | asset.WithoutContext resumed => resumed
  | _ => true
  end.

Definition is_Exit (msg : asset.Msg) : bool :=
  match msg with
  | asset.Exit => true
  | _ => false
  end.

End asset_notions.

(** ** Further samples *)

(** [sample_props] with a title that has no token. *)
Definition plain_props : Props :=
  {| Title := "Game"; Size := Size sample_props; Pos := Pos sample_props;
     CursorPos := CursorPos sample_props; ShouldClose := ShouldClose sample_props;
     Visible := Visible sample_props; Minimized := Minimized sample_props;
     Focused := Focused sample_props; Resizable := Resizable sample_props;
     Decorated := Decorated sample_props; AlwaysOnTop := AlwaysOnTop sample_props;
     VSync := VSync sample_props; CursorGrabbed := CursorGrabbed sample_props;
     Fullscreen := Fullscreen sample_props; FramebufferSize := FramebufferSize sample_props;
     GetPrecision := GetPrecision sample_props |}.

(** A native side that answers every step of the setup with success. *)
Definition native_ok : Native :=
  {| Init_ok := true; CreateAssets_ok := true;
     PrimaryMonitor := Some {| GetVideoMode := Some (1920, 1080) |};
     CreateWindow_ok := true;
     NewRenderer := Some {| FrameRate := 42%float; Bounds := (800, 600) |};
     ExtensionSupported := fun _ => false |}.

(** [sample_props] with a cursor position whose first coordinate is not
    a number. *)
Definition nan_props : Props := SetCursorPos nan 5%float sample_props.
(** * Supporting lemmas *)

Arguments int_wrap : simpl never.
Arguments Replace : simpl never.
Arguments Sprintf_d_FPS : simpl never.
Arguments int_of_Ceil : simpl never.

Ltac mrun :=
  unfold mbind, M_bind, mret, M_ret, gets, modify, native, record_access, panic;
  cbn beta iota.

(** ** Slices and [findNotifier] *)

Lemma copy_into_length {A} off (src arr : list A) :
  (off + length src <= length arr)%nat ->
  length (copy_into off src arr) = length arr.
Proof.
  intros H. unfold copy_into.
  rewrite !length_app, length_take, length_drop. lia.
Qed.

Lemma copy_into_lookup_ge {A} off (src arr : list A) k :
  (off + length src <= length arr)%nat ->
  (off + length src <= k)%nat ->
  copy_into off src arr !! k = arr !! k.
Proof.
  intros Hlen Hk. unfold copy_into.
  rewrite lookup_app_r by (rewrite length_take; lia).
  rewrite length_take, Nat.min_l by lia.
  rewrite lookup_app_r by lia.
  rewrite lookup_drop. f_equal. lia.
Qed.

Lemma elems_length s : slice_ok s -> length (elems s) = len s.
Proof. unfold slice_ok, elems. intros H. rewrite length_take. lia. Qed.

Lemma elems_append s x :
  slice_ok s -> elems (append s x) = elems s ++ [x] /\ slice_ok (append s x).
Proof.
  unfold slice_ok, append, elems. intros Hok.
  destruct (Nat.ltb_spec (len s) (length (array s))) as [Hlt | Hge]; cbn [len array].
  - split.
    + unfold copy_into.
      rewrite take_app_ge by (rewrite length_take; lia).
      rewrite length_take, Nat.min_l by lia.
      replace (S (len s) - len s)%nat with 1%nat by lia. reflexivity.
    + rewrite copy_into_length; cbn [length]; lia.
  - assert (len s = length (array s)) as Heq by lia.
    split.
    + rewrite Heq, firstn_all.
      rewrite (app_assoc (array s) [x]).
      rewrite take_app_length'; [reflexivity |].
      rewrite length_app. simpl. lia.
    + rewrite !length_app, length_take, length_replicate. cbn [length]. lia.
Qed.

Lemma find_from_range l c i :
  find_from l c i = -1 \/ i <= find_from l c i < i + Z.of_nat (length l).
Proof.
  revert i. induction l as [| ev l IH]; intros i; simpl; [by left |].
  destruct (ch ev =? c)%nat; [right; lia |].
  destruct (IH (i + 1)) as [-> | H]; [by left | right; lia].
Qed.

Lemma find_from_found l c i nf :
  0 <= i -> nf ∈ l -> ch nf = c -> find_from l c i <> -1.
Proof.
  revert i. induction l as [| ev l IH]; intros i Hi Hin Hc; [by apply elem_of_nil in Hin |].
  simpl. destruct (Nat.eqb_spec (ch ev) c) as [_ | Hne]; [lia |].
  apply elem_of_cons in Hin as [-> | Hin]; [done |].
  apply (IH (i + 1)); [lia | done | done].
Qed.

Lemma find_from_none l c i :
  Forall (fun nf => ch nf <> c) l -> find_from l c i = -1.
Proof.
  intros H. revert i. induction H as [| ev l Hev _ IH]; intros i; simpl; [done |].
  destruct (Nat.eqb_spec (ch ev) c); [done | apply IH].
Qed.

Lemma remove_at_length idx slen arr :
  (idx < slen <= length arr)%nat -> length (remove_at idx slen arr) = length arr.
Proof.
  intros H. unfold remove_at. apply copy_into_length.
  rewrite length_take, length_drop. lia.
Qed.

Lemma remove_at_lookup_ge idx slen arr k :
  (idx < slen <= length arr)%nat -> (slen - 1 <= k)%nat ->
  remove_at idx slen arr !! k = arr !! k.
Proof.
  intros H Hk. unfold remove_at. apply copy_into_lookup_ge;
    rewrite length_take, length_drop; lia.
Qed.

(** ** [deleteNotifiers] when the last notifier of the window is for the
    channel: the loop never sees [-1] and runs off the local slice. *)

Lemma last_is_for_found c s :
  slice_ok s -> last_is_for c s ->
  0 <= find_from (elems s) c 0 < Z.of_nat (len s).
Proof.
  intros Hok (nf & Hnf & Hc & Hpos).
  assert (nf ∈ elems s) as Hin.
  { apply list_elem_of_lookup. exists (len s - 1)%nat.
    unfold elems. rewrite lookup_take_lt by lia. done. }
  pose proof (find_from_found _ c 0 nf ltac:(lia) Hin Hc) as Hne.
  destruct (find_from_range (elems s) c 0) as [? | Hr]; [done |].
  rewrite (elems_length s Hok) in Hr. lia.
Qed.

Lemma delete_loop_panics c slen : forall m,
  slice_ok (notifiers (win m)) ->
  last_is_for c (notifiers (win m)) ->
  (slen <= len (notifiers (win m)))%nat ->
  exists m', delete_loop c slen (find_from (elems (notifiers (win m))) c 0) m
             = Panic "runtime error: slice bounds out of range" m'
             /\ mu (win m') = mu (win m).
Proof.
  induction slen as [| slen IH]; intros m Hok Hlast Hle;
    pose proof (last_is_for_found c _ Hok Hlast) as Hidx;
    set (idx := find_from (elems (notifiers (win m))) c 0) in *.
  - simpl. destruct (Z.eqb_spec idx (-1)) as [? | _]; [lia |].
    eexists. split; reflexivity.
  - cbn [delete_loop]. destruct (Z.eqb_spec idx (-1)) as [? | _]; [lia |].
    unfold mbind, M_bind, gets. cbn beta iota.
    destruct ((idx <=? Z.of_nat (length (array (notifiers (win m)))))
              && (idx + 1 <=? Z.of_nat (S slen))) eqn:Hb;
      [| eexists; split; reflexivity].
    apply andb_true_iff in Hb as [_ Hb%Z.leb_le].
    unfold modify, findNotifier, gets. cbn beta iota.
    set (m1 := with_win _ m).
    assert (notifiers (win m1)
            = {| array := remove_at (Z.to_nat idx) (S slen) (array (notifiers (win m)));
                 len := len (notifiers (win m)) |}) as Hn by reflexivity.
    unfold slice_ok in Hok.
    assert (slice_ok (notifiers (win m1))) as Hok1.
    { rewrite Hn. unfold slice_ok. cbn [array len].
      rewrite remove_at_length; lia. }
    assert (last_is_for c (notifiers (win m1))) as Hlast1.
    { destruct Hlast as (nf & Hnf & Hc & Hpos). exists nf.
      rewrite Hn. cbn [array len]. split; [| done].
      rewrite remove_at_lookup_ge; [done | lia | lia]. }
    destruct (IH m1 Hok1 Hlast1) as (m' & Hrun & Hmu).
    { rewrite Hn. cbn [len]. lia. }
    exists m'. split; [exact Hrun |]. rewrite Hmu. reflexivity.
Qed.

(** ** Sequencing *)

Lemma bind_run {A B} (c : M A) (k : A -> M B) m a m1 r :
  c m = Done a m1 -> k a m1 = r -> (c ≫= k) m = r.
Proof. intros Hc Hk. unfold mbind, M_bind. by rewrite Hc. Qed.

(** ** Publishing *)

Lemma delivered_0 ev q : delivered 0 ev q = q.
Proof. destruct q. unfold delivered. simpl. by rewrite app_nil_r. Qed.

Lemma delivered_full n ev q : (cap q <= length (buf q))%nat -> delivered n ev q = q.
Proof.
  intros H. destruct q as [k b]. unfold delivered. simpl in *.
  replace (k - length b)%nat with 0%nat by lia.
  rewrite Nat.min_0_r. simpl. by rewrite app_nil_r.
Qed.

Lemma delivered_S n ev q :
  (length (buf q) < cap q)%nat ->
  delivered n ev {| cap := cap q; buf := buf q ++ [ev] |} = delivered (S n) ev q.
Proof.
  intros H. unfold delivered. cbn [cap buf]. f_equal.
  rewrite length_app. cbn [length].
  replace (cap q - length (buf q))%nat with (S (cap q - (length (buf q) + 1))) by lia.
  rewrite <- Nat.succ_min_distr. cbn [replicate].
  rewrite <- app_assoc. reflexivity.
Qed.

Lemma send_each_spec l ev msk : forall m,
  exists m', send_each l ev msk m = Done tt m'
    /\ win m' = win m /\ calls m' = calls m /\ audit m' = audit m
    /\ (forall c, c <> nil_chan ->
          chans m' !! c = delivered (deliveries c msk l) ev <$> chans m !! c)
    /\ chans m' !! nil_chan = chans m !! nil_chan.
Proof.
  induction l as [| nf rest IH]; intros m.
  - exists m. cbn [send_each deliveries]. split_and!; try reflexivity.
    intros c _. destruct (chans m !! c) as [q |]; [| done].
    simpl. by rewrite delivered_0.
  - cbn [send_each deliveries]. mrun. cbn zeta.
    destruct (negb (Z.land (mask nf) msk =? 0)) eqn:Hmatch.
    2:{ destruct (IH m) as (m' & Hrun & Hw & Hc & Ha & Hch & Hch0).
        exists m'. split_and!; try done.
        intros c Hc0. rewrite andb_false_r. by apply Hch. }
    unfold try_send.
    destruct (Nat.eqb_spec (ch nf) nil_chan) as [Hnil | Hnn].
    { destruct (IH m) as (m' & Hrun & Hw & Hc & Ha & Hch & Hch0).
      exists m'. split_and!; try done.
      intros c Hc0. rewrite andb_true_r, Hch by done.
      destruct (Nat.eqb_spec (ch nf) c); [congruence | done]. }
    destruct (chans m !! ch nf) as [q |] eqn:Hq.
    2:{ destruct (IH m) as (m' & Hrun & Hw & Hc & Ha & Hch & Hch0).
        exists m'. split_and!; try done.
        intros c Hc0. rewrite andb_true_r, Hch by done.
        destruct (Nat.eqb_spec (ch nf) c) as [<- | _]; [| done].
        by rewrite Hq. }
    destruct (Nat.ltb_spec (length (buf q)) (cap q)) as [Hroom | Hfull].
    + destruct (IH (with_chans <[ch nf := {| cap := cap q; buf := buf q ++ [ev] |}]> m))
        as (m' & Hrun & Hw & Hc & Ha & Hch & Hch0).
      exists m'. split_and!; try done.
      * intros c Hc0. rewrite andb_true_r, Hch by done. cbn [with_chans chans].
        destruct (Nat.eqb_spec (ch nf) c) as [<- | Hne].
        -- rewrite lookup_insert_eq, Hq. cbn [fmap option_fmap option_map].
           f_equal. by apply delivered_S.
        -- by rewrite lookup_insert_ne.
      * rewrite Hch0. cbn [with_chans chans]. by rewrite lookup_insert_ne.
    + destruct (IH m) as (m' & Hrun & Hw & Hc & Ha & Hch & Hch0).
      exists m'. split_and!; try done.
      intros c Hc0. rewrite andb_true_r, Hch by done.
      destruct (Nat.eqb_spec (ch nf) c) as [<- | _]; [| done].
      rewrite Hq. cbn [fmap option_fmap option_map].
      by rewrite !delivered_full.
Qed.

(** [sendEvent] from a goroutine that does not hold the write lock: it
    returns, the window is as before, and every channel got the event
    once per matching notifier, as far as it had room. *)
Lemma sendEvent_spec ev msk m :
  writer (mu (win m)) = false ->
  exists m', sendEvent ev msk m = Done tt m'
    /\ win m' = win m /\ calls m' = calls m /\ audit m' = audit m
    /\ (forall c, c <> nil_chan ->
          chans m' !! c
          = delivered (deliveries c msk (elems (notifiers (win m)))) ev <$> chans m !! c)
    /\ chans m' !! nil_chan = chans m !! nil_chan.
Proof.
  intros Hw. unfold sendEvent, RLock, RUnlock. mrun. rewrite Hw.
  set (m1 := with_win _ m).
  destruct (send_each_spec (elems (notifiers (win m1))) ev msk m1)
    as (m2 & Hrun & Hwin & Hc & Ha & Hch & Hch0).
  rewrite Hrun. rewrite Hwin. cbn [m1 with_win win set_mu mu readers writer].
  eexists. split; [reflexivity |].
  cbn [with_win win chans calls audit]. rewrite Hwin, Hc, Ha.
  split_and!; try done.
  destruct m as [w ? ? ?], w as [l ? ? ? ? ? ? ? ? ? ?], l as [wr rd].
  cbn in *. subst wr. reflexivity.
Qed.

Lemma deliveries_app c msk l1 l2 :
  deliveries c msk (l1 ++ l2) = (deliveries c msk l1 + deliveries c msk l2)%nat.
Proof. induction l1 as [| nf l1 IH]; cbn [deliveries app]; [done | cbn zeta; lia]. Qed.

Lemma deliveries_none c msk l :
  Forall (fun nf => ch nf <> c) l -> deliveries c msk l = 0%nat.
Proof.
  induction 1 as [| nf l Hnf _ IH]; cbn [deliveries]; [done |]. cbn zeta.
  destruct (Nat.eqb_spec (ch nf) c); [done |]. simpl. exact IH.
Qed.

(** ** Subscribing and unsubscribing *)

Lemma holding_NoLock l : holding l = NoLock -> writer l = false /\ readers l = 0%nat.
Proof. destruct l as [[] []]; cbn; intros; try discriminate; done. Qed.

Lemma last_is_for_append s x : slice_ok s -> last_is_for (ch x) (append s x).
Proof.
  intros Hok. destruct (elems_append s x Hok) as [Hel Hok'].
  exists x. split_and!; [| done | unfold append; destruct (_ <? _)%nat; cbn [len]; lia].
  assert (len (append s x) = S (len s)) as Hlen
    by (unfold append; destruct (_ <? _)%nat; reflexivity).
  rewrite Hlen. replace (S (len s) - 1)%nat with (len s) by lia.
  rewrite <- (lookup_take_lt (array (append s x)) (S (len s)) (len s)) by lia.
  fold (elems (append s x)) in Hel. unfold elems in Hel. rewrite Hlen in Hel.
  rewrite Hel. fold (elems s).
  rewrite lookup_app_r by (rewrite (elems_length s Hok); lia).
  rewrite (elems_length s Hok), Nat.sub_diag. reflexivity.
Qed.

Lemma Notify_subscribe c msk m :
  holding (mu (win m)) = NoLock -> msk <> NoEvents ->
  exists m', Notify c msk m = Done tt m'
    /\ notifiers (win m') = append (notifiers (win m)) {| mask := msk; ch := c |}
    /\ holding (mu (win m')) = NoLock
    /\ chans m' = chans m /\ calls m' = calls m /\ audit m' = audit m.
Proof.
  intros Hfree Hmsk. unfold Notify, Lock, Unlock. mrun. rewrite Hfree.
  destruct (Z.eqb_spec msk NoEvents) as [? | _]; [done |].
  cbn. eexists. split_and!; reflexivity.
Qed.

(** Unsubscribing a channel whose notifier is the last of the window
    panics, with the write lock still held. *)
Lemma Notify_NoEvents_panics c m :
  holding (mu (win m)) = NoLock ->
  slice_ok (notifiers (win m)) ->
  last_is_for c (notifiers (win m)) ->
  exists m', Notify c NoEvents m = Panic "runtime error: slice bounds out of range" m'
    /\ holding (mu (win m')) = WriteLock.
Proof.
  intros Hfree Hok Hlast. unfold Notify, Lock, deleteNotifiers, findNotifier. mrun.
  rewrite Hfree. cbn [Z.eqb NoEvents].
  set (m1 := with_win _ m).
  destruct (delete_loop_panics c (len (notifiers (win m1))) m1) as (m' & Hrun & Hmu);
    [exact Hok | exact Hlast | reflexivity |].
  rewrite Hrun. exists m'. split; [reflexivity |]. rewrite Hmu. reflexivity.
Qed.

(** ** [deleteNotifiers] when the last notifier of the window is for
    another channel: the cells the local slice gives up all hold that
    last notifier, so the search in [w.notifiers] finds what a search in
    the local slice would find, and the loop removes the notifiers of the
    channel one by one. *)

Lemma find_from_app l1 l2 c i :
  0 <= i ->
  find_from (l1 ++ l2) c i
  = if find_from l1 c i =? -1 then find_from l2 c (i + Z.of_nat (length l1))
    else find_from l1 c i.
Proof.
  revert i. induction l1 as [| ev l1 IH]; intros i Hi; cbn [find_from app length].
  - rewrite Z.add_0_r. reflexivity.
  - destruct (Nat.eqb_spec (ch ev) c) as [_ | _].
    + destruct (Z.eqb_spec i (-1)); [lia | reflexivity].
    + rewrite IH by lia.
      replace (i + 1 + Z.of_nat (length l1)) with (i + Z.of_nat (S (length l1))) by lia.
      reflexivity.
Qed.

Lemma find_from_split l c i :
  0 <= i -> find_from l c i <> -1 ->
  exists A x B, l = A ++ x :: B /\ ch x = c
                /\ find_from l c i = i + Z.of_nat (length A).
Proof.
  revert i. induction l as [| ev l IH]; intros i Hi Hf; cbn [find_from] in *; [done |].
  destruct (Nat.eqb_spec (ch ev) c) as [Hc | Hc].
  - exists [], ev, l. cbn. split_and!; [done | done | lia].
  - destruct (IH (i + 1) ltac:(lia) Hf) as (A & x & B & -> & Hx & Hidx).
    exists (ev :: A), x, B. cbn [app length]. split_and!; [done | done | lia].
Qed.

Lemma find_from_none_inv l c i :
  0 <= i -> find_from l c i = -1 -> Forall (fun nf => ch nf <> c) l.
Proof.
  revert i. induction l as [| ev l IH]; intros i Hi Hf; cbn [find_from] in *; [constructor |].
  destruct (Nat.eqb_spec (ch ev) c) as [Hc | Hc]; [lia |].
  constructor; [done | by apply (IH (i + 1)); lia].
Qed.

Lemma others_app c l1 l2 : others c (l1 ++ l2) = others c l1 ++ others c l2.
Proof. apply List.filter_app. Qed.

Lemma others_all c l : Forall (fun nf => ch nf <> c) l -> others c l = l.
Proof.
  induction 1 as [| nf l Hnf _ IH]; [done |]. unfold others in *. cbn [List.filter].
  destruct (Nat.eqb_spec (ch nf) c); [done |]. cbn. by rewrite IH.
Qed.

Lemma others_length c l : (length (others c l) <= length l)%nat.
Proof. apply List.filter_length_le. Qed.

Lemma remove_at_shape (A B R : list notifier) x t :
  remove_at (length A) (S (length (A ++ x :: B))) (A ++ x :: B ++ [t] ++ R)
  = (A ++ B) ++ [t] ++ [t] ++ R.
Proof.
  unfold remove_at, copy_into.
  rewrite take_app_length.
  assert (drop (S (length A)) (A ++ x :: B ++ [t] ++ R) = (B ++ [t]) ++ R) as ->.
  { rewrite (cons_middle x A), app_assoc.
    rewrite drop_app_length' by (rewrite length_app; cbn; lia).
    by rewrite <- app_assoc. }
  assert (S (length (A ++ x :: B)) - S (length A) = length (B ++ [t]))%nat as ->
    by (rewrite !length_app; cbn; lia).
  rewrite take_app_length.
  assert (drop (length A + length (B ++ [t])) (A ++ x :: B ++ [t] ++ R) = [t] ++ R) as ->.
  { replace (A ++ x :: B ++ [t] ++ R) with ((A ++ x :: B) ++ [t] ++ R)
      by (rewrite <- app_assoc; reflexivity).
    rewrite drop_app_length'; [reflexivity |].
    rewrite !length_app. cbn. lia. }
  rewrite <- !app_assoc. reflexivity.
Qed.

Lemma delete_loop_removes c t (Hne : ch t <> c) : forall n L k R m,
  length L = n ->
  array (notifiers (win m)) = L ++ [t] ++ replicate k t ++ R ->
  len (notifiers (win m)) = (length L + 1 + k)%nat ->
  exists m',
    delete_loop c (S (length L)) (find_from (elems (notifiers (win m))) c 0) m
    = Done (S (length (others c L))) m'
    /\ win m'
       = set_notifiers
           {| array := others c L ++ [t]
                       ++ replicate (k + (length L - length (others c L))) t ++ R;
              len := len (notifiers (win m)) |} (win m)
    /\ chans m' = chans m /\ calls m' = calls m /\ audit m' = audit m.
Proof.
  induction n as [n IH] using lt_wf_ind. intros L k R m Hn Harr Hlen.
  assert (Forall (fun nf => ch nf <> c) ([t] ++ replicate k t)) as Htail.
  { apply Forall_app. split; [by constructor |]. by apply Forall_replicate. }
  assert (elems (notifiers (win m)) = L ++ [t] ++ replicate k t) as Hel.
  { unfold elems. rewrite Harr, Hlen.
    rewrite (app_assoc L), (app_assoc (L ++ [t])).
    rewrite take_app_length'; [by rewrite <- app_assoc |].
    rewrite !length_app, length_replicate. cbn. lia. }
  rewrite Hel, find_from_app by lia.
  rewrite (find_from_none _ c _ Htail).
  destruct (Z.eqb_spec (find_from L c 0) (-1)) as [Hnone | Hsome].
  - (* no notifier for c is left *)
    apply find_from_none_inv in Hnone as Hall; [| lia].
    rewrite (others_all c L Hall), Nat.sub_diag, Nat.add_0_r.
    exists m. cbn [delete_loop]. split_and!; try reflexivity.
    rewrite <- Harr. destruct m as [w ? ? ?], w as [? ? ? ? ? ? ? ? ? [? ?] ?]. reflexivity.
  - (* the first one is removed, and the loop goes on *)
    destruct (find_from_split L c 0 ltac:(lia) Hsome) as (A & x & B & -> & Hx & Hidx).
    rewrite Hidx, Z.add_0_l.
    cbn [delete_loop].
    destruct (Z.eqb_spec (Z.of_nat (length A)) (-1)) as [? | _]; [lia |].
    unfold mbind at 1, M_bind at 1, gets at 1. cbn beta iota.
    rewrite Harr.
    assert ((Z.of_nat (length A)
             <=? Z.of_nat (length ((A ++ x :: B) ++ [t] ++ replicate k t ++ R)))
            && (Z.of_nat (length A) + 1 <=? Z.of_nat (S (length (A ++ x :: B)))) = true) as ->.
    { rewrite !length_app. cbn [length]. apply andb_true_iff. split; apply Z.leb_le; lia. }
    unfold mbind at 1, M_bind at 1, modify at 1. cbn beta iota.
    unfold mbind at 1, M_bind at 1, findNotifier at 1, gets at 1. cbn beta iota.
    set (m1 := with_win _ m).
    assert (array (notifiers (win m1)) = (A ++ B) ++ [t] ++ replicate (S k) t ++ R) as Harr1.
    { subst m1. cbn [with_win win set_notifiers notifiers array]. rewrite Harr, Nat2Z.id.
      replace ((A ++ x :: B) ++ [t] ++ replicate k t ++ R)
        with (A ++ x :: B ++ [t] ++ replicate k t ++ R)
        by (rewrite <- !app_assoc; reflexivity).
      rewrite remove_at_shape. reflexivity. }
    assert (len (notifiers (win m1)) = (length (A ++ B) + 1 + S k)%nat) as Hlen1.
    { subst m1. cbn [with_win win set_notifiers notifiers len]. rewrite Hlen.
      rewrite !length_app. cbn [length]. lia. }
    assert (length (A ++ B) < n)%nat as Hlt
      by (subst n; rewrite !length_app; cbn [length]; lia).
    destruct (IH (length (A ++ B)) Hlt (A ++ B) (S k) R m1 eq_refl Harr1 Hlen1)
      as (m' & Hrun & Hw & Hc & Hk & Ha).
    assert (length (A ++ x :: B) = S (length (A ++ B))) as HlenL
      by (rewrite !length_app; cbn [length]; lia).
    assert (others c (A ++ x :: B) = others c (A ++ B)) as Hoth.
    { rewrite !others_app. f_equal. unfold others. cbn [List.filter].
      rewrite Hx, Nat.eqb_refl. reflexivity. }
    rewrite HlenL, Hoth.
    exists m'. split; [exact Hrun |]. split_and!; try done.
    rewrite Hw. subst m1. cbn [with_win win set_notifiers notifiers len].
    pose proof (others_length c (A ++ B)) as Hle.
    replace (S k + (length (A ++ B) - length (others c (A ++ B))))%nat
      with (k + (S (length (A ++ B)) - length (others c (A ++ B))))%nat by lia.
    by destruct (win m).
Qed.

Lemma split_last {A} (l : list A) n t :
  length l = n -> (0 < n)%nat -> l !! (n - 1)%nat = Some t -> exists L, l = L ++ [t].
Proof.
  intros Hlen Hpos Hl. induction l as [| a l _] using rev_ind; [cbn in Hlen; lia |].
  rewrite length_app in Hlen. cbn in Hlen.
  rewrite lookup_app_r in Hl by lia.
  replace (n - 1 - length l)%nat with 0%nat in Hl by lia.
  cbn in Hl. injection Hl as ->. by exists l.
Qed.

Lemma Notify_NoEvents_last_other c m :
  holding (mu (win m)) = NoLock ->
  slice_ok (notifiers (win m)) ->
  last_is_other c (notifiers (win m)) ->
  exists m', Notify c NoEvents m = Done tt m'
    /\ elems (notifiers (win m')) = others c (elems (notifiers (win m)))
    /\ holding (mu (win m')) = NoLock
    /\ chans m' = chans m /\ calls m' = calls m.
Proof.
  intros Hfree Hok (t & Ht & Hne & Hpos).
  pose proof (take_drop (len (notifiers (win m))) (array (notifiers (win m)))) as Hsplit.
  fold (elems (notifiers (win m))) in Hsplit.
  assert (exists L, elems (notifiers (win m)) = L ++ [t]) as (L & HL).
  { assert (elems (notifiers (win m)) !! (len (notifiers (win m)) - 1)%nat = Some t) as Hlast
      by (unfold elems; rewrite lookup_take_lt by lia; exact Ht).
    pose proof (elems_length _ Hok) as Hlen.
    by apply (split_last _ (len (notifiers (win m)))). }
  assert (len (notifiers (win m)) = (length L + 1 + 0)%nat) as Hlen.
  { rewrite <- (elems_length _ Hok), HL, length_app. cbn. lia. }
  unfold Notify, Lock, deleteNotifiers, findNotifier.
  unfold mbind at 1, M_bind at 1. rewrite Hfree. cbn [Z.eqb NoEvents].
  set (m0 := with_win _ m).
  unfold mbind at 1, M_bind at 1. unfold mbind at 1, M_bind at 1, gets at 1.
  cbn beta iota.
  unfold mbind at 1, M_bind at 1, gets at 1. cbn beta iota.
  assert (array (notifiers (win m0))
          = L ++ [t] ++ replicate 0 t ++ drop (len (notifiers (win m))) (array (notifiers (win m))))
    as Harr0.
  { subst m0. cbn [with_win win set_mu notifiers replicate app].
    rewrite <- Hsplit at 1. rewrite HL, <- app_assoc. reflexivity. }
  destruct (delete_loop_removes c t Hne (length L) L 0 _ m0 eq_refl Harr0 Hlen)
    as (m1 & Hrun & Hw1 & Hc1 & Hk1 & _).
  assert (len (notifiers (win m0)) = S (length L)) as Hl0
    by (change (len (notifiers (win m0))) with (len (notifiers (win m))); lia).
  rewrite Hl0.
  unfold mbind at 1, M_bind at 1. rewrite Hrun.
  unfold modify, Unlock. mrun.
  cbn [with_win win]. rewrite Hw1.
  cbn [with_win win set_notifiers set_mu mu writer m0 notifiers array len readers].
  eexists. split; [reflexivity |].
  cbn [with_win win chans calls set_mu set_notifiers notifiers mu holding writer readers].
  split_and!; [| reflexivity | exact Hc1 | exact Hk1].
  unfold elems. rewrite Hw1. cbn [array len set_notifiers notifiers]. fold (elems (notifiers (win m))).
  - rewrite HL, others_app.
    assert (others c [t] = [t]) as -> by (apply others_all; by repeat constructor).
    rewrite (app_assoc (others c L) [t]).
    rewrite take_app_length'; [reflexivity |].
    rewrite length_app. cbn. lia.
Qed.

(** X1. Unsubscribing a channel while the last notifier of the window
    is for another channel removes all notifiers of the channel and keeps
    the others, in order. *)
Lemma Notify_NoEvents_removes c m :
  holding (mu (win m)) = NoLock ->
  slice_ok (notifiers (win m)) ->
  last_is_other c (notifiers (win m)) ->
  exists m', Notify c NoEvents m = Done tt m'
    /\ elems (notifiers (win m')) = others c (elems (notifiers (win m)))
    /\ holding (mu (win m')) = NoLock
    /\ chans m' = chans m /\ calls m' = calls m.
Proof. apply Notify_NoEvents_last_other. Qed.

Lemma Notify_NoEvents_removes_witness :
  exists m', Notify 1%nat NoEvents shared_machine = Done tt m'
             /\ elems (notifiers (win m')) = [{| mask := CloseEvents; ch := 2%nat |}].
Proof.
  destruct (Notify_NoEvents_removes 1%nat shared_machine) as (m' & Hrun & Hel & _).
  - reflexivity.
  - unfold slice_ok. simpl. lia.
  - exists {| mask := CloseEvents; ch := 2%nat |}. split_and!; [reflexivity | discriminate | simpl; lia].
  - exists m'. split; [exact Hrun | exact Hel].
Defined.

(** Unsubscribing a channel that has no notifier changes nothing. *)
Lemma Notify_NoEvents_absent c m :
  holding (mu (win m)) = NoLock ->
  Forall (fun nf => ch nf <> c) (elems (notifiers (win m))) ->
  exists m', Notify c NoEvents m = Done tt m'
    /\ notifiers (win m') = notifiers (win m)
    /\ holding (mu (win m')) = NoLock
    /\ chans m' = chans m /\ calls m' = calls m.
Proof.
  intros Hfree Hall. apply holding_NoLock in Hfree as Hwr. destruct Hwr as [Hw Hr].
  unfold Notify, Lock, deleteNotifiers, findNotifier, Unlock. mrun.
  rewrite Hfree. cbn [Z.eqb NoEvents with_win win set_mu notifiers].
  rewrite (find_from_none _ c 0 Hall).
  destruct (len (notifiers (win m))) eqn:E; cbn; eexists; split_and!; try reflexivity;
    cbn; rewrite <- E; by destruct (notifiers (win m)).
Qed.

(** C2, first half in general form: an event goes to a channel once per
    matching subscription, as far as the channel has room. *)
Lemma publish_after_two_subscriptions m c A B evt ev q :
  holding (mu (win m)) = NoLock ->
  slice_ok (notifiers (win m)) ->
  Forall (fun nf => ch nf <> c) (elems (notifiers (win m))) ->
  c <> nil_chan -> chans m !! c = Some q ->
  Z.land A evt <> 0 -> Z.land B evt <> 0 ->
  exists m1 m2 m3,
    Notify c A m = Done tt m1
    /\ Notify c B m1 = Done tt m2
    /\ holding (mu (win m2)) = NoLock
    /\ slice_ok (notifiers (win m2))
    /\ last_is_for c (notifiers (win m2))
    /\ sendEvent ev evt m2 = Done tt m3
    /\ win m3 = win m2
    /\ chans m3 !! c = Some (delivered 2 ev q).
Proof.
  intros Hfree Hok Hnew Hc Hq HA HB.
  assert (A <> NoEvents) as HA0 by (intros ->; by rewrite Z.land_0_l in HA).
  assert (B <> NoEvents) as HB0 by (intros ->; by rewrite Z.land_0_l in HB).
  destruct (Notify_subscribe c A m Hfree HA0) as (m1 & Hr1 & Hn1 & Hf1 & Hc1 & _).
  destruct (Notify_subscribe c B m1 Hf1 HB0) as (m2 & Hr2 & Hn2 & Hf2 & Hc2 & _).
  destruct (elems_append (notifiers (win m)) {| mask := A; ch := c |} Hok) as [He1 Hok1].
  rewrite <- Hn1 in He1, Hok1.
  destruct (elems_append (notifiers (win m1)) {| mask := B; ch := c |} Hok1) as [He2 Hok2].
  rewrite <- Hn2 in He2, Hok2.
  apply holding_NoLock in Hf2 as Hw2. destruct Hw2 as [Hw2 _].
  destruct (sendEvent_spec ev evt m2 Hw2) as (m3 & Hr3 & Hwin3 & _ & _ & Hch3 & _).
  exists m1, m2, m3. split_and!; try done.
  - rewrite Hn2. apply (last_is_for_append _ {| mask := B; ch := c |} Hok1).
  - rewrite Hch3 by done. rewrite Hc2, Hc1, Hq. cbn [fmap option_fmap option_map].
    f_equal. f_equal. rewrite He2, He1, <- app_assoc, deliveries_app.
    rewrite (deliveries_none _ _ _ Hnew). cbn [app deliveries ch mask]. cbn zeta.
    rewrite Nat.eqb_refl.
    destruct (Z.eqb_spec (Z.land A evt) 0); [done |].
    destruct (Z.eqb_spec (Z.land B evt) 0); [done |]. reflexivity.
Qed.

(** ** The blocks of [useProps] *)

Lemma set_last_id w :
  set_last (last w) (set_lastCursor (lastCursorX w) (lastCursorY w) w) = w.
Proof. by destruct w. Qed.

Lemma eff_trans P m m1 m2 L1 L2 x1 y1 x2 y2 C1 C2 :
  eff P m m1 L1 x1 y1 C1 -> eff P m1 m2 L2 x2 y2 C2 ->
  eff P m m2 L2 x2 y2 (C1 ++ C2).
Proof.
  intros (Hw1 & Hc1 & Hk1 & A1 & Ha1 & HA1) (Hw2 & Hc2 & Hk2 & A2 & Ha2 & HA2).
  unfold eff. split_and!.
  - rewrite Hw2, Hw1. by destruct (win m).
  - congruence.
  - rewrite Hk2, Hk1. by rewrite app_assoc.
  - exists (A1 ++ A2). split; [| by apply Forall_app].
    rewrite Ha2, Ha1. by rewrite app_assoc.
Qed.

Lemma eff_locked P m m' L x y C : eff P m m' L x y C -> locked m -> locked m'.
Proof. intros (Hw & _) Hl. unfold locked in *. rewrite Hw. exact Hl. Qed.

Ltac open_machine m Hl :=
  let w := fresh "w" in
  destruct m as [w ? ? ?]; destruct w as [? ? ? ? ? ? ? ? ? ? ?];
  unfold locked in Hl; cbn in Hl; subst.

Ltac close_eff :=
  eexists; split; [reflexivity |];
  unfold eff; cbn;
  split_and!;
  first [ reflexivity
        | rewrite ?app_nil_r, <- ?app_assoc; reflexivity
        | eexists; split; [rewrite <- ?app_assoc; reflexivity | repeat constructor] ].

Lemma updateTitle_run m :
  locked m ->
  exists m', updateTitle m = Done tt m'
    /\ eff write_locked m m' (last (win m)) (lastCursorX (win m)) (lastCursorY (win m))
           [glfw.SetTitle (applied_title (props (win m)) (renderer (win m)))].
Proof.
  intros Hl. open_machine m Hl.
  unfold updateTitle, load_props, applied_title. mrun. cbn. close_eff.
Qed.

Ltac split_ifs :=
  repeat match goal with
         | |- context [if ?b then _ else _] => destruct b eqn:?; cbn
         | |- context [match GetVideoMode ?mon with _ => _ end] =>
             destruct (GetVideoMode mon) eqn:?; cbn
         end.

Ltac run_block m :=
  let Hl := fresh "Hl" in
  intros Hl; open_machine m Hl;
  unfold useProps_Size, useProps_Pos, useProps_CursorPos, useProps_Visible,
    useProps_Minimized, useProps_VSync, useProps_CursorGrabbed,
    load_props, load_last, store_last, withoutLock, Lock, Unlock,
    apply_Size, apply_Pos, apply_CursorPos, apply_Visible, apply_Minimized,
    apply_VSync, apply_CursorGrabbed,
    Size_calls, Pos_calls, CursorPos_calls, Visible_calls, Minimized_calls,
    VSync_calls, CursorGrabbed_calls, resolved_Pos, swap_interval,
    reconcile_baseline;
  unfold Size_applies, Pos_applies, CursorPos_applies, Visible_applies,
    Minimized_applies, VSync_applies, CursorGrabbed_applies;
  mrun; cbn;
  split_ifs; cbn in *; try discriminate; close_eff.

Lemma useProps_Size_run force m :
  locked m ->
  let p := props (win m) in
  let l := last (win m) in
  exists m', useProps_Size force m = Done (fst (Size p), snd (Size p)) m'
    /\ eff write_locked m m' (apply_Size force p l)
           (lastCursorX (win m)) (lastCursorY (win m)) (Size_calls force p l).
Proof. run_block m. Qed.

Lemma useProps_Pos_run force width height m :
  locked m ->
  let p := props (win m) in
  let l := last (win m) in
  exists m', useProps_Pos force width height m = Done tt m'
    /\ eff write_locked m m' (apply_Pos force p l)
           (lastCursorX (win m)) (lastCursorY (win m))
           (Pos_calls force (monitor (win m)) width height p l).
Proof. run_block m. Qed.

Lemma useProps_CursorPos_run force m :
  locked m ->
  let p := props (win m) in
  let l := last (win m) in
  exists m', useProps_CursorPos force m = Done tt m'
    /\ eff write_locked m m' (apply_CursorPos force p l)
           (lastCursorX (win m)) (lastCursorY (win m)) (CursorPos_calls force p l).
Proof. run_block m. Qed.

Lemma useProps_Visible_run force m :
  locked m ->
  let p := props (win m) in
  let l := last (win m) in
  exists m', useProps_Visible force m = Done tt m'
    /\ eff write_locked m m' (apply_Visible force p l)
           (lastCursorX (win m)) (lastCursorY (win m)) (Visible_calls force p l).
Proof. run_block m. Qed.

Lemma useProps_Minimized_run force m :
  locked m ->
  let p := props (win m) in
  let l := last (win m) in
  exists m', useProps_Minimized force m = Done tt m'
    /\ eff write_locked m m' (apply_Minimized force p l)
           (lastCursorX (win m)) (lastCursorY (win m)) (Minimized_calls force p l).
Proof. run_block m. Qed.

Lemma useProps_VSync_run force m :
  locked m ->
  let p := props (win m) in
  let l := last (win m) in
  exists m', useProps_VSync force m = Done tt m'
    /\ eff write_locked m m' (apply_VSync force p l)
           (lastCursorX (win m)) (lastCursorY (win m))
           (VSync_calls force (extWGLEXTSwapControlTear (win m))
                        (extGLXEXTSwapControlTear (win m)) p l).
Proof. run_block m. Qed.

Lemma useProps_CursorGrabbed_run force m :
  locked m ->
  let p := props (win m) in
  let l := last (win m) in
  exists m', useProps_CursorGrabbed force m = Done tt m'
    /\ eff write_locked m m' (apply_CursorGrabbed force p l)
           (reconcile_baseline force p l (lastCursorX (win m)))
           (reconcile_baseline force p l (lastCursorY (win m)))
           (CursorGrabbed_calls force p l).
Proof. run_block m. Qed.

(** ** [useProps] as a whole *)

Lemma bind_ex {A B} (c : M A) (k : A -> M B) m a m1 (Q : B -> Machine -> Prop) :
  c m = Done a m1 ->
  (exists b m', k a m1 = Done b m' /\ Q b m') ->
  exists b m', (c ≫= k) m = Done b m' /\ Q b m'.
Proof.
  intros Hc (b & m' & Hk & HQ). exists b, m'. split; [| done].
  by apply (bind_run _ _ _ _ _ _ Hc).
Qed.

Lemma eff_facts P m m' L x y C :
  eff P m m' L x y C ->
  props (win m') = props (win m) /\ last (win m') = L
  /\ renderer (win m') = renderer (win m) /\ monitor (win m') = monitor (win m)
  /\ extWGLEXTSwapControlTear (win m') = extWGLEXTSwapControlTear (win m)
  /\ extGLXEXTSwapControlTear (win m') = extGLXEXTSwapControlTear (win m)
  /\ lastCursorX (win m') = x /\ lastCursorY (win m') = y.
Proof. intros (Hw & _). rewrite Hw. by destruct (win m). Qed.

(** A block's decision reads one field of [last], which the blocks before
    it leave alone. *)
Ltac peel :=
  unfold apply_Size, apply_Pos, apply_CursorPos, apply_Visible, apply_Minimized,
    apply_VSync, apply_CursorGrabbed;
  repeat match goal with
         | |- context [if ?b then _ else _] =>
             lazymatch b with
             | context [if _ then _ else _] => fail
             | _ => destruct b;
                    cbn [Size Pos CursorPos Visible Minimized VSync CursorGrabbed
                         SetSize SetPos SetCursorPos SetVisible SetMinimized SetVSync
                         SetCursorGrabbed]
             end
         end;
  reflexivity.

Lemma Pos_calls_after force mon width height p l :
  Pos_calls force mon width height p (apply_Size force p l)
  = Pos_calls force mon width height p l.
Proof. unfold Pos_calls, Pos_applies. peel. Qed.

Lemma CursorPos_calls_after force p l :
  CursorPos_calls force p (apply_Pos force p (apply_Size force p l))
  = CursorPos_calls force p l.
Proof. unfold CursorPos_calls, CursorPos_applies. peel. Qed.

Lemma Visible_calls_after force p l :
  Visible_calls force p (apply_CursorPos force p (apply_Pos force p (apply_Size force p l)))
  = Visible_calls force p l.
Proof. unfold Visible_calls, Visible_applies. peel. Qed.

Lemma Minimized_calls_after force p l :
  Minimized_calls force p
    (apply_Visible force p
       (apply_CursorPos force p (apply_Pos force p (apply_Size force p l))))
  = Minimized_calls force p l.
Proof. unfold Minimized_calls, Minimized_applies. peel. Qed.

Lemma VSync_calls_after force wgl glx p l :
  VSync_calls force wgl glx p
    (apply_Minimized force p
       (apply_Visible force p
          (apply_CursorPos force p (apply_Pos force p (apply_Size force p l)))))
  = VSync_calls force wgl glx p l.
Proof. unfold VSync_calls, VSync_applies. peel. Qed.

Lemma CursorGrabbed_applies_after force p l :
  CursorGrabbed_applies force p
    (apply_VSync force p
       (apply_Minimized force p
          (apply_Visible force p
             (apply_CursorPos force p (apply_Pos force p (apply_Size force p l))))))
  = CursorGrabbed_applies force p l.
Proof. unfold CursorGrabbed_applies. peel. Qed.

(** One more block: run it from the machine reached so far, and add its
    effect to the effect accumulated in [Etot]. *)
Ltac run_next lem Hl Etot m' H E :=
  lazymatch type of Etot with
  | eff _ _ ?mi _ _ _ _ =>
      let Hli := fresh "Hl" in
      pose proof (eff_locked _ _ _ _ _ _ _ Etot Hl) as Hli;
      destruct (lem mi Hli) as (m' & H & E); cbn zeta in E;
      let F1 := fresh in let F2 := fresh in let F3 := fresh in let F4 := fresh in
      let F5 := fresh in let F6 := fresh in let F7 := fresh in let F8 := fresh in
      destruct (eff_facts _ _ _ _ _ _ _ Etot) as (F1 & F2 & F3 & F4 & F5 & F6 & F7 & F8);
      cbn [with_win win set_props props last renderer monitor lastCursorX lastCursorY
           extWGLEXTSwapControlTear extGLXEXTSwapControlTear] in F1, F3, F4, F5, F6;
      rewrite ?F1, ?F2, ?F3, ?F4, ?F5, ?F6, ?F7, ?F8 in E;
      rewrite ?F1, ?F2, ?F3, ?F4, ?F5, ?F6, ?F7, ?F8 in H;
      clear F1 F2 F3 F4 F5 F6 F7 F8 Hli
  end.

Ltac chain lem Hl Etot :=
  let m' := fresh "m" in
  let H := fresh "H" in
  let E := fresh "E" in
  run_next lem Hl Etot m' H E;
  eapply bind_ex; [exact H | cbn beta; cbn [fst snd]];
  let Enew := fresh "Etot" in
  pose proof (eff_trans _ _ _ _ _ _ _ _ _ _ _ _ Etot E) as Enew;
  clear Etot E H.

Lemma useProps_locked_run p force m :
  locked m ->
  exists m', useProps_locked p force m = Done tt m'
    /\ eff write_locked (with_win (set_props p) m) m'
           (reconcile_last force p (last (win m)))
           (reconcile_baseline force p (last (win m)) (lastCursorX (win m)))
           (reconcile_baseline force p (last (win m)) (lastCursorY (win m)))
           (reconcile_calls force (win m) p).
Proof.
  intros Hl.
  assert (locked (with_win (set_props p) m)) as Hl0 by exact Hl.
  cut (exists L x y C,
          (exists (b : unit) m',
              useProps_locked p force m = Done b m'
              /\ eff write_locked (with_win (set_props p) m) m' L x y C)
          /\ L = reconcile_last force p (last (win m))
          /\ x = reconcile_baseline force p (last (win m)) (lastCursorX (win m))
          /\ y = reconcile_baseline force p (last (win m)) (lastCursorY (win m))
          /\ C = reconcile_calls force (win m) p).
  { intros (L & x & y & C & ([] & m' & Hrun & E) & -> & -> & -> & ->). eauto. }
  unfold useProps_locked.
  do 4 eexists. split.
  - eapply bind_ex; [reflexivity | cbn beta].
    eapply bind_ex; [reflexivity | cbn beta].
    match goal with
    | |- exists _ _, _ ?mm = _ /\ _ =>
        remember mm as m1 eqn:Hm1;
        assert (eff write_locked (with_win (set_props p) m) m1
                    (last (win m)) (lastCursorX (win m)) (lastCursorY (win m)) []) as Etot
    end.
    { subst m1. clear Hl0. open_machine m Hl. unfold eff. cbn. split_and!; try reflexivity.
      - by rewrite app_nil_r.
      - eexists. split; [reflexivity | repeat constructor]. }
    chain updateTitle_run Hl0 Etot.
    chain (useProps_Size_run force) Hl0 Etot0.
    chain (useProps_Pos_run force (fst (Size p)) (snd (Size p))) Hl0 Etot.
    chain (useProps_CursorPos_run force) Hl0 Etot0.
    chain (useProps_Visible_run force) Hl0 Etot.
    chain (useProps_Minimized_run force) Hl0 Etot0.
    chain (useProps_VSync_run force) Hl0 Etot.
    run_next (useProps_CursorGrabbed_run force) Hl0 Etot0 m8 H8 E8.
    pose proof (eff_trans _ _ _ _ _ _ _ _ _ _ _ _ Etot0 E8) as Etot.
    exists tt, m8. split; [exact H8 | exact Etot].
  - unfold reconcile_baseline, CursorGrabbed_calls.
    rewrite CursorGrabbed_applies_after, VSync_calls_after, Minimized_calls_after,
      Visible_calls_after, CursorPos_calls_after, Pos_calls_after.
    split_and!; try reflexivity.
    unfold reconcile_calls, CursorGrabbed_calls. cbn zeta.
    rewrite <- !app_assoc. reflexivity.
Qed.

(** [useProps] called with the mutex free: it returns with the mutex free
    again; the window holds the requested properties, [last] is
    reconciled, the cursor baseline is reset if the grab block applied;
    the native calls are those of [reconcile_calls], in this order; every
    access to the property sets was made under the write lock. *)
Lemma useProps_spec p force m :
  holding (mu (win m)) = NoLock ->
  exists m', useProps p force m = Done tt m'
    /\ eff write_locked (with_win (set_props p) m) m'
           (reconcile_last force p (last (win m)))
           (reconcile_baseline force p (last (win m)) (lastCursorX (win m)))
           (reconcile_baseline force p (last (win m)) (lastCursorY (win m)))
           (reconcile_calls force (win m) p).
Proof.
  intros Hfree. apply holding_NoLock in Hfree as Hwr. destruct Hwr as [Hw Hr].
  unfold useProps, Lock. unfold mbind at 1, M_bind at 1. rewrite Hfree.
  set (m0 := with_win (set_mu {| writer := true; readers := 0 |}) m).
  destruct (useProps_locked_run p force m0 eq_refl)
    as (m1 & Hrun & Hw1 & Hc1 & Hk1 & A & Ha1 & HA).
  unfold defer. rewrite Hrun. unfold Unlock. mrun. rewrite Hw1.
  cbn [writer mu win set_last set_lastCursor with_win set_props m0 set_mu readers].
  eexists. split; [reflexivity |].
  unfold eff. cbn [win chans calls audit with_win].
  split_and!.
  - rewrite Hw1. subst m0. clear -Hw Hr.
    destruct m as [w ? ? ?], w as [l ? ? ? ? ? ? ? ? ? ?], l as [wr rd].
    cbn in Hw, Hr. subst. reflexivity.
  - exact Hc1.
  - exact Hk1.
  - exists A. done.
Qed.

(** ** [last] after reconciliation *)

Ltac outer_blocks :=
  repeat match goal with
         | |- context [if ?b then _ else _] =>
             lazymatch b with
             | context [if _ then _ else _] => fail
             | _ => destruct b;
                    cbn [Size Pos CursorPos Visible Minimized VSync CursorGrabbed
                         SetSize SetPos SetCursorPos SetVisible SetMinimized SetVSync
                         SetCursorGrabbed]
             end
         end.

Lemma apply_Size_ok force p l : Size (apply_Size force p l) = Size p.
Proof.
  unfold apply_Size, Size_applies.
  destruct (_ || _) eqn:E; [by destruct (Size p) |].
  apply orb_false_iff in E as [[_ E1]%orb_false_iff E2].
  apply negb_false_iff, Z.eqb_eq in E1, E2.
  destruct (Size p), (Size l); simpl in *; congruence.
Qed.

Lemma apply_Pos_ok force p l : Pos (apply_Pos force p l) = Pos p.
Proof.
  unfold apply_Pos, Pos_applies.
  destruct (_ || _) eqn:E; [by destruct (Pos p) |].
  apply orb_false_iff in E as [[_ E1]%orb_false_iff E2].
  apply negb_false_iff, Z.eqb_eq in E1, E2.
  destruct (Pos p), (Pos l); simpl in *; congruence.
Qed.

Lemma apply_CursorPos_ok force p l :
  CursorPos (apply_CursorPos force p l) = CursorPos p
  \/ (CursorPos (apply_CursorPos force p l) = CursorPos l
      /\ CursorPos_eq (CursorPos p) (CursorPos l) = true).
Proof.
  unfold apply_CursorPos, CursorPos_applies.
  destruct (_ || _) eqn:E; [left; by destruct (CursorPos p) |].
  apply orb_false_iff in E as [[_ E1]%orb_false_iff E2].
  apply negb_false_iff in E1, E2.
  right. split; [done |]. unfold CursorPos_eq, feq. by rewrite E1, E2.
Qed.

Lemma apply_Visible_ok force p l : Visible (apply_Visible force p l) = Visible p.
Proof.
  unfold apply_Visible, Visible_applies.
  destruct (_ || _) eqn:E; [done |].
  apply orb_false_iff in E as [_ E]. by apply negb_false_iff, eqb_prop in E.
Qed.

Lemma apply_Minimized_ok force p l : Minimized (apply_Minimized force p l) = Minimized p.
Proof.
  unfold apply_Minimized, Minimized_applies.
  destruct (_ || _) eqn:E; [done |].
  apply orb_false_iff in E as [_ E]. by apply negb_false_iff, eqb_prop in E.
Qed.

Lemma apply_VSync_ok force p l : VSync (apply_VSync force p l) = VSync p.
Proof.
  unfold apply_VSync, VSync_applies.
  destruct (_ || _) eqn:E; [done |].
  apply orb_false_iff in E as [_ E]. by apply negb_false_iff, eqb_prop in E.
Qed.

Lemma apply_CursorGrabbed_ok force p l :
  CursorGrabbed (apply_CursorGrabbed force p l) = CursorGrabbed p.
Proof.
  unfold apply_CursorGrabbed, CursorGrabbed_applies.
  destruct (_ || _) eqn:E; [done |].
  apply orb_false_iff in E as [_ E]. by apply negb_false_iff, eqb_prop in E.
Qed.

Lemma reconcile_last_Size force p l : Size (reconcile_last force p l) = Size p.
Proof.
  unfold reconcile_last, apply_CursorGrabbed, apply_VSync, apply_Minimized,
    apply_Visible, apply_CursorPos, apply_Pos.
  outer_blocks; apply apply_Size_ok.
Qed.

Lemma reconcile_last_Pos force p l : Pos (reconcile_last force p l) = Pos p.
Proof.
  unfold reconcile_last, apply_CursorGrabbed, apply_VSync, apply_Minimized,
    apply_Visible, apply_CursorPos.
  outer_blocks; apply apply_Pos_ok.
Qed.

Lemma reconcile_last_Visible force p l : Visible (reconcile_last force p l) = Visible p.
Proof.
  unfold reconcile_last, apply_CursorGrabbed, apply_VSync, apply_Minimized.
  outer_blocks; apply apply_Visible_ok.
Qed.

Lemma reconcile_last_Minimized force p l :
  Minimized (reconcile_last force p l) = Minimized p.
Proof.
  unfold reconcile_last, apply_CursorGrabbed, apply_VSync.
  outer_blocks; apply apply_Minimized_ok.
Qed.

Lemma reconcile_last_VSync force p l : VSync (reconcile_last force p l) = VSync p.
Proof.
  unfold reconcile_last, apply_CursorGrabbed.
  outer_blocks; apply apply_VSync_ok.
Qed.

Lemma reconcile_last_CursorGrabbed force p l :
  CursorGrabbed (reconcile_last force p l) = CursorGrabbed p.
Proof. unfold reconcile_last. apply apply_CursorGrabbed_ok. Qed.

Lemma reconcile_last_CursorPos force p l :
  CursorPos (reconcile_last force p l) = CursorPos p
  \/ (CursorPos (reconcile_last force p l) = CursorPos l
      /\ CursorPos_eq (CursorPos p) (CursorPos l) = true).
Proof.
  assert (CursorPos (apply_Pos force p (apply_Size force p l)) = CursorPos l) as Hin
    by (unfold apply_Pos, apply_Size; outer_blocks; reflexivity).
  unfold reconcile_last, apply_CursorGrabbed, apply_VSync, apply_Minimized, apply_Visible.
  outer_blocks;
    (destruct (apply_CursorPos_ok force p (apply_Pos force p (apply_Size force p l)))
      as [H | [H1 H2]]; [left; exact H | right; rewrite H1, Hin in *; done]).
Qed.

(** The fields that [useProps] never reads keep, in [last], the value
    they had. *)
Lemma reconcile_last_untouched force p l :
  Title (reconcile_last force p l) = Title l
  /\ Focused (reconcile_last force p l) = Focused l
  /\ Resizable (reconcile_last force p l) = Resizable l
  /\ Decorated (reconcile_last force p l) = Decorated l
  /\ AlwaysOnTop (reconcile_last force p l) = AlwaysOnTop l
  /\ Fullscreen (reconcile_last force p l) = Fullscreen l
  /\ FramebufferSize (reconcile_last force p l) = FramebufferSize l
  /\ GetPrecision (reconcile_last force p l) = GetPrecision l
  /\ ShouldClose (reconcile_last force p l) = ShouldClose l.
Proof.
  unfold reconcile_last, apply_CursorGrabbed, apply_VSync, apply_Minimized,
    apply_Visible, apply_CursorPos, apply_Pos, apply_Size.
  repeat match goal with
         | |- context [if ?b then _ else _] =>
             lazymatch b with
             | context [if _ then _ else _] => fail
             | _ => destruct b
             end
         end; cbn; done.
Qed.

(** ** Running [useProps] again with the same request *)

Lemma Size_calls_same p l : Size l = Size p -> Size_calls false p l = [].
Proof. intros H. unfold Size_calls, Size_applies. rewrite H, !Z.eqb_refl. reflexivity. Qed.

Lemma Pos_calls_same mon width height p l :
  Pos l = Pos p -> Pos_calls false mon width height p l = [].
Proof. intros H. unfold Pos_calls, Pos_applies. rewrite H, !Z.eqb_refl. reflexivity. Qed.

Lemma Visible_calls_same p l : Visible l = Visible p -> Visible_calls false p l = [].
Proof. intros H. unfold Visible_calls, Visible_applies. rewrite H, eqb_reflx. reflexivity. Qed.

Lemma Minimized_calls_same p l : Minimized l = Minimized p -> Minimized_calls false p l = [].
Proof.
  intros H. unfold Minimized_calls, Minimized_applies. rewrite H, eqb_reflx. reflexivity.
Qed.

Lemma VSync_calls_same wgl glx p l : VSync l = VSync p -> VSync_calls false wgl glx p l = [].
Proof. intros H. unfold VSync_calls, VSync_applies. rewrite H, eqb_reflx. reflexivity. Qed.

Lemma CursorGrabbed_calls_same p l :
  CursorGrabbed l = CursorGrabbed p -> CursorGrabbed_calls false p l = [].
Proof.
  intros H. unfold CursorGrabbed_calls, CursorGrabbed_applies.
  rewrite H, eqb_reflx. reflexivity.
Qed.

Lemma CursorPos_calls_same p l :
  CursorPos l = CursorPos p \/ CursorPos_eq (CursorPos p) (CursorPos l) = true ->
  feq (fst (CursorPos p)) (fst (CursorPos p)) && feq (snd (CursorPos p)) (snd (CursorPos p))
  = true ->
  CursorPos_calls false p l = [].
Proof.
  intros H Hnan. unfold CursorPos_calls, CursorPos_applies, fne.
  apply andb_true_iff in Hnan as [Hx Hy]. unfold feq in *.
  destruct H as [-> | H].
  - by rewrite Hx, Hy.
  - unfold CursorPos_eq, feq in H. apply andb_true_iff in H as [-> ->]. reflexivity.
Qed.

Lemma reconcile_calls_again force p w w' :
  last w' = reconcile_last force p (last w) ->
  renderer w' = renderer w ->
  reconcile_calls false w' p
  = glfw.SetTitle (applied_title p (renderer w)) :: CursorPos_calls false p (last w').
Proof.
  intros Hl Hr. unfold reconcile_calls. cbn zeta. rewrite Hr.
  rewrite Size_calls_same by (rewrite Hl; apply reconcile_last_Size).
  rewrite Pos_calls_same by (rewrite Hl; apply reconcile_last_Pos).
  rewrite Visible_calls_same by (rewrite Hl; apply reconcile_last_Visible).
  rewrite Minimized_calls_same by (rewrite Hl; apply reconcile_last_Minimized).
  rewrite VSync_calls_same by (rewrite Hl; apply reconcile_last_VSync).
  rewrite CursorGrabbed_calls_same by (rewrite Hl; apply reconcile_last_CursorGrabbed).
  cbn [app]. by rewrite app_nil_r.
Qed.

(** ** Integer arithmetic of the centering *)

Lemma int_wrap_id z : int_range z -> int_wrap z = z.
Proof.
  unfold int_range, int_wrap, int_bits. intros H.
  rewrite Z.mod_small; lia.
Qed.

Lemma int_div_2 z : int_range z -> int_div z 2 = Z.quot z 2 /\ - 2 ^ 62 <= Z.quot z 2 < 2 ^ 62.
Proof.
  unfold int_range, int_div, int_bits. intros H.
  assert (- 2 ^ 62 <= Z.quot z 2 < 2 ^ 62) as Hq.
  { change (2 ^ (64 - 1)) with (2 * 2 ^ 62) in H.
    pose proof (Z.quot_rem' z 2) as Hqr.
    destruct (Z_le_gt_dec 0 z) as [Hz | Hz].
    - pose proof (Z.rem_bound_pos z 2 Hz ltac:(lia)). lia.
    - pose proof (Z.rem_bound_pos_neg z 2 ltac:(lia) ltac:(lia)). lia. }
  split; [| exact Hq].
  apply int_wrap_id. unfold int_range, int_bits.
  change (2 ^ (64 - 1)) with (2 * 2 ^ 62). lia.
Qed.

(** The centering never overflows: it is the difference of the two
    truncated halves. *)
Lemma centered_coordinate vm size :
  int_range vm -> int_range size ->
  int_sub (int_div vm 2) (int_div size 2) = Z.quot vm 2 - Z.quot size 2.
Proof.
  intros Hv Hs.
  destruct (int_div_2 vm Hv) as [-> Hv2], (int_div_2 size Hs) as [-> Hs2].
  apply int_wrap_id. unfold int_range, int_bits.
  change (2 ^ (64 - 1)) with (2 * 2 ^ 62). lia.
Qed.

Lemma SetPosition_args_app l1 l2 :
  SetPosition_args (l1 ++ l2) = SetPosition_args l1 ++ SetPosition_args l2.
Proof. apply omap_app. Qed.

Lemma SwapInterval_args_app l1 l2 :
  SwapInterval_args (l1 ++ l2) = SwapInterval_args l1 ++ SwapInterval_args l2.
Proof. apply omap_app. Qed.

Ltac case_ifs :=
  repeat match goal with
         | |- context [if ?b then _ else _] => destruct b
         end.

Lemma SetPosition_args_reconcile force w p :
  SetPosition_args (reconcile_calls force w p)
  = if Pos_applies force p (last w)
    then [resolved_Pos (monitor w) (fst (Size p)) (snd (Size p)) p] else [].
Proof.
  unfold reconcile_calls. cbn zeta. rewrite !SetPosition_args_app.
  replace (SetPosition_args (Size_calls force p (last w))) with (@nil (Z * Z))
    by (unfold Size_calls; case_ifs; reflexivity).
  replace (SetPosition_args (CursorPos_calls force p (last w))) with (@nil (Z * Z))
    by (unfold CursorPos_calls; case_ifs; reflexivity).
  replace (SetPosition_args (Visible_calls force p (last w))) with (@nil (Z * Z))
    by (unfold Visible_calls; case_ifs; reflexivity).
  replace (SetPosition_args (Minimized_calls force p (last w))) with (@nil (Z * Z))
    by (unfold Minimized_calls; case_ifs; reflexivity).
  replace (SetPosition_args (VSync_calls force (extWGLEXTSwapControlTear w)
                               (extGLXEXTSwapControlTear w) p (last w)))
    with (@nil (Z * Z)) by (unfold VSync_calls; case_ifs; reflexivity).
  replace (SetPosition_args (CursorGrabbed_calls force p (last w))) with (@nil (Z * Z))
    by (unfold CursorGrabbed_calls; case_ifs; reflexivity).
  cbn [SetPosition_args omap list_omap app]. rewrite app_nil_r.
  unfold Pos_calls. destruct (Pos_applies force p (last w)); [| reflexivity].
  cbn. by destruct (resolved_Pos _ _ _ _).
Qed.

Lemma SwapInterval_args_reconcile force w p :
  SwapInterval_args (reconcile_calls force w p)
  = if VSync_applies force p (last w)
    then [swap_interval (VSync p) (extWGLEXTSwapControlTear w) (extGLXEXTSwapControlTear w)]
    else [].
Proof.
  unfold reconcile_calls. cbn zeta. rewrite !SwapInterval_args_app.
  replace (SwapInterval_args (Size_calls force p (last w))) with (@nil Z)
    by (unfold Size_calls; case_ifs; reflexivity).
  replace (SwapInterval_args (Pos_calls force (monitor w) (fst (Size p)) (snd (Size p))
                                p (last w)))
    with (@nil Z) by (unfold Pos_calls; case_ifs; reflexivity).
  replace (SwapInterval_args (CursorPos_calls force p (last w))) with (@nil Z)
    by (unfold CursorPos_calls; case_ifs; reflexivity).
  replace (SwapInterval_args (Visible_calls force p (last w))) with (@nil Z)
    by (unfold Visible_calls; case_ifs; reflexivity).
  replace (SwapInterval_args (Minimized_calls force p (last w))) with (@nil Z)
    by (unfold Minimized_calls; case_ifs; reflexivity).
  replace (SwapInterval_args (CursorGrabbed_calls force p (last w))) with (@nil Z)
    by (unfold CursorGrabbed_calls; case_ifs; reflexivity).
  cbn [SwapInterval_args omap list_omap app]. rewrite app_nil_r.
  unfold VSync_calls. by destruct (VSync_applies force p (last w)).
Qed.

(** ** Setting up the window in [doRun] *)

Lemma defer_ex {A} (f : M unit) (body : M A) m (Q : A -> Machine -> Prop) :
  (exists b m1, body m = Done b m1 /\ exists m2, f m1 = Done tt m2 /\ Q b m2) ->
  exists b m', defer f body m = Done b m' /\ Q b m'.
Proof.
  intros (b & m1 & Hb & m2 & Hf & HQ). exists b, m2. split; [| done].
  unfold defer. rewrite Hb. unfold mbind, M_bind. rewrite Hf. reflexivity.
Qed.

Ltac step_call :=
  eapply bind_ex; [reflexivity | cbn beta; cbn [win chans calls audit]].

(** A run of [doRun] that is told to shut down at once, every native
    call succeeding: it returns; the window was built with the extension
    flags GLFW reported, and the only [SwapInterval] is the one of the
    forced [useProps], decided from these flags. *)
Lemma doRun_first_SwapInterval NewProps n f p m mon r :
  Init_ok n = true -> CreateAssets_ok n = true -> PrimaryMonitor n = Some mon ->
  CreateWindow_ok n = true -> NewRenderer n = Some r ->
  exists (b : unit) m',
    doRun NewProps n f p [Shutdown] m = Done b m'
    /\ (exists C, calls m' = calls m ++ C
         /\ SwapInterval_args C
            = [swap_interval (VSync p)
                 (ExtensionSupported n "WGL_EXT_swap_control_tear")
                 (ExtensionSupported n "GLX_EXT_swap_control_tear")])
       /\ extWGLEXTSwapControlTear (win m')
          = ExtensionSupported n "WGL_EXT_swap_control_tear"
       /\ extGLXEXTSwapControlTear (win m')
          = ExtensionSupported n "GLX_EXT_swap_control_tear".
Proof.
  intros H1 H2 H3 H4 H5. unfold doRun. rewrite H1, H2, H3, H4, H5.
  step_call. step_call.
  apply defer_ex.
  do 3 step_call. step_call.
  do 14 step_call. step_call.
  apply defer_ex.
  do 8 step_call.
  match goal with
  | |- exists _ _, (useProps ?p ?force ≫= _) ?mm = _ /\ _ =>
      destruct (useProps_spec p force mm eq_refl) as (m1 & Hrun & Hw & _ & Hk & _)
  end.
  eapply bind_ex; [exact Hrun | cbn beta].
  step_call.
  cbn [mainLoop].
  step_call.
  exists tt. eexists. split; [reflexivity |].
  eexists. split; [reflexivity |].
  eexists. split; [reflexivity |].
  cbn [win chans calls audit]. rewrite Hw, Hk.
  cbn [win chans calls audit with_win set_props set_last set_lastCursor set_ext
       extWGLEXTSwapControlTear extGLXEXTSwapControlTear].
  split_and!; [| reflexivity | reflexivity].
  eexists. split.
  - rewrite <- !app_assoc. cbn [app]. reflexivity.
  - unfold SwapInterval_args at 1. cbn [omap list_omap]. rewrite omap_app.
    match goal with
    | |- context [omap ?g (reconcile_calls ?a ?b ?c)] =>
        change (omap g (reconcile_calls a b c)) with (SwapInterval_args (reconcile_calls a b c))
    end.
    rewrite SwapInterval_args_reconcile. reflexivity.
Qed.

(** ** Callbacks and the mutex *)

Ltac open_unlocked m Hw :=
  let w := fresh "w" in
  let l := fresh "l" in
  destruct m as [w ? ? ?]; destruct w as [l ? ? ? ? ? ? ? ? ? ?]; destruct l as [? ?];
  cbn in Hw; subst.

(** Finish a callback that ends in [sendEvent]. *)
Ltac publish_last :=
  lazymatch goal with
  | |- context [sendEvent ?ev ?msk ?mm] =>
      let m' := fresh "m" in
      let Hrun := fresh "Hrun" in
      let Hwin := fresh "Hwin" in
      let Hk := fresh "Hk" in
      let Ha := fresh "Ha" in
      let Hch := fresh "Hch" in
      let Hch0 := fresh "Hch0" in
      destruct (sendEvent_spec ev msk mm eq_refl) as (m' & Hrun & Hwin & Hk & Ha & Hch & Hch0);
      rewrite Hrun
  end.

Ltac callback_locks m :=
  let Hw := fresh "Hw" in
  intros m Hw; open_unlocked m Hw;
  unfold IconifyCallback, FocusCallback, PositionCallback, SizeCallback,
    FramebufferSizeCallback, store_last, store_props, load_props, RLock, RUnlock;
  mrun; cbn;
  try match goal with |- context [if ?b then sendEvent _ _ else _] => destruct b end;
  publish_last;
  match goal with
  | Hwin : win ?m' = _, Ha : audit ?m' = _ |- _ =>
      exists m'; eexists; split_and!;
      [ reflexivity
      | rewrite Hwin; reflexivity
      | rewrite Ha; cbn; rewrite <- ?app_assoc; reflexivity
      | repeat constructor ]
  end.

Lemma IconifyCallback_locks iconify now : under_read_lock (IconifyCallback iconify now).
Proof. callback_locks m. Qed.

Lemma FocusCallback_locks focused now : under_read_lock (FocusCallback focused now).
Proof. callback_locks m. Qed.

Lemma PositionCallback_locks x y now : under_read_lock (PositionCallback x y now).
Proof. callback_locks m. Qed.

Lemma SizeCallback_locks width height now : under_read_lock (SizeCallback width height now).
Proof. callback_locks m. Qed.

Lemma FramebufferSizeCallback_locks width height now :
  under_read_lock (FramebufferSizeCallback width height now).
Proof. callback_locks m. Qed.

Lemma CursorPositionCallback_locks x y now :
  under_read_lock (CursorPositionCallback x y now).
Proof.
  intros m Hw. open_unlocked m Hw.
  unfold CursorPositionCallback, store_last, store_props, load_props, RLock, RUnlock.
  mrun. cbn.
  destruct (CursorGrabbed _); cbn.
  - match goal with |- context [if ?b then _ else _] => destruct b end; cbn.
    + do 2 eexists. split_and!; [reflexivity | reflexivity | reflexivity | repeat constructor].
    + publish_last. exists m. eexists. split_and!;
        [ reflexivity | rewrite Hwin; reflexivity
        | rewrite Ha; cbn; reflexivity | repeat constructor ].
  - publish_last. exists m. eexists. split_and!;
      [ reflexivity | rewrite Hwin; reflexivity
      | rewrite Ha; cbn; rewrite <- ?app_assoc; reflexivity | repeat constructor ].
Qed.

(** ** Cursor motion while the cursor is grabbed *)

(** With the baseline at the sentinel, the callback records the sample
    and publishes nothing. *)
Lemma CursorPositionCallback_first x y now m :
  writer (mu (win m)) = false ->
  CursorGrabbed (props (win m)) = true ->
  lastCursorX (win m) = Inf_neg -> lastCursorY (win m) = Inf_neg ->
  exists m', CursorPositionCallback x y now m = Done tt m'
    /\ win m' = set_lastCursor x y (win m)
    /\ chans m' = chans m /\ calls m' = calls m.
Proof.
  intros Hw Hg Hx Hy. open_unlocked m Hw. cbn in Hg, Hx, Hy. subst.
  unfold CursorPositionCallback, load_props, RLock, RUnlock. mrun. cbn.
  rewrite Hg. cbn.
  eexists. split_and!; reflexivity.
Qed.

(** With a sample as baseline, the callback records the new sample and
    publishes the difference as a delta. *)
Lemma CursorPositionCallback_next x y now m :
  writer (mu (win m)) = false ->
  CursorGrabbed (props (win m)) = true ->
  feq (lastCursorX (win m)) Inf_neg && feq (lastCursorY (win m)) Inf_neg = false ->
  exists m', CursorPositionCallback x y now m = Done tt m'
    /\ win m' = set_lastCursor x y (win m)
    /\ calls m' = calls m
    /\ forall c, c <> nil_chan ->
         chans m' !! c
         = delivered (deliveries c CursorMovedEvents (elems (notifiers (win m))))
             (CursorMoved (PrimFloat.sub x (lastCursorX (win m)))
                          (PrimFloat.sub y (lastCursorY (win m))) true now)
           <$> chans m !! c.
Proof.
  intros Hw Hg Hs. open_unlocked m Hw. cbn in Hg, Hs. subst.
  unfold CursorPositionCallback, load_props, RLock, RUnlock. mrun. cbn.
  rewrite Hg. cbn. rewrite Hs. cbn. publish_last.
  exists m. split_and!; [reflexivity | rewrite Hwin; reflexivity | rewrite Hk; reflexivity |].
  intros c Hc. rewrite Hch by done. reflexivity.
Qed.

(** ** The title *)

Lemma string_app_take pre s : string_take (String.length pre) (pre +:+ s) = pre.
Proof.
  induction pre as [| c pre IH]; [by destruct s |].
  cbn [String.length String.append string_take]. f_equal. exact IH.
Qed.

Lemma string_app_drop pre s n :
  string_drop (String.length pre + n) (pre +:+ s) = string_drop n s.
Proof.
  induction pre as [| c pre IH]; [done |].
  cbn [String.length String.append string_drop Nat.add]. exact IH.
Qed.

Lemma Index_cons c s sep :
  Index (String c s) sep
  = if HasPrefix (String c s) sep then 0
    else let i := Index s sep in if i =? -1 then -1 else 1 + i.
Proof. reflexivity. Qed.

Lemma Index_after_prefix pre post :
  has_byte "{" pre = false ->
  Index (pre +:+ "{FPS}" +:+ post) "{FPS}" = Z.of_nat (String.length pre).
Proof.
  induction pre as [| c pre IH]; intros Hb.
  - reflexivity.
  - cbn [has_byte] in Hb. apply orb_false_iff in Hb as [Hc Hb].
    change (String c pre +:+ "{FPS}" +:+ post)
      with (String c (pre +:+ "{FPS}" +:+ post)).
    rewrite Index_cons.
    change (HasPrefix (String c (pre +:+ "{FPS}" +:+ post)) "{FPS}")
      with (if Ascii.eqb "{" c then HasPrefix (pre +:+ "{FPS}" +:+ post) "FPS}" else false).
    rewrite Hc. cbn zeta.
    rewrite (IH Hb).
    destruct (Z.eqb_spec (Z.of_nat (String.length pre)) (-1)) as [? | _]; [lia |].
    cbn [String.length]. lia.
Qed.

Lemma Replace_once s old new :
  Replace 1 s old new
  = if Index s old =? -1 then s
    else string_take (Z.to_nat (Index s old)) s +:+ new +:+
         string_drop (Z.to_nat (Index s old) + String.length old) s.
Proof. reflexivity. Qed.

(** [strings.Replace] with count 1 on a title whose first ["{FPS}"] comes
    after a part without braces. *)
Lemma Replace_first pre post new :
  has_byte "{" pre = false ->
  Replace 1 (pre +:+ "{FPS}" +:+ post) "{FPS}" new = pre +:+ new +:+ post.
Proof.
  intros Hb. rewrite Replace_once, (Index_after_prefix pre post Hb).
  destruct (Z.eqb_spec (Z.of_nat (String.length pre)) (-1)) as [? | _]; [lia |].
  rewrite Nat2Z.id, string_app_take, string_app_drop. reflexivity.
Qed.

(** A title without ["{FPS}"] is left as it is. *)
Lemma Replace_absent s new : Index s "{FPS}" = -1 -> Replace 1 s "{FPS}" new = s.
Proof. intros H. rewrite Replace_once, H. reflexivity. Qed.

(** [int_of_Ceil] gives the ceiling: on a finite float of value
    [n * 2^e], the least integer that is not below it. *)
Lemma ceil_SF_finite s mant e z :
  ceil_SF (S754_finite s mant e) = Some z ->
  let n := if s then Z.neg mant else Z.pos mant in
  if 0 <=? e then z = n * 2 ^ e
  else (z - 1) * 2 ^ (- e) < n <= z * 2 ^ (- e).
Proof.
  intros H n. cbn [ceil_SF] in H. fold n in H. injection H as <-.
  destruct (Z.leb_spec 0 e) as [He | He]; [reflexivity |].
  assert (0 < 2 ^ (- e)) as Hpos by (apply Z.pow_pos_nonneg; lia).
  pose proof (Z.div_mod (- n) (2 ^ (- e)) ltac:(lia)) as Hdm.
  pose proof (Z.mod_pos_bound (- n) (2 ^ (- e)) Hpos) as Hb.
  nia.
Qed.

Lemma updateTitle_tick m :
  holding (mu (win m)) = NoLock ->
  exists m', (Lock;; updateTitle;; Unlock) m = Done tt m'
    /\ win m' = win m /\ chans m' = chans m
    /\ calls m' = calls m
                  ++ [glfw.SetTitle (applied_title (props (win m)) (renderer (win m)))].
Proof.
  intros Hfree. apply holding_NoLock in Hfree as Hwr. destruct Hwr as [Hw Hr].
  destruct m as [w ? ? ?], w as [l ? ? ? ? ? ? ? ? ? ?], l as [wr rd].
  cbn in Hw, Hr. subst.
  unfold updateTitle, load_props, Lock, Unlock, applied_title. mrun. cbn.
  eexists. split_and!; reflexivity.
Qed.

(** * The claims *)

(** C1 (as amended). [useProps], called with the window's mutex free,
    returns and leaves the requested property set in [props]. For size,
    position, visibility, minimized, vsync and cursor grab, [last] then
    equals the request, and for the cursor position it equals it or is
    equal to it under Go's [==]. The title, like the fullscreen flag and
    the precision, is not stored in [last]. The native calls issued are
    [SetTitle], always, followed by one call for each of the seven
    properties that is forced or differs from [last] (none for a cursor
    position with a coordinate [-1]). Running [useProps] again with the
    same request and [force = false] issues [SetTitle] once more and
    nothing else, unless a requested cursor coordinate is NaN. *)
Theorem C1_useProps_reconciles (p : Props) (force : bool) (m : Machine) :
  holding (mu (win m)) = NoLock ->
  exists m',
    useProps p force m = Done tt m'
    /\ props (win m') = p
    /\ Size (last (win m')) = Size p
    /\ Pos (last (win m')) = Pos p
    /\ (CursorPos (last (win m')) = CursorPos p
        \/ CursorPos_eq (CursorPos p) (CursorPos (last (win m'))) = true)
    /\ Visible (last (win m')) = Visible p
    /\ Minimized (last (win m')) = Minimized p
    /\ VSync (last (win m')) = VSync p
    /\ CursorGrabbed (last (win m')) = CursorGrabbed p
    /\ Title (last (win m')) = Title (last (win m))
    /\ Fullscreen (last (win m')) = Fullscreen (last (win m))
    /\ GetPrecision (last (win m')) = GetPrecision (last (win m))
    /\ calls m' = calls m ++ reconcile_calls force (win m) p
    /\ exists m'',
         useProps p false m' = Done tt m''
         /\ calls m'' = calls m'
                        ++ glfw.SetTitle (applied_title p (renderer (win m)))
                           :: CursorPos_calls false p (last (win m'))
         /\ (feq (fst (CursorPos p)) (fst (CursorPos p))
             && feq (snd (CursorPos p)) (snd (CursorPos p)) = true ->
             CursorPos_calls false p (last (win m')) = []).
Proof.
  intros Hfree.
  destruct (useProps_spec p force m Hfree) as (m' & Hrun & Hw & _ & Hk & _).
  assert (last (win m') = reconcile_last force p (last (win m))) as Hl
    by (rewrite Hw; reflexivity).
  assert (CursorPos (last (win m')) = CursorPos p
          \/ CursorPos_eq (CursorPos p) (CursorPos (last (win m'))) = true) as Hcur.
  { rewrite Hl. destruct (reconcile_last_CursorPos force p (last (win m))) as [H | [H1 H2]];
      [by left | right; by rewrite H1]. }
  assert (holding (mu (win m')) = NoLock) as Hfree' by (rewrite Hw; exact Hfree).
  destruct (useProps_spec p false m' Hfree') as (m'' & Hrun' & _ & _ & Hk' & _).
  exists m'. split_and!; try done.
  - rewrite Hw. reflexivity.
  - rewrite Hl. apply reconcile_last_Size.
  - rewrite Hl. apply reconcile_last_Pos.
  - rewrite Hl. apply reconcile_last_Visible.
  - rewrite Hl. apply reconcile_last_Minimized.
  - rewrite Hl. apply reconcile_last_VSync.
  - rewrite Hl. apply reconcile_last_CursorGrabbed.
  - rewrite Hl. apply reconcile_last_untouched.
  - rewrite Hl. apply reconcile_last_untouched.
  - rewrite Hl. apply reconcile_last_untouched.
  - exists m''. split_and!; [done | |].
    + rewrite Hk'. cbn [calls with_win]. f_equal.
      apply (reconcile_calls_again force p (win m)); [exact Hl |].
      rewrite Hw. reflexivity.
    + intros Hnan. apply CursorPos_calls_same; [| exact Hnan].
      destruct Hcur as [H | H]; [by left | by right].
Qed.

Lemma C1_witness :
  exists m', useProps sample_request false (sample_machine 1) = Done tt m'
             /\ Size (last (win m')) = (640, 480).
Proof.
  destruct (C1_useProps_reconciles sample_request false (sample_machine 1))
    as (m' & Hrun & _ & Hsize & _); [reflexivity |].
  exists m'. split; [exact Hrun | exact Hsize].
Defined.

(** C1 as stated fails: a second run with the same request and
    [force = false] still calls [SetTitle]; and a requested cursor
    position that differs from [last] but holds the sentinel [-1] is
    stored in [last] without a native call. *)
Lemma C1_counterexample :
  run_calls (useProps sample_request false) (sample_machine 1)
  = Some [glfw.SetTitle "Game 42FPS"; glfw.SetSize 640 480; glfw.SetPosition 10 20;
          glfw.SetInputMode glfw.CursorDisabled]
  /\ run_calls (useProps sample_request false;; useProps sample_request false)
       (sample_machine 1)
     = Some [glfw.SetTitle "Game 42FPS"; glfw.SetSize 640 480; glfw.SetPosition 10 20;
             glfw.SetInputMode glfw.CursorDisabled; glfw.SetTitle "Game 42FPS"]
  /\ CursorPos (last (win (sample_machine 1))) = ((-1)%float, (-1)%float)
  /\ run_calls (useProps (SetCursorPos (-1)%float 7%float sample_props) false)
       (sample_machine 1)
     = Some [glfw.SetTitle "Game 42FPS"].
Proof. vm_compute. repeat split. Qed.

(** C2. On a window whose mutex is free and where the channel [c] is
    not yet subscribed, two calls of [Notify] with masks [A] and [B] make
    an event whose type is in both go to [c] twice (the channel having
    room for two). The call [Notify(c, NoEvents)] that should then remove
    both subscriptions does not return: [deleteNotifiers] looks for the
    next notifier in [w.notifiers], whose length never shrinks, instead of
    the local slice it shortens, finds the last subscription again and
    again, and slices the local slice beyond its length. The panic leaves
    the write lock held. *)
Theorem C2_notify_twice_then_unsubscribe (m : Machine) (c : chan)
    (A B evt : EventMask) (ev : Event) (q : Chan) :
  holding (mu (win m)) = NoLock ->
  slice_ok (notifiers (win m)) ->
  Forall (fun nf => ch nf <> c) (elems (notifiers (win m))) ->
  c <> nil_chan ->
  chans m !! c = Some q ->
  (length (buf q) + 2 <= cap q)%nat ->
  Z.land A evt <> 0 -> Z.land B evt <> 0 ->
  (exists m3,
      (Notify c A;; Notify c B;; sendEvent ev evt) m = Done tt m3
      /\ chans m3 !! c = Some {| cap := cap q; buf := buf q ++ [ev; ev] |})
  /\ (exists m4,
         (Notify c A;; Notify c B;; sendEvent ev evt;; Notify c NoEvents) m
         = Panic "runtime error: slice bounds out of range" m4
         /\ holding (mu (win m4)) = WriteLock).
Proof.
  intros Hfree Hok Hnew Hc Hq Hroom HA HB.
  destruct (publish_after_two_subscriptions m c A B evt ev q Hfree Hok Hnew Hc Hq HA HB)
    as (m1 & m2 & m3 & Hr1 & Hr2 & Hf2 & Hok2 & Hlast2 & Hr3 & Hw3 & Hch3).
  split.
  - exists m3. split.
    + eapply bind_run; [exact Hr1 |]. eapply bind_run; [exact Hr2 |]. exact Hr3.
    + rewrite Hch3. unfold delivered. do 3 f_equal.
      replace (Nat.min 2 (cap q - length (buf q))) with 2%nat by lia. reflexivity.
  - rewrite <- Hw3 in Hf2, Hok2, Hlast2.
    destruct (Notify_NoEvents_panics c m3 Hf2 Hok2 Hlast2) as (m4 & Hr4 & Hheld).
    exists m4. split; [| exact Hheld].
    eapply bind_run; [exact Hr1 |]. eapply bind_run; [exact Hr2 |].
    eapply bind_run; [exact Hr3 |]. exact Hr4.
Qed.

Lemma C2_witness :
  (exists m3,
      (Notify 1%nat CloseEvents;; Notify 1%nat AllEvents;; sendEvent (Close 5) CloseEvents)
        (sample_machine 4) = Done tt m3
      /\ chans m3 !! 1%nat = Some {| cap := 4; buf := [Close 5; Close 5] |})
  /\ (exists m4,
         (Notify 1%nat CloseEvents;; Notify 1%nat AllEvents;;
          sendEvent (Close 5) CloseEvents;; Notify 1%nat NoEvents) (sample_machine 4)
         = Panic "runtime error: slice bounds out of range" m4
         /\ holding (mu (win m4)) = WriteLock).
Proof.
  apply (C2_notify_twice_then_unsubscribe (sample_machine 4) 1%nat CloseEvents AllEvents
           CloseEvents (Close 5) {| cap := 4; buf := [] |}).
  - reflexivity.
  - unfold slice_ok. simpl. lia.
  - constructor.
  - discriminate.
  - reflexivity.
  - simpl. lia.
  - discriminate.
  - discriminate.
Defined.

(** C3. [sendEvent], called by a goroutine that does not hold the write
    lock, returns: it neither parks nor panics. It leaves the window, and
    so the list of notifiers, as it was, and it leaves every channel that
    is at capacity with the content it had, whatever notifiers match. *)
Theorem C3_publish_drops_on_full (ev : Event) (msk : EventMask) (m : Machine) :
  writer (mu (win m)) = false ->
  exists m',
    sendEvent ev msk m = Done tt m'
    /\ win m' = win m
    /\ notifiers (win m') = notifiers (win m)
    /\ forall c q, chans m !! c = Some q -> (cap q <= length (buf q))%nat ->
                   chans m' !! c = Some q.
Proof.
  intros Hw.
  destruct (sendEvent_spec ev msk m Hw) as (m' & Hrun & Hwin & _ & _ & Hch & Hch0).
  exists m'. split_and!; [done | done | by rewrite Hwin |].
  intros c q Hq Hfull.
  destruct (decide (c = nil_chan)) as [-> | Hc]; [by rewrite Hch0 |].
  rewrite Hch by done. rewrite Hq. cbn [fmap option_fmap option_map].
  by rewrite delivered_full.
Qed.

Lemma C3_witness :
  exists m',
    sendEvent (Close 5) CloseEvents full_machine = Done tt m'
    /\ deliveries 1%nat CloseEvents (elems (notifiers (win full_machine))) = 1%nat
    /\ chans m' !! 1%nat = Some {| cap := 1; buf := [Damaged 0] |}.
Proof.
  destruct (C3_publish_drops_on_full (Close 5) CloseEvents full_machine)
    as (m' & Hrun & _ & _ & Hfull); [reflexivity |].
  exists m'. split_and!; [exact Hrun | reflexivity |].
  apply Hfull; [reflexivity | simpl; lia].
Defined.

(** C4. After [useProps] has turned cursor grab on (the request asks
    for it and [last] did not have it), the first cursor position
    callback only records its sample: whatever the coordinates, no
    channel receives anything. The second callback publishes, to every
    channel once per matching notifier as far as the channel has room, a
    [CursorMoved] event that is a delta and carries the second sample
    minus the first, provided the first sample was not the pair of
    negative infinities that stands for "no previous sample". *)
Theorem C4_grab_then_two_samples (p : Props) (force : bool) (m : Machine)
    (x1 y1 x2 y2 : float64) (t1 t2 : Time) :
  holding (mu (win m)) = NoLock ->
  CursorGrabbed p = true ->
  CursorGrabbed (last (win m)) = false ->
  exists m1 m2,
    useProps p force m = Done tt m1
    /\ chans m1 = chans m
    /\ lastCursorX (win m1) = Inf_neg /\ lastCursorY (win m1) = Inf_neg
    /\ CursorPositionCallback x1 y1 t1 m1 = Done tt m2
    /\ chans m2 = chans m1
    /\ (feq x1 Inf_neg && feq y1 Inf_neg = false ->
        exists m3,
          CursorPositionCallback x2 y2 t2 m2 = Done tt m3
          /\ forall c, c <> nil_chan ->
               chans m3 !! c
               = delivered (deliveries c CursorMovedEvents (elems (notifiers (win m))))
                   (CursorMoved (PrimFloat.sub x2 x1) (PrimFloat.sub y2 y1) true t2)
                 <$> chans m2 !! c).
Proof.
  intros Hfree Hp Hl.
  destruct (useProps_spec p force m Hfree) as (m1 & Hrun & Hw & Hch1 & _ & _).
  assert (CursorGrabbed_applies force p (last (win m)) = true) as Happ.
  { unfold CursorGrabbed_applies. rewrite Hl, Hp. by destruct force. }
  apply holding_NoLock in Hfree as [Hwr _].
  assert (writer (mu (win m1)) = false) as Hwr1 by (rewrite Hw; exact Hwr).
  assert (CursorGrabbed (props (win m1)) = true) as Hg1 by (rewrite Hw; exact Hp).
  assert (lastCursorX (win m1) = Inf_neg) as Hx1
    by (rewrite Hw; unfold reconcile_baseline; by rewrite Happ).
  assert (lastCursorY (win m1) = Inf_neg) as Hy1
    by (rewrite Hw; unfold reconcile_baseline; by rewrite Happ).
  destruct (CursorPositionCallback_first x1 y1 t1 m1 Hwr1 Hg1 Hx1 Hy1)
    as (m2 & Hrun2 & Hw2 & Hc2 & _).
  exists m1, m2. split_and!; try done.
  intros Hsample.
  destruct (CursorPositionCallback_next x2 y2 t2 m2) as (m3 & Hrun3 & _ & _ & Hch3).
  - rewrite Hw2. exact Hwr1.
  - rewrite Hw2. exact Hg1.
  - rewrite Hw2. exact Hsample.
  - exists m3. split; [exact Hrun3 |].
    intros c Hc. rewrite (Hch3 c Hc). rewrite Hw2, Hw. reflexivity.
Qed.

Lemma C4_witness :
  exists m1 m2 m3,
    useProps sample_request false grab_machine = Done tt m1
    /\ CursorPositionCallback 100%float 50%float 1 m1 = Done tt m2
    /\ chans m2 !! 1%nat = Some {| cap := 4; buf := [] |}
    /\ CursorPositionCallback 103%float 48%float 2 m2 = Done tt m3
    /\ chans m3 !! 1%nat
       = Some {| cap := 4; buf := [CursorMoved 3%float (-2)%float true 2] |}.
Proof.
  destruct (C4_grab_then_two_samples sample_request false grab_machine
              100%float 50%float 103%float 48%float 1 2)
    as (m1 & m2 & Hrun & Hch1 & _ & _ & Hcb1 & Hch2 & Hnext);
    [reflexivity | reflexivity | reflexivity |].
  destruct Hnext as (m3 & Hcb2 & Hch3); [reflexivity |].
  exists m1, m2, m3.
  split_and!; [exact Hrun | exact Hcb1 | by rewrite Hch2, Hch1 | exact Hcb2 |].
  pose proof (Hch3 1%nat ltac:(discriminate)) as H.
  rewrite Hch2, Hch1 in H. exact H.
Defined.

(** C5. When the requested position is the sentinel [(-1, -1)] and the
    primary monitor tells its video mode, the position block of
    [useProps], when it applies (forced, or [last] holds another
    position), gives the native window the position
    [(vmWidth/2 - width/2, vmHeight/2 - height/2)], computed from the
    requested size with Go's truncating division, and no other position. *)
Theorem C5_centered_position (p : Props) (force : bool) (m : Machine) (vmW vmH : Z) :
  holding (mu (win m)) = NoLock ->
  Pos p = (-1, -1) ->
  GetVideoMode (monitor (win m)) = Some (vmW, vmH) ->
  int_range vmW -> int_range vmH ->
  int_range (fst (Size p)) -> int_range (snd (Size p)) ->
  exists m' C,
    useProps p force m = Done tt m'
    /\ calls m' = calls m ++ C
    /\ SetPosition_args C
       = if Pos_applies force p (last (win m))
         then [(Z.quot vmW 2 - Z.quot (fst (Size p)) 2,
                Z.quot vmH 2 - Z.quot (snd (Size p)) 2)]
         else [].
Proof.
  intros Hfree Hpos Hvm HvW HvH Hw Hh.
  destruct (useProps_spec p force m Hfree) as (m' & Hrun & _ & _ & Hk & _).
  exists m', (reconcile_calls force (win m) p). split_and!; [done | done |].
  rewrite SetPosition_args_reconcile.
  destruct (Pos_applies force p (last (win m))); [| reflexivity].
  unfold resolved_Pos. rewrite Hpos, Hvm. cbn [fst snd Z.eqb Pos.eqb andb].
  by rewrite !centered_coordinate.
Qed.

Lemma C5_witness :
  exists m' C,
    useProps sample_props true (sample_machine 1) = Done tt m'
    /\ calls m' = C
    /\ SetPosition_args C = [(560, 240)].
Proof.
  destruct (C5_centered_position sample_props true (sample_machine 1) 1920 1080)
    as (m' & C & Hrun & Hk & Hpos);
    [reflexivity | reflexivity | reflexivity
     | unfold int_range, int_bits; lia | unfold int_range, int_bits; lia
     | unfold int_range, int_bits; simpl; lia | unfold int_range, int_bits; simpl; lia |].
  exists m', C. split_and!; [exact Hrun | exact Hk | exact Hpos].
Defined.

Lemma ceiling_unique (n k z z' : Z) :
  0 < k -> (z - 1) * k < n <= z * k -> (z' - 1) * k < n <= z' * k -> z = z'.
Proof. intros Hk H H'. nia. Qed.

(** [int_of_Ceil] gives the ceiling of a rate that is a number, when the
    ceiling fits an [int]. *)
Lemma int_of_Ceil_ceiling x z :
  is_ceiling (Prim2SF x) z -> int_range z -> int_of_Ceil x = z.
Proof.
  unfold int_of_Ceil, is_ceiling, int_range. intros Hz Hr.
  assert (ceil_SF (Prim2SF x) = Some z) as ->.
  { destruct (Prim2SF x) as [s | s | | s mant e] eqn:E; try done.
    - by subst z.
    - pose proof (ceil_SF_finite s mant e _ eq_refl) as Hc. cbn zeta in Hz, Hc.
      cbn [ceil_SF]. f_equal.
      destruct (0 <=? e) eqn:He; [by subst z |].
      apply Z.leb_gt in He.
      symmetry. eapply (ceiling_unique _ (2 ^ (- e))); [| exact Hz | exact Hc].
      apply Z.pow_pos_nonneg; lia. }
  destruct (Z.leb_spec (- 2 ^ (int_bits - 1)) z); [| lia].
  destruct (Z.ltb_spec z (2 ^ (int_bits - 1))); [reflexivity | lia].
Qed.

(** C6. [updateTitle] gives the native window the requested title with
    its first ["{FPS}"] replaced by the ceiling of the frame rate, in
    decimal, followed by ["FPS"]: whenever the measured rate is a number
    and [z] is the least integer not below it (and fits an [int]), the
    number substituted is [z]. The main loop does so at every tick of
    its timer, whatever else happened: a tick makes exactly this one
    native call and leaves the window as it is. *)
Theorem C6_title_on_every_tick (m : Machine) (inbox : list Msg) :
  holding (mu (win m)) = NoLock ->
  let fps := pretty (int_of_Ceil (FrameRate (renderer (win m)))) +:+ "FPS" in
  exists m' title,
    (Lock;; updateTitle;; Unlock) m = Done tt m'
    /\ mainLoop (UpdateFPS :: inbox) m = mainLoop inbox m'
    /\ win m' = win m
    /\ calls m' = calls m ++ [glfw.SetTitle title]
    /\ title = Replace 1 (Title (props (win m))) "{FPS}" fps
    /\ (forall pre post,
          has_byte "{" pre = false ->
          Title (props (win m)) = pre +:+ "{FPS}" +:+ post ->
          title = pre +:+ fps +:+ post)
    /\ (forall z,
          is_ceiling (Prim2SF (FrameRate (renderer (win m)))) z ->
          int_range z ->
          title = Replace 1 (Title (props (win m))) "{FPS}" (pretty z +:+ "FPS")
          /\ forall pre post,
               has_byte "{" pre = false ->
               Title (props (win m)) = pre +:+ "{FPS}" +:+ post ->
               title = pre +:+ (pretty z +:+ "FPS") +:+ post).
Proof.
  intros Hfree fps.
  destruct (updateTitle_tick m Hfree) as (m' & Hrun & Hw & _ & Hk).
  exists m', (applied_title (props (win m)) (renderer (win m))).
  split_and!; [exact Hrun | | exact Hw | exact Hk | reflexivity | |].
  - cbn [mainLoop].
    change ((Lock;; updateTitle;; Unlock;; mainLoop inbox) m = mainLoop inbox m').
    revert Hrun. unfold mbind, M_bind.
    destruct (Lock m) as [[] m1 | | |]; try discriminate.
    destruct (updateTitle m1) as [[] m2 | | |]; try discriminate.
    destruct (Unlock m2) as [[] m3 | | |]; try discriminate.
    by intros [= ->].
  - intros pre post Hb Ht. unfold applied_title. rewrite Ht.
    apply Replace_first. exact Hb.
  - intros z Hz Hr. unfold applied_title, Sprintf_d_FPS.
    rewrite (int_of_Ceil_ceiling _ z Hz Hr). split; [reflexivity |].
    intros pre post Hb Ht. rewrite Ht. apply Replace_first. exact Hb.
Qed.

Lemma C6_witness :
  (exists m',
      (Lock;; updateTitle;; Unlock) (sample_machine 1) = Done tt m'
      /\ Title (props (win (sample_machine 1))) = "Game {FPS}"
      /\ int_of_Ceil (FrameRate (renderer (win (sample_machine 1)))) = 42
      /\ calls m' = [glfw.SetTitle "Game 42FPS"])
  /\ (exists m',
        (Lock;; updateTitle;; Unlock) fractional_machine = Done tt m'
        /\ FrameRate (renderer (win fractional_machine)) = 41.5%float
        /\ is_ceiling (Prim2SF 41.5%float) 42
        /\ calls m' = [glfw.SetTitle "Game 42FPS"]).
Proof.
  assert (is_ceiling (Prim2SF 41.5%float) 42) as Hc by (vm_compute; split; [reflexivity | discriminate]).
  assert (int_range 42) as Hr by (unfold int_range, int_bits; lia).
  split.
  - destruct (C6_title_on_every_tick (sample_machine 1) [])
      as (m' & title & Hrun & _ & _ & Hk & Ht & _); [reflexivity |].
    exists m'. split_and!; [exact Hrun | reflexivity | reflexivity |].
    rewrite Hk, Ht. reflexivity.
  - destruct (C6_title_on_every_tick fractional_machine [])
      as (m' & title & Hrun & _ & _ & Hk & _ & _ & Hz); [reflexivity |].
    destruct (Hz 42 Hc Hr) as [Ht _].
    exists m'. split_and!; [exact Hrun | reflexivity | exact Hc |].
    rewrite Hk, Ht. reflexivity.
Defined.

(** C7. The vsync block of [useProps], when it applies (forced, or
    [last] holds another vsync), calls [SwapInterval] once, with the
    interval decided at that moment from the requested vsync and the two
    extension flags of the window: [-1] when vsync is requested and one of
    [WGL_EXT_swap_control_tear], [GLX_EXT_swap_control_tear] is
    supported, [1] when vsync is requested and neither is, [0] when vsync
    is not requested. When it does not apply, [SwapInterval] is not
    called. The flags are not changed by [useProps]; they are what
    [glfw.ExtensionSupported] answered when [doRun] built the window,
    whose first, forced, [useProps] already decides by them. *)
Theorem C7_vsync_swap_interval (p : Props) (force : bool) (m : Machine) :
  holding (mu (win m)) = NoLock ->
  let wgl := extWGLEXTSwapControlTear (win m) in
  let glx := extGLXEXTSwapControlTear (win m) in
  let interval :=
    if VSync p then (if wgl || glx then -1 else 1) else 0 in
  (exists m' C,
      useProps p force m = Done tt m'
      /\ calls m' = calls m ++ C
      /\ SwapInterval_args C
         = (if force || negb (Bool.eqb (VSync (last (win m))) (VSync p))
            then [interval] else [])
      /\ extWGLEXTSwapControlTear (win m') = wgl
      /\ extGLXEXTSwapControlTear (win m') = glx)
  /\ (forall NewProps n f mon r,
        Init_ok n = true -> CreateAssets_ok n = true -> PrimaryMonitor n = Some mon ->
        CreateWindow_ok n = true -> NewRenderer n = Some r ->
        let wgl0 := ExtensionSupported n "WGL_EXT_swap_control_tear" in
        let glx0 := ExtensionSupported n "GLX_EXT_swap_control_tear" in
        exists m' C,
          doRun NewProps n f p [Shutdown] m = Done tt m'
          /\ calls m' = calls m ++ C
          /\ SwapInterval_args C
             = [if VSync p then (if wgl0 || glx0 then -1 else 1) else 0]
          /\ extWGLEXTSwapControlTear (win m') = wgl0
          /\ extGLXEXTSwapControlTear (win m') = glx0).
Proof.
  intros Hfree wgl glx interval. split.
  - destruct (useProps_spec p force m Hfree) as (m' & Hrun & Hw & _ & Hk & _).
    exists m', (reconcile_calls force (win m) p). split_and!; [done | done | | |].
    + rewrite SwapInterval_args_reconcile. reflexivity.
    + rewrite Hw. reflexivity.
    + rewrite Hw. reflexivity.
  - intros NewProps n f mon r H1 H2 H3 H4 H5 wgl0 glx0.
    destruct (doRun_first_SwapInterval NewProps n f p m mon r H1 H2 H3 H4 H5)
      as ([] & m' & Hrun & (C & Hk & Hs) & Hwgl & Hglx).
    exists m', C. split_and!; done.
Qed.

Lemma C7_witness :
  exists m' C,
    useProps sample_props true (sample_machine 1) = Done tt m'
    /\ calls m' = C
    /\ SwapInterval_args C = [1].
Proof.
  destruct (C7_vsync_swap_interval sample_props true (sample_machine 1))
    as [(m' & C & Hrun & Hk & Hswap & _) _]; [reflexivity |].
  exists m', C. split_and!; [exact Hrun | exact Hk | exact Hswap].
Defined.

(** C8 (as amended). [Props()] reads the requested property set under
    the read lock. [useProps] makes every access to the requested and the
    last property set under the write lock (it gives the lock up only
    around calls into the native library). The callbacks that store what
    the native window reports return, and make every access, writes
    included, under the read lock. *)
Theorem C8_lock_discipline :
  (forall m, writer (mu (win m)) = false ->
     exists m', GetProps m = Done (props (win m)) m'
       /\ mu (win m') = mu (win m)
       /\ audit m' = audit m ++ [{| target := Requested; writes := false;
                                    held := ReadLock |}])
  /\ (forall p force m, holding (mu (win m)) = NoLock ->
        exists m' A, useProps p force m = Done tt m'
          /\ mu (win m') = mu (win m)
          /\ audit m' = audit m ++ A
          /\ Forall write_locked A)
  /\ (forall e now, under_read_lock (dispatch e now)).
Proof.
  split_and!.
  - intros m Hw. open_unlocked m Hw.
    unfold GetProps, load_props, RLock, RUnlock. mrun. cbn.
    eexists. split_and!; reflexivity.
  - intros p force m Hfree.
    destruct (useProps_spec p force m Hfree) as (m' & Hrun & Hw & _ & _ & A & Ha & HA).
    exists m', A. split_and!; [done | by rewrite Hw | done | done].
  - intros [b | b | x y | w h | w h | x y] now; cbn [dispatch].
    + apply IconifyCallback_locks.
    + apply FocusCallback_locks.
    + apply PositionCallback_locks.
    + apply SizeCallback_locks.
    + apply FramebufferSizeCallback_locks.
    + apply CursorPositionCallback_locks.
Qed.

Lemma C8_witness :
  exists m' A,
    dispatch (RawIconify true) 0 (sample_machine 1) = Done tt m'
    /\ audit m' = A
    /\ Forall read_locked A.
Proof.
  destruct C8_lock_discipline as (_ & _ & Hcb).
  destruct (Hcb (RawIconify true) 0 (sample_machine 1)) as (m' & A & Hrun & _ & Ha & HA);
    [reflexivity |].
  exists m', A. split_and!; [exact Hrun | exact Ha | exact HA].
Defined.

(** C8 as stated fails: the iconify callback writes both property sets
    while it holds the read lock, not the write lock. *)
Lemma C8_counterexample :
  run_audit (IconifyCallback true 0) (sample_machine 1)
  = Some [{| target := Last; writes := true; held := ReadLock |};
          {| target := Requested; writes := true; held := ReadLock |}].
Proof. vm_compute. reflexivity. Qed.

(** C9. [doInit] with the flag set returns nil and does nothing;
    [doExit] with the flag clear returns nil and does nothing; when
    [doInit] returns nil the flag is set, and when [doExit] returns nil the
    flag is clear. From a clear flag and a native side without errors,
    [doInit] does return nil, and leaves the asset loader running; from a
    set flag, a running asset loader and a native side without errors, so
    does [doExit], after which the loader is gone. With the flag set and
    no asset loader running, which is how a [doExit] that failed on the
    asset window leaves things, [doExit] does not return at all. *)
Theorem C9_init_exit_idempotent (n : glfwinit.Native) (s : glfwinit.State) :
  (glfwinit.glfwInit s = true -> glfwinit.doInit n s = (None, s))
  /\ (glfwinit.glfwInit s = false -> glfwinit.doExit n s = glfwinit.Returned None s)
  /\ (forall s', glfwinit.doInit n s = (None, s') -> glfwinit.glfwInit s' = true)
  /\ (forall s', glfwinit.doExit n s = glfwinit.Returned None s' ->
                 glfwinit.glfwInit s' = false)
  /\ (glfwinit.glfwInit s = false ->
      glfwinit.Init_err n = None -> glfwinit.WindowHint_err n = None ->
      glfwinit.CreateWindow_err n = None -> glfwinit.glfwNewDevice_err n = None ->
      exists s', glfwinit.doInit n s = (None, s')
                 /\ glfwinit.loader s' = true
                 /\ glfwinit.trace s'
                    = glfwinit.trace s
                      ++ [glfwinit.Init; glfwinit.WindowHint_Visible_0;
                          glfwinit.CreateWindow_assets; glfwinit.MakeContextCurrent;
                          glfwinit.glfwNewDevice; glfwinit.DetachCurrentContext;
                          glfwinit.go_assetLoader; glfwinit.go_pollEvents])
  /\ (glfwinit.glfwInit s = true -> glfwinit.loader s = true ->
      glfwinit.Window_Destroy_err n = None -> glfwinit.Terminate_err n = None ->
      exists s', glfwinit.doExit n s = glfwinit.Returned None s'
                 /\ glfwinit.loader s' = false
                 /\ glfwinit.trace s'
                    = glfwinit.trace s
                      ++ [glfwinit.asset_exit_send; glfwinit.Device_Destroy;
                          glfwinit.DetachCurrentContext; glfwinit.Window_Destroy;
                          glfwinit.UnlockOSThread; glfwinit.asset_exit_receive;
                          glfwinit.pollerExit_send; glfwinit.Terminate])
  /\ (glfwinit.glfwInit s = true -> glfwinit.loader s = false ->
      glfwinit.doExit n s = glfwinit.Parked s).
Proof.
  destruct s as [flag ld tr], n as [e1 e2 e3 e4 e5 e6].
  unfold glfwinit.doInit, glfwinit.doExit, glfwinit.assetLoader_exit,
    glfwinit.call, glfwinit.set_glfwInit, glfwinit.set_loader.
  cbn [glfwinit.glfwInit glfwinit.loader glfwinit.trace glfwinit.Init_err
       glfwinit.WindowHint_err glfwinit.CreateWindow_err glfwinit.glfwNewDevice_err
       glfwinit.Window_Destroy_err glfwinit.Terminate_err].
  split_and!.
  - by intros ->.
  - by intros ->.
  - intros s'. destruct flag; cbn.
    + by intros [= <-].
    + destruct e1, e2, e3, e4; intros [= <-]; reflexivity.
  - intros s'. destruct flag; cbn.
    + destruct ld; cbn; [| discriminate].
      destruct e5, e6; intros [= <-]; reflexivity.
    + by intros [= <-].
  - intros -> -> -> -> ->. cbn. eexists. split; [reflexivity |].
    cbn. split; [reflexivity |]. rewrite <- !app_assoc. reflexivity.
  - intros -> -> -> ->. cbn. eexists. split; [reflexivity |].
    cbn. split; [reflexivity |]. rewrite <- !app_assoc. reflexivity.
  - intros -> ->. reflexivity.
Qed.

Lemma C9_witness :
  exists s1 s2,
    glfwinit.doInit glfwinit_ok
      {| glfwinit.glfwInit := false; glfwinit.loader := false; glfwinit.trace := [] |}
    = (None, s1)
    /\ glfwinit.glfwInit s1 = true
    /\ glfwinit.doInit glfwinit_ok s1 = (None, s1)
    /\ glfwinit.doExit glfwinit_ok s1 = glfwinit.Returned None s2
    /\ glfwinit.glfwInit s2 = false
    /\ glfwinit.doExit glfwinit_ok s2 = glfwinit.Returned None s2.
Proof.
  pose proof (C9_init_exit_idempotent glfwinit_ok
                {| glfwinit.glfwInit := false; glfwinit.loader := false;
                   glfwinit.trace := [] |})
    as (_ & _ & Hset & _ & Hinit & _).
  destruct Hinit as (s1 & Hrun1 & Hld1 & _); try reflexivity.
  pose proof (C9_init_exit_idempotent glfwinit_ok s1)
    as (Hagain & _ & _ & Hclear & _ & Hexit & _).
  pose proof (Hset s1 Hrun1) as Hflag.
  destruct (Hexit Hflag Hld1) as (s2 & Hrun2 & _); try reflexivity.
  pose proof (C9_init_exit_idempotent glfwinit_ok s2) as (_ & Hnoop & _).
  exists s1, s2.
  split_and!; [exact Hrun1 | exact Hflag | exact (Hagain Hflag) | exact Hrun2
              | exact (Hclear s2 Hrun2) | exact (Hnoop (Hclear s2 Hrun2))].
Defined.

(** C10. [Run] with a nil graphics loop panics with the message
    ["window: nil graphics loop function!"]; by then it has locked the OS
    thread, and the deferred call unlocks it: nothing of GLFW has been
    called and the window is untouched. With a graphics loop and nil
    properties, [Run] goes on as with the properties [NewProps()] gives. *)
Theorem C10_Run_nil_arguments (NewProps : Props) (n : Native) (p : option Props)
    (gfxLoop : option GfxLoop) (inbox : list Msg) (m : Machine) :
  Run NewProps n None p inbox m
  = Panic "window: nil graphics loop function!"
      {| win := win m; chans := chans m;
         calls := calls m ++ [glfw.LockOSThread; glfw.UnlockOSThread];
         audit := audit m |}
  /\ Run NewProps n gfxLoop None inbox m = Run NewProps n gfxLoop (Some NewProps) inbox m
  /\ (forall f, Run NewProps n (Some f) None inbox m
                = (native glfw.LockOSThread;;
                   defer (native glfw.UnlockOSThread) (doRun NewProps n f NewProps inbox)) m).
Proof.
  split_and!.
  - unfold Run, defer. mrun. cbn. rewrite <- app_assoc. reflexivity.
  - reflexivity.
  - reflexivity.
Qed.

(** * Further properties of the code *)

(** ** Looking a channel up *)

Lemma find_from_first l c i :
  find_from l c i <> -1 -> 0 <= i ->
  exists A x B, l = A ++ x :: B /\ ch x = c
    /\ Forall (fun nf => ch nf <> c) A
    /\ find_from l c i = i + Z.of_nat (length A).
Proof.
  revert i. induction l as [| nf l IH]; intros i Hf Hi; cbn in *; [done |].
  destruct (ch nf =? c)%nat eqn:E.
  - apply Nat.eqb_eq in E. exists [], nf, l. cbn. split_and!; first [done | constructor | lia].
  - apply Nat.eqb_neq in E.
    destruct (IH (i + 1) Hf ltac:(lia)) as (A & x & B & -> & Hx & HA & Hi').
    exists (nf :: A), x, B. cbn [length app]. split_and!; first [done | by constructor | lia].
Qed.

(** X2. [findNotifier] returns [-1] exactly when no notifier of the
    window is for the channel; otherwise it returns the index of the
    first notifier for it. It changes nothing. *)
Theorem findNotifier_first_or_none (c : chan) (m : Machine) :
  exists idx, findNotifier c m = Done idx m
    /\ ((idx = -1 /\ Forall (fun nf => ch nf <> c) (elems (notifiers (win m))))
        \/ (exists A x B, elems (notifiers (win m)) = A ++ x :: B
              /\ ch x = c
              /\ Forall (fun nf => ch nf <> c) A
              /\ idx = Z.of_nat (length A))).
Proof.
  exists (find_from (elems (notifiers (win m))) c 0). split; [reflexivity |].
  destruct (Z.eq_dec (find_from (elems (notifiers (win m))) c 0) (-1)) as [E | E].
  - left. split; [done |]. by apply (find_from_none_inv _ c 0).
  - right. destruct (find_from_first _ c 0 E ltac:(lia)) as (A & x & B & Hl & Hx & HA & Hi).
    exists A, x, B. split_and!; first [done | lia].
Qed.

(** ** Subscribing, publishing, unsubscribing *)

Lemma holding_WriteLock l : holding l = WriteLock -> writer l = true.
Proof. destruct l as [[] []]; cbn; intros; try discriminate; done. Qed.

Lemma Lock_held m : holding (mu (win m)) = WriteLock -> Lock m = Blocked m.
Proof. intros H. unfold Lock. by rewrite H. Qed.

Lemma RLock_held m : holding (mu (win m)) = WriteLock -> RLock m = Blocked m.
Proof. intros H. unfold RLock. by rewrite (holding_WriteLock _ H). Qed.

(** X3. A channel subscribed once and then unsubscribed: the
    subscription succeeds, and [Notify(c, NoEvents)] panics instead of
    removing it, whatever other notifiers the window has. [Notify] does
    not give the write lock back on the way out, so every method that
    takes the mutex afterwards waits for ever. *)
Theorem Notify_once_then_unsubscribe (c : chan) (msk : EventMask) (m : Machine) :
  holding (mu (win m)) = NoLock ->
  slice_ok (notifiers (win m)) ->
  msk <> NoEvents ->
  exists m1 m2,
    Notify c msk m = Done tt m1
    /\ Notify c NoEvents m1 = Panic "runtime error: slice bounds out of range" m2
    /\ holding (mu (win m2)) = WriteLock
    /\ (forall ev evt, sendEvent ev evt m2 = Blocked m2)
    /\ (forall c' msk', Notify c' msk' m2 = Blocked m2)
    /\ (forall p force, useProps p force m2 = Blocked m2)
    /\ GetProps m2 = Blocked m2.
Proof.
  intros Hfree Hok Hmsk.
  destruct (Notify_subscribe c msk m Hfree Hmsk) as (m1 & Hr1 & Hn1 & Hf1 & _).
  destruct (elems_append (notifiers (win m)) {| mask := msk; ch := c |} Hok) as [_ Hok1].
  pose proof (last_is_for_append _ {| mask := msk; ch := c |} Hok) as Hlast.
  rewrite <- Hn1 in Hok1, Hlast. cbn [ch] in Hlast.
  destruct (Notify_NoEvents_panics c m1 Hf1 Hok1 Hlast) as (m2 & Hr2 & Hheld).
  exists m1, m2. split_and!; [done | done | done | | | |].
  - intros ev evt. unfold sendEvent. mrun. by rewrite (RLock_held _ Hheld).
  - intros c' msk'. unfold Notify. mrun. by rewrite (Lock_held _ Hheld).
  - intros p force. unfold useProps. mrun. by rewrite (Lock_held _ Hheld).
  - unfold GetProps. mrun. by rewrite (RLock_held _ Hheld).
Qed.

Lemma Notify_once_then_unsubscribe_witness :
  exists m1 m2,
    Notify 1%nat CloseEvents (sample_machine 4) = Done tt m1
    /\ Notify 1%nat NoEvents m1 = Panic "runtime error: slice bounds out of range" m2
    /\ sendEvent (Close 5) CloseEvents m2 = Blocked m2.
Proof.
  destruct (Notify_once_then_unsubscribe 1%nat CloseEvents (sample_machine 4))
    as (m1 & m2 & H1 & H2 & _ & H3 & _).
  - reflexivity.
  - unfold slice_ok. simpl. lia.
  - discriminate.
  - exists m1, m2. split_and!; [exact H1 | exact H2 | apply H3].
Defined.

(** X4. Subscribing and then publishing: the new notifier goes after
    the ones the window has, the channel gets the event once more than
    its earlier notifiers account for exactly when the new mask and the
    event's mask have a bit in common, and the other channels get what
    they would have got without the subscription. *)
Theorem Notify_then_sendEvent (c : chan) (msk evt : EventMask) (ev : Event) (m : Machine) :
  holding (mu (win m)) = NoLock ->
  slice_ok (notifiers (win m)) ->
  msk <> NoEvents ->
  c <> nil_chan ->
  exists m1 m2,
    Notify c msk m = Done tt m1
    /\ sendEvent ev evt m1 = Done tt m2
    /\ elems (notifiers (win m2))
       = elems (notifiers (win m)) ++ [{| mask := msk; ch := c |}]
    /\ chans m2 !! c
       = delivered (deliveries c evt (elems (notifiers (win m)))
                    + (if Z.land msk evt =? 0 then 0%nat else 1%nat)) ev <$> chans m !! c
    /\ (forall c', c' <> c -> c' <> nil_chan ->
          chans m2 !! c'
          = delivered (deliveries c' evt (elems (notifiers (win m)))) ev <$> chans m !! c').
Proof.
  intros Hfree Hok Hmsk Hc.
  destruct (Notify_subscribe c msk m Hfree Hmsk) as (m1 & Hr1 & Hn1 & Hf1 & Hc1 & _).
  destruct (elems_append (notifiers (win m)) {| mask := msk; ch := c |} Hok) as [He1 _].
  rewrite <- Hn1 in He1.
  apply holding_NoLock in Hf1 as [Hw1 _].
  destruct (sendEvent_spec ev evt m1 Hw1) as (m2 & Hr2 & Hwin2 & _ & _ & Hch2 & _).
  exists m1, m2. split_and!; [done | done | by rewrite Hwin2 | |].
  - rewrite Hch2 by done. rewrite Hc1, He1, deliveries_app.
    cbn [deliveries ch mask]. cbn zeta. rewrite Nat.eqb_refl. cbn [andb].
    destruct (Z.land msk evt =? 0); cbn [negb]; reflexivity.
  - intros c' Hne Hnil. rewrite Hch2 by done. rewrite Hc1, He1, deliveries_app.
    cbn [deliveries ch mask]. cbn zeta.
    destruct (Nat.eqb_spec c c') as [-> | _]; [done |]. cbn [andb].
    by rewrite !Nat.add_0_r.
Qed.

Lemma Notify_then_sendEvent_witness :
  exists m1 m2,
    Notify 1%nat CloseEvents (sample_machine 4) = Done tt m1
    /\ sendEvent (Close 5) AllEvents m1 = Done tt m2
    /\ chans m2 !! 1%nat = Some {| cap := 4; buf := [Close 5] |}.
Proof.
  destruct (Notify_then_sendEvent 1%nat CloseEvents AllEvents (Close 5) (sample_machine 4))
    as (m1 & m2 & H1 & H2 & _ & H3 & _).
  - reflexivity.
  - unfold slice_ok. simpl. lia.
  - discriminate.
  - discriminate.
  - exists m1, m2. split_and!; [exact H1 | exact H2 | exact H3].
Defined.

(** X5. Two events published one after the other reach a channel in
    that order, behind what the channel already holds: each as many times
    as notifiers of the channel match it, as far as there is room left. *)
Theorem sendEvent_twice_in_order (ev1 ev2 : Event) (evt1 evt2 : EventMask)
    (c : chan) (q : Chan) (m : Machine) :
  writer (mu (win m)) = false ->
  c <> nil_chan ->
  chans m !! c = Some q ->
  exists m2 n1 n2,
    (sendEvent ev1 evt1;; sendEvent ev2 evt2) m = Done tt m2
    /\ chans m2 !! c
       = Some {| cap := cap q; buf := buf q ++ replicate n1 ev1 ++ replicate n2 ev2 |}
    /\ n1 = Nat.min (deliveries c evt1 (elems (notifiers (win m))))
                    (cap q - length (buf q))
    /\ n2 = Nat.min (deliveries c evt2 (elems (notifiers (win m))))
                    (cap q - length (buf q) - n1)
    /\ win m2 = win m.
Proof.
  intros Hw Hc Hq.
  destruct (sendEvent_spec ev1 evt1 m Hw) as (m1 & Hr1 & Hwin1 & _ & _ & Hch1 & _).
  assert (writer (mu (win m1)) = false) as Hw1 by (by rewrite Hwin1).
  destruct (sendEvent_spec ev2 evt2 m1 Hw1) as (m2 & Hr2 & Hwin2 & _ & _ & Hch2 & _).
  exists m2. do 2 eexists. split_and!; [| | reflexivity | reflexivity | by rewrite Hwin2].
  - eapply bind_run; [exact Hr1 | exact Hr2].
  - rewrite Hch2 by done. rewrite Hch1 by done. rewrite Hq, Hwin1.
    cbn [fmap option_fmap option_map]. unfold delivered. cbn [cap buf].
    rewrite length_app, length_replicate, <- app_assoc, Nat.sub_add_distr.
    reflexivity.
Qed.

Lemma sendEvent_twice_in_order_witness :
  exists m2,
    (sendEvent (Close 5) CloseEvents;; sendEvent (Damaged 6) DamagedEvents) shared_machine
    = Done tt m2
    /\ deliveries 1%nat CloseEvents (elems (notifiers (win shared_machine))) = 2%nat
    /\ deliveries 1%nat DamagedEvents (elems (notifiers (win shared_machine))) = 1%nat
    /\ chans m2 !! 1%nat = Some {| cap := 4; buf := [Close 5; Close 5; Damaged 6] |}.
Proof.
  destruct (sendEvent_twice_in_order (Close 5) (Damaged 6) CloseEvents DamagedEvents 1%nat
              {| cap := 4; buf := [] |} shared_machine)
    as (m2 & n1 & n2 & Hr & Hch & -> & -> & _).
  - reflexivity.
  - discriminate.
  - reflexivity.
  - exists m2. split_and!; [exact Hr | reflexivity | reflexivity | exact Hch].
Defined.

(** ** What the callbacks record and publish *)

Ltac callback_done :=
  match goal with
  | Hrun : sendEvent _ _ _ = Done tt ?m', Hwin : win ?m' = _, Hk : calls ?m' = _,
    Hch : forall c, c <> nil_chan -> _, Hch0 : _ !! nil_chan = _ |- _ =>
      exists m'; split_and!;
      [ reflexivity
      | rewrite Hwin; reflexivity
      | rewrite Hk; cbn; rewrite ?app_nil_r; reflexivity
      | let c := fresh "c" in
        let Hc := fresh "Hc" in
        intros c Hc; rewrite (Hch c Hc); reflexivity
      | rewrite Hch0; reflexivity ]
  end.

Lemma dispatch_spec e now m :
  writer (mu (win m)) = false ->
  exists m', dispatch e now m = Done tt m'
    /\ win m' = recorded e (win m)
    /\ calls m' = calls m ++ callback_calls e
    /\ (forall c, c <> nil_chan ->
          chans m' !! c = after_callback e now (win m) c <$> chans m !! c)
    /\ chans m' !! nil_chan = chans m !! nil_chan.
Proof.
  intros Hw. open_unlocked m Hw.
  destruct e as [b | b | x y | width height | width height | x y]; cbn [dispatch].
  1-5: unfold IconifyCallback, FocusCallback, PositionCallback, SizeCallback,
         FramebufferSizeCallback, store_last, store_props, load_props, RLock, RUnlock,
         modify, native;
       mrun; cbn; try destruct b; publish_last; callback_done.
  unfold CursorPositionCallback, store_last, store_props, load_props, RLock, RUnlock.
  mrun. cbn. unfold after_callback, published, recorded. cbn [props win lastCursorX lastCursorY].
  destruct (CursorGrabbed _); cbn.
  - match goal with |- context [if ?b then _ else _] => destruct b eqn:Hs end; cbn.
    + eexists. split_and!; try reflexivity.
      * by rewrite app_nil_r.
      * intros c _. by destruct (_ !! c).
    + publish_last. callback_done.
  - publish_last. callback_done.
Qed.

Lemma recorded_mu e w : mu (recorded e w) = mu w.
Proof. destruct e; cbn; try reflexivity. by destruct (CursorGrabbed _). Qed.

Lemma recorded_notifiers e w : notifiers (recorded e w) = notifiers w.
Proof. destruct e; cbn; try reflexivity. by destruct (CursorGrabbed _). Qed.

(** X6. A callback of the native window, run by a goroutine that does
    not hold the write lock, returns and gives the mutex back. It writes
    what the window reports into both [props] and [last] (a cursor sample
    of a grabbed cursor into the baseline instead), calls nothing native
    but [UpdateBounds] for a new framebuffer size, keeps the notifiers,
    and publishes one event of its own kind under its own mask: every
    channel gets it once per matching notifier, as far as it has room. *)
Theorem dispatch_records_and_publishes (e : RawEvent) (now : Time) (m : Machine) :
  writer (mu (win m)) = false ->
  exists m', dispatch e now m = Done tt m'
    /\ win m' = recorded e (win m)
    /\ mu (win m') = mu (win m)
    /\ notifiers (win m') = notifiers (win m)
    /\ calls m' = calls m ++ callback_calls e
    /\ (forall c q, c <> nil_chan -> chans m !! c = Some q ->
          chans m' !! c = Some (after_callback e now (win m) c q)).
Proof.
  intros Hw. destruct (dispatch_spec e now m Hw) as (m' & Hrun & Hwin & Hk & Hch & _).
  exists m'. split_and!; [done | done | | | done |].
  - rewrite Hwin. apply recorded_mu.
  - rewrite Hwin. apply recorded_notifiers.
  - intros c q Hc Hq. rewrite Hch by done. by rewrite Hq.
Qed.

Lemma dispatch_records_and_publishes_witness :
  exists m', dispatch (RawSize 640 480) 7 grab_machine = Done tt m'
    /\ Size (props (win m')) = (640, 480)
    /\ Size (last (win m')) = (640, 480)
    /\ chans m' !! 1%nat = Some {| cap := 4; buf := [] |}.
Proof.
  destruct (dispatch_records_and_publishes (RawSize 640 480) 7 grab_machine)
    as (m' & Hrun & Hwin & _ & _ & _ & Hch); [reflexivity |].
  exists m'. split_and!; [exact Hrun | by rewrite Hwin | by rewrite Hwin |].
  apply (Hch 1%nat {| cap := 4; buf := [] |}); [discriminate | reflexivity].
Defined.

(** ** The two property sets stay in step *)

Lemma recorded_in_step e w : in_step w -> is_number e -> in_step (recorded e w).
Proof.
  unfold in_step. intros (HS & HP & HC & HV & HM & HY & HG) Hn.
  destruct e as [b | b | x y | width height | width height | x y];
    cbn in *; try (split_and!; done).
  destruct Hn as [Hx Hy].
  destruct (CursorGrabbed (props w)) eqn:E; cbn; split_and!; try done; try congruence.
  unfold CursorPos_eq, feq. cbn. by rewrite Hx, Hy.
Qed.

Lemma SFeqb_left_refl a b : SFeqb a b = true -> SFeqb a a = true.
Proof.
  unfold SFeqb. destruct a as [sa | sa | | sa ma ea]; cbn.
  - done.
  - by destruct sa.
  - done.
  - intros _. rewrite Z.compare_refl, Pos.compare_cont_refl. by destruct sa.
Qed.

Lemma feq_left_refl a b : feq a b = true -> feq a a = true.
Proof. unfold feq. rewrite !FloatAxioms.eqb_spec. apply SFeqb_left_refl. Qed.

Lemma in_step_calls w :
  in_step w ->
  reconcile_calls false w (props w) = [glfw.SetTitle (applied_title (props w) (renderer w))].
Proof.
  intros (HS & HP & HC & HV & HM & HY & HG). unfold reconcile_calls. cbn zeta.
  rewrite Size_calls_same, Pos_calls_same, Visible_calls_same, Minimized_calls_same,
    VSync_calls_same, CursorGrabbed_calls_same by done.
  rewrite CursorPos_calls_same; [reflexivity | by right |].
  unfold CursorPos_eq in HC. apply andb_true_iff in HC as [Hx Hy].
  by rewrite (feq_left_refl _ _ Hx), (feq_left_refl _ _ Hy).
Qed.

(** X7. While [last] agrees with [props], a callback leaves them in
    agreement, whatever the window reports (a cursor position being a
    pair of numbers): requesting the window's own properties right
    after it sets the title and gives the native window nothing else to
    do. *)
Theorem dispatch_keeps_in_step (e : RawEvent) (now : Time) (m : Machine) :
  holding (mu (win m)) = NoLock ->
  in_step (win m) ->
  is_number e ->
  exists m1 m2,
    dispatch e now m = Done tt m1
    /\ in_step (win m1)
    /\ useProps (props (win m1)) false m1 = Done tt m2
    /\ calls m2
       = calls m1 ++ [glfw.SetTitle (applied_title (props (win m1)) (renderer (win m1)))]
    /\ chans m2 = chans m1.
Proof.
  intros Hfree Hstep Hn. apply holding_NoLock in Hfree as Hwr. destruct Hwr as [Hw _].
  destruct (dispatch_spec e now m Hw) as (m1 & Hr1 & Hwin1 & _).
  assert (in_step (win m1)) as Hstep1 by (rewrite Hwin1; by apply recorded_in_step).
  assert (holding (mu (win m1)) = NoLock) as Hfree1 by (by rewrite Hwin1, recorded_mu).
  destruct (useProps_spec (props (win m1)) false m1 Hfree1) as (m2 & Hr2 & _ & Hc2 & Hk2 & _).
  exists m1, m2. split_and!; [done | done | done | | done].
  rewrite Hk2. cbn [calls with_win]. by rewrite in_step_calls.
Qed.

Lemma dispatch_keeps_in_step_witness :
  exists m1 m2,
    dispatch (RawPosition 30 40) 7 (sample_machine 1) = Done tt m1
    /\ useProps (props (win m1)) false m1 = Done tt m2
    /\ calls m2 = [glfw.SetTitle "Game 42FPS"].
Proof.
  destruct (dispatch_keeps_in_step (RawPosition 30 40) 7 (sample_machine 1))
    as (m1 & m2 & H1 & _ & H2 & H3 & _).
  - reflexivity.
  - unfold in_step. split_and!; reflexivity.
  - exact I.
  - exists m1, m2. split_and!; [exact H1 | exact H2 |].
    rewrite H3. injection H1 as <-. reflexivity.
Defined.

(** ** Closing *)

Lemma CloseCallback_spec (now : Time) (shutdown : list bool) (m : Machine) :
  writer (mu (win m)) = false ->
  (ShouldClose (props (win m)) = true ->
     match shutdown with
     | [] => exists m', CloseCallback now shutdown m = Done [true] m'
                        /\ win m' = win m /\ chans m' = chans m /\ calls m' = calls m
     | _ :: _ => exists m', CloseCallback now shutdown m = Blocked m'
                            /\ win m' = win m /\ chans m' = chans m /\ calls m' = calls m
     end)
  /\ (ShouldClose (props (win m)) = false ->
        exists m', CloseCallback now shutdown m = Done shutdown m'
          /\ win m' = win m /\ calls m' = calls m
          /\ forall c, c <> nil_chan ->
               chans m' !! c
               = delivered (deliveries c CloseEvents (elems (notifiers (win m)))) (Close now)
                 <$> chans m !! c).
Proof.
  intros Hw. open_unlocked m Hw.
  unfold CloseCallback, GetProps, load_props, RLock, RUnlock. mrun. cbn.
  split; intros Hs; rewrite Hs.
  - destruct shutdown as [| b rest]; cbn; eexists; split_and!; reflexivity.
  - publish_last. cbn.
    match goal with
    | Hwin : win ?m' = _, Hk : calls ?m' = _, Hch : forall c, c <> nil_chan -> _ |- _ =>
        exists m'; split_and!;
        [ reflexivity | rewrite Hwin; reflexivity | rewrite Hk; reflexivity
        | intros c Hc; rewrite (Hch c Hc); reflexivity ]
    end.
Qed.

(** X8. The close callback, run by a goroutine that does not hold the
    write lock. When the properties say the window should close, it
    signals shutdown and publishes nothing, the window being left as it
    was; if a shutdown signal is already pending, the callback, that runs
    on the thread of the only receiver, waits for ever. When the
    properties do not say so, it signals nothing and publishes a [Close]
    event to the subscribers of close events. *)
Theorem CloseCallback_closes_or_publishes (now : Time) (shutdown : list bool) (m : Machine) :
  writer (mu (win m)) = false ->
  (ShouldClose (props (win m)) = true ->
     match shutdown with
     | [] => exists m', CloseCallback now shutdown m = Done [true] m'
                        /\ win m' = win m /\ chans m' = chans m /\ calls m' = calls m
     | _ :: _ => exists m', CloseCallback now shutdown m = Blocked m'
                            /\ win m' = win m /\ chans m' = chans m /\ calls m' = calls m
     end)
  /\ (ShouldClose (props (win m)) = false ->
        exists m', CloseCallback now shutdown m = Done shutdown m'
          /\ win m' = win m /\ calls m' = calls m
          /\ forall c, c <> nil_chan ->
               chans m' !! c
               = delivered (deliveries c CloseEvents (elems (notifiers (win m)))) (Close now)
                 <$> chans m !! c).
Proof. apply CloseCallback_spec. Qed.

Lemma CloseCallback_closes_or_publishes_witness :
  (exists m', CloseCallback 7 [] full_machine = Done [true] m'
              /\ chans m' = chans full_machine)
  /\ (exists m', CloseCallback 7 [true] full_machine = Blocked m').
Proof.
  destruct (CloseCallback_closes_or_publishes 7 [] full_machine eq_refl) as [H1 _].
  destruct (CloseCallback_closes_or_publishes 7 [true] full_machine eq_refl) as [H2 _].
  destruct (H1 eq_refl) as (m1 & Hr1 & _ & Hc1 & _).
  destruct (H2 eq_refl) as (m2 & Hr2 & _).
  split; [exists m1 | exists m2]; done.
Defined.

(** X9. The refresh, drop and cursor-enter callbacks, run by a
    goroutine that does not hold the write lock, leave the window and
    the native side alone and publish one event each: [Damaged],
    [ItemsDropped] with the items reported, and [CursorEnter] or
    [CursorExit], each under the mask of its own name. *)
Theorem publishing_callbacks (now : Time) (items : list string) (m : Machine) :
  writer (mu (win m)) = false ->
  let sent (cb : M unit) (ev : Event) (msk : EventMask) :=
    exists m', cb m = Done tt m'
      /\ win m' = win m /\ calls m' = calls m
      /\ forall c, c <> nil_chan ->
           chans m' !! c
           = delivered (deliveries c msk (elems (notifiers (win m)))) ev <$> chans m !! c in
  sent (RefreshCallback now) (Damaged now) DamagedEvents
  /\ sent (DropCallback items now) (ItemsDropped items now) ItemsDroppedEvents
  /\ sent (CursorEnterCallback true now) (CursorEnter now) CursorEnterEvents
  /\ sent (CursorEnterCallback false now) (CursorExit now) CursorExitEvents.
Proof.
  intros Hw sent. subst sent. cbn beta.
  unfold RefreshCallback, DropCallback, CursorEnterCallback.
  split_and!.
  all: match goal with
       | |- exists _, sendEvent ?ev ?msk ?mm = _ /\ _ =>
           destruct (sendEvent_spec ev msk mm Hw) as (m' & Hr & Hwin & Hk & _ & Hch & _);
           exists m'; split_and!; done
       end.
Qed.

Lemma publishing_callbacks_witness :
  (exists m', RefreshCallback 7 shared_machine = Done tt m'
     /\ chans m' !! 1%nat = Some {| cap := 4; buf := [Damaged 7] |})
  /\ (exists m', DropCallback ["a.txt"] 7 shared_machine = Done tt m'
        /\ chans m' !! 1%nat = Some {| cap := 4; buf := [ItemsDropped ["a.txt"] 7] |})
  /\ (exists m', CursorEnterCallback true 7 shared_machine = Done tt m'
        /\ chans m' !! 1%nat = Some {| cap := 4; buf := [CursorEnter 7] |})
  /\ (exists m', CursorEnterCallback false 7 shared_machine = Done tt m'
        /\ chans m' !! 1%nat = Some {| cap := 4; buf := [CursorExit 7] |}).
Proof.
  destruct (publishing_callbacks 7 ["a.txt"] shared_machine eq_refl)
    as ((m1 & Hr1 & _ & _ & Hc1) & (m2 & Hr2 & _ & _ & Hc2)
        & (m3 & Hr3 & _ & _ & Hc3) & (m4 & Hr4 & _ & _ & Hc4)).
  pose proof (Hc1 1%nat ltac:(discriminate)) as H1.
  pose proof (Hc2 1%nat ltac:(discriminate)) as H2.
  pose proof (Hc3 1%nat ltac:(discriminate)) as H3.
  pose proof (Hc4 1%nat ltac:(discriminate)) as H4.
  split_and!; [exists m1 | exists m2 | exists m3 | exists m4]; (split; [assumption |]).
  - exact H1.
  - exact H2.
  - exact H3.
  - exact H4.
Defined.

(** ** The main loop *)

Lemma bind_ext {A B} (c : M A) (k1 k2 : A -> M B) m :
  (forall a m1, k1 a m1 = k2 a m1) -> (c ≫= k1) m = (c ≫= k2) m.
Proof. intros H. unfold mbind, M_bind. destruct (c m); [apply H | done | done | done]. Qed.

Lemma bind_Done {A B} (c : M A) (k : A -> M B) m a m1 :
  c m = Done a m1 -> (c ≫= k) m = k a m1.
Proof. intros H. unfold mbind, M_bind. by rewrite H. Qed.

Lemma bind_Done_inv {A B} (c : M A) (k : A -> M B) m b m' :
  (c ≫= k) m = Done b m' -> exists a m1, c m = Done a m1 /\ k a m1 = Done b m'.
Proof.
  unfold mbind, M_bind. destruct (c m) as [a m1 | | |]; try discriminate.
  intros H. by exists a, m1.
Qed.

(** X10. The main loop stops at the shutdown signal: what its [select]
    would receive after it is never looked at. *)
Theorem mainLoop_stops_at_Shutdown (pre rest : list Msg) (m : Machine) :
  mainLoop (pre ++ Shutdown :: rest) m = mainLoop (pre ++ [Shutdown]) m.
Proof.
  revert m. induction pre as [| msg pre IH]; intros m; [reflexivity |].
  destruct msg as [| | fn | renderedFrame rate events]; cbn [app mainLoop].
  - do 3 (apply bind_ext; intros ? ?). apply IH.
  - reflexivity.
  - apply bind_ext; intros ? ?. apply IH.
  - do 2 (apply bind_ext; intros ? ?). apply IH.
Qed.

(** X11. The main loop returns only by the shutdown signal: if it
    returns, the signal was among the messages, and the last things done
    were to stop the loader and to destroy the native window, in that
    order. *)
Theorem mainLoop_returns_by_Shutdown (inbox : list Msg) (m m' : Machine) :
  mainLoop inbox m = Done tt m' ->
  existsb is_Shutdown inbox = true
  /\ exists C, calls m' = C ++ [glfw.LoaderShutdown; glfw.Destroy].
Proof.
  revert m. induction inbox as [| msg inbox IH]; intros m H; [discriminate |].
  destruct msg as [| | fn | renderedFrame rate events]; cbn [mainLoop existsb is_Shutdown orb] in *.
  - do 3 (apply bind_Done_inv in H as (? & ? & _ & H)). by apply IH in H.
  - split; [done |]. injection H as <-. cbn. exists (calls m). by rewrite <- app_assoc.
  - apply bind_Done_inv in H as (? & ? & _ & H). by apply IH in H.
  - do 2 (apply bind_Done_inv in H as (? & ? & _ & H)). by apply IH in H.
Qed.

Lemma mainLoop_returns_by_Shutdown_witness :
  exists m', mainLoop [UpdateFPS; Shutdown; UpdateFPS] (sample_machine 1) = Done tt m'
    /\ exists C, calls m' = C ++ [glfw.LoaderShutdown; glfw.Destroy].
Proof.
  eexists. split; [reflexivity |].
  eapply (mainLoop_returns_by_Shutdown [UpdateFPS; Shutdown; UpdateFPS] (sample_machine 1)).
  reflexivity.
Defined.

Lemma useProps_in_step p force m :
  holding (mu (win m)) = NoLock ->
  numeric (CursorPos p) ->
  exists m', useProps p force m = Done tt m'
    /\ in_step (win m')
    /\ props (win m') = p
    /\ holding (mu (win m')) = NoLock
    /\ notifiers (win m') = notifiers (win m)
    /\ chans m' = chans m
    /\ exists C, calls m' = calls m ++ C.
Proof.
  intros Hfree [Hx Hy].
  destruct (useProps_spec p force m Hfree) as (m' & Hrun & Hw & Hc & Hk & _).
  exists m'. rewrite Hw.
  cbn [win with_win set_last set_lastCursor set_props props last mu notifiers].
  split_and!; try done; [| by eexists].
  unfold in_step. cbn [last props set_last set_lastCursor set_props].
  split_and!.
  - apply reconcile_last_Size.
  - apply reconcile_last_Pos.
  - destruct (reconcile_last_CursorPos force p (last (win m))) as [-> | [-> H]]; [| done].
    unfold CursorPos_eq. by rewrite Hx, Hy.
  - apply reconcile_last_Visible.
  - apply reconcile_last_Minimized.
  - apply reconcile_last_VSync.
  - apply reconcile_last_CursorGrabbed.
Qed.

(** ** Setting up and tearing down in [Run] *)

Lemma defer_native {A} c (body : M A) m : defer (native c) body m = deferred c (body m).
Proof. unfold defer, deferred. by destruct (body m). Qed.

Lemma bind_to {A B} (c : M A) (k : A -> M B) m a m1
    (F : Machine -> Outcome B) (Q : Machine -> Prop) :
  c m = Done a m1 ->
  (exists m0, k a m1 = F m0 /\ Q m0) ->
  exists m0, (c ≫= k) m = F m0 /\ Q m0.
Proof.
  intros Hc (m0 & Hk & HQ). exists m0. split; [| done].
  unfold mbind, M_bind. by rewrite Hc.
Qed.

Lemma defer_to {A} c (body : M A) m (F : Machine -> Outcome A) (Q : Machine -> Prop) :
  (exists m0, body m = F m0 /\ Q m0) ->
  exists m0, defer (native c) body m = deferred c (F m0) /\ Q m0.
Proof. intros (m0 & Hb & HQ). exists m0. by rewrite defer_native, Hb. Qed.

Ltac step_to := eapply bind_to; [reflexivity | cbn beta; cbn [win chans calls audit]].

Lemma Run_with_setup_ok (NewProps : Props) (n : Native) (f : GfxLoop) (p : Props)
    (loop : M unit) (m : Machine) :
  setup_ok n = true ->
  exists m0,
    Run_with NewProps n (Some f) (Some p) loop m
    = deferred glfw.UnlockOSThread
        (deferred glfw.Terminate
           (deferred glfw.DetachCurrentContext (loop m0)))
    /\ (holding (mu (win m0)) = NoLock
        /\ props (win m0) = p
        /\ elems (notifiers (win m0)) = []
        /\ chans m0 = chans m
        /\ (numeric (CursorPos p) -> in_step (win m0))).
Proof.
  unfold setup_ok. rewrite !andb_true_iff, !bool_decide_eq_true.
  intros [[[[H1 H2] [mon H3]] H4] [r H5]].
  unfold Run_with. step_to.
  apply (defer_to _ _ _ (fun m0 => deferred glfw.Terminate
                                      (deferred glfw.DetachCurrentContext (loop m0)))).
  unfold doRun_with. rewrite H1, H2, H3, H4, H5.
  do 2 step_to.
  apply (defer_to _ _ _ (fun m0 => deferred glfw.DetachCurrentContext (loop m0))).
  do 4 step_to. do 14 step_to. step_to.
  apply (defer_to _ _ _ (fun m0 => loop m0)).
  do 8 step_to.
  match goal with
  | |- exists _, (useProps ?p ?force ≫= _) ?mm = _ /\ _ =>
      destruct (useProps_spec p force mm eq_refl) as (m1 & Hrun & Hw & Hc & _);
      pose proof (useProps_in_step p force mm eq_refl) as Hstep
  end.
  eapply bind_to; [exact Hrun | cbn beta].
  step_to.
  eexists. split; [reflexivity |].
  cbn [win chans calls audit]. rewrite Hw, Hc.
  split_and!; try reflexivity.
  intros Hn. destruct (Hstep Hn) as (m1' & Hrun' & Hs & _).
  rewrite Hrun in Hrun'. injection Hrun' as <-. by rewrite <- Hw.
Qed.

(** [Run] is [Run_with] the loop [mainLoop]. *)
Lemma Run_is_Run_with NewProps n g p inbox :
  Run NewProps n g p inbox = Run_with NewProps n g p (mainLoop inbox).
Proof. reflexivity. Qed.

Lemma Run_setup_ok (NewProps : Props) (n : Native) (f : GfxLoop) (p : Props)
    (inbox : list Msg) (m : Machine) :
  setup_ok n = true ->
  exists m0,
    Run NewProps n (Some f) (Some p) inbox m
    = deferred glfw.UnlockOSThread
        (deferred glfw.Terminate
           (deferred glfw.DetachCurrentContext (mainLoop inbox m0)))
    /\ (holding (mu (win m0)) = NoLock
        /\ props (win m0) = p
        /\ elems (notifiers (win m0)) = []
        /\ chans m0 = chans m
        /\ (numeric (CursorPos p) -> in_step (win m0))).
Proof. rewrite Run_is_Run_with. apply Run_with_setup_ok. Qed.

(** X12. Once the native side has answered every step of the setup
    with success, [Run] is its main loop, on a window whose mutex is
    free, that holds the requested properties and has no notifier yet,
    followed by three deferred calls: whether the loop returns or
    panics, the context is detached, GLFW is terminated and the OS thread
    is unlocked, in this order; while the loop runs or waits, none of
    them is made. *)
Theorem Run_teardown (NewProps : Props) (n : Native) (f : GfxLoop) (p : Props)
    (inbox : list Msg) (m : Machine) :
  setup_ok n = true ->
  exists m0,
    Run NewProps n (Some f) (Some p) inbox m
    = deferred glfw.UnlockOSThread
        (deferred glfw.Terminate
           (deferred glfw.DetachCurrentContext (mainLoop inbox m0)))
    /\ (holding (mu (win m0)) = NoLock
        /\ props (win m0) = p
        /\ elems (notifiers (win m0)) = []
        /\ chans m0 = chans m).
Proof.
  intros Hn.
  destruct (Run_setup_ok NewProps n f p inbox m Hn) as (m0 & Hrun & H1 & H2 & H3 & H4 & _).
  by exists m0.
Qed.

Lemma Run_teardown_witness :
  exists m',
    Run sample_props
      native_ok
      (Some gfxLoopFunc) (Some sample_request) [Shutdown] (sample_machine 1)
    = Done tt m'
    /\ exists C, calls m'
                 = C ++ [glfw.LoaderShutdown; glfw.Destroy; glfw.DetachCurrentContext;
                         glfw.Terminate; glfw.UnlockOSThread].
Proof.
  destruct (Run_teardown sample_props native_ok
              gfxLoopFunc sample_request [Shutdown] (sample_machine 1) eq_refl)
    as (m0 & Hrun & _).
  rewrite Hrun. cbn. eexists. split; [reflexivity |].
  cbn. exists (calls m0). by rewrite <- !app_assoc.
Defined.

Ltac not_among :=
  let H := fresh in
  intros H; repeat (apply elem_of_cons in H as [H | H]; [discriminate H |]);
  by apply elem_of_nil in H.

Lemma defer_exit {A} (f : M unit) (body : M A) m (Q : Machine -> Prop) :
  (exists m0, body m = Exited m0 /\ Q m0) ->
  exists m0, defer f body m = Exited m0 /\ Q m0.
Proof. intros (m0 & Hb & HQ). exists m0. unfold defer. by rewrite Hb. Qed.

(** The step that meets [log.Fatal]. *)
Ltac fatal_here :=
  eexists; split; [reflexivity |];
  cbn [win chans calls audit]; eexists; split_and!;
  [ reflexivity | reflexivity | rewrite <- ?app_assoc; cbn [app]; reflexivity
  | not_among | not_among | not_among ].

(** X13. If the native side answers any step of the setup with a
    failure, [Run] ends the process there: the window is not built, and
    the deferred calls are not made, so GLFW is not terminated and the OS
    thread stays locked. *)
Theorem Run_setup_failure (NewProps : Props) (n : Native) (f : GfxLoop) (p : Props)
    (inbox : list Msg) (m : Machine) :
  setup_ok n = false ->
  exists m' C,
    Run NewProps n (Some f) (Some p) inbox m = Exited m'
    /\ win m' = win m
    /\ chans m' = chans m
    /\ calls m' = calls m ++ [glfw.LockOSThread; glfw.Init] ++ C
    /\ (glfw.Terminate ∉ C)
    /\ (glfw.UnlockOSThread ∉ C)
    /\ (glfw.GoGfxLoop ∉ C).
Proof.
  intros H.
  enough (exists m', Run NewProps n (Some f) (Some p) inbox m = Exited m'
            /\ exists C, win m' = win m /\ chans m' = chans m
                 /\ calls m' = calls m ++ [glfw.LockOSThread; glfw.Init] ++ C
                 /\ (glfw.Terminate ∉ C) /\ (glfw.UnlockOSThread ∉ C)
                 /\ (glfw.GoGfxLoop ∉ C)) as (m' & Hrun & C & HC)
    by (by exists m', C).
  revert H. unfold setup_ok. destruct n as [i a mon w r ext].
  cbn [Init_ok CreateAssets_ok PrimaryMonitor CreateWindow_ok NewRenderer]. intros H.
  unfold Run. step_to. apply defer_exit. unfold doRun.
  cbn [Init_ok CreateAssets_ok PrimaryMonitor CreateWindow_ok NewRenderer]. step_to.
  destruct i; [step_to; apply defer_exit; do 2 step_to | fatal_here].
  destruct a; [step_to | fatal_here].
  destruct mon as [mon |]; [step_to; do 14 step_to | fatal_here].
  destruct w; [do 2 step_to; apply defer_exit; step_to | fatal_here].
  destruct r as [r |]; [discriminate H | fatal_here].
Qed.

Lemma Run_setup_failure_witness :
  exists m',
    Run sample_props
      {| Init_ok := true; CreateAssets_ok := true; PrimaryMonitor := None;
         CreateWindow_ok := true; NewRenderer := None;
         ExtensionSupported := fun _ => false |}
      (Some gfxLoopFunc) (Some sample_request) [Shutdown] (sample_machine 1)
    = Exited m'
    /\ calls m' = [glfw.LockOSThread; glfw.Init; glfw.WindowHint glfw.HVisible 0;
                   glfw.CreateWindow 32 32 "assets" false false].
Proof.
  destruct (Run_setup_failure sample_props
              {| Init_ok := true; CreateAssets_ok := true; PrimaryMonitor := None;
                 CreateWindow_ok := true; NewRenderer := None;
                 ExtensionSupported := fun _ => false |}
              gfxLoopFunc sample_request [Shutdown] (sample_machine 1) eq_refl)
    as (m' & C & Hrun & _).
  exists m'. split; [exact Hrun |]. by injection Hrun as <-.
Defined.

(** ** Failures of [doInit] and [doExit] *)

Ltac glfwinit_open :=
  unfold glfwinit.doInit, glfwinit.doExit, glfwinit.assetLoader_exit,
    glfwinit.call, glfwinit.set_glfwInit, glfwinit.set_loader;
  cbn [glfwinit.glfwInit glfwinit.loader glfwinit.trace glfwinit.Init_err
       glfwinit.WindowHint_err glfwinit.CreateWindow_err glfwinit.glfwNewDevice_err
       glfwinit.Window_Destroy_err glfwinit.Terminate_err].

(** X14. When [doInit] returns an error, the flag was clear and stays
    clear. [glfw.Init] has been called, and nothing is undone: GLFW is
    not terminated, the context, if it was made current, is not detached,
    and neither goroutine is started. A [doExit] that follows does
    nothing, and a [doInit] that follows starts again with
    [glfw.Init]. *)
Theorem doInit_failure (n : glfwinit.Native) (s s' : glfwinit.State) (err : glfwinit.error) :
  glfwinit.doInit n s = (Some err, s') ->
  glfwinit.glfwInit s = false
  /\ glfwinit.glfwInit s' = false
  /\ glfwinit.loader s' = glfwinit.loader s
  /\ (exists T, glfwinit.trace s' = glfwinit.trace s ++ glfwinit.Init :: T
                /\ (glfwinit.Terminate ∉ T)
                /\ (glfwinit.DetachCurrentContext ∉ T)
                /\ (glfwinit.go_assetLoader ∉ T)
                /\ (glfwinit.go_pollEvents ∉ T))
  /\ (forall n', glfwinit.doExit n' s' = glfwinit.Returned None s')
  /\ (forall n', exists T,
        glfwinit.trace (snd (glfwinit.doInit n' s'))
        = glfwinit.trace s' ++ glfwinit.Init :: T).
Proof.
  destruct s as [flag ld tr], n as [e1 e2 e3 e4 e5 e6]. glfwinit_open.
  destruct flag; [discriminate |].
  destruct e1 as [x1 |]; [| destruct e2 as [x2 |]; [| destruct e3 as [x3 |];
    [| destruct e4 as [x4 |]; [| discriminate]]]];
    intros [= <- <-]; cbn [glfwinit.glfwInit glfwinit.loader glfwinit.trace];
    (split_and!; [reflexivity | reflexivity | reflexivity
      | eexists; split; [rewrite <- ?app_assoc; cbn [app]; reflexivity | split_and!; not_among]
      | reflexivity
      | intros [d1 d2 d3 d4 d5 d6]; glfwinit_open;
        destruct d1, d2, d3, d4; cbn [snd glfwinit.trace]; eexists;
        rewrite <- ?app_assoc; cbn [app]; reflexivity ]).
Qed.

Lemma doInit_failure_witness :
  exists s',
    glfwinit.doInit
      {| glfwinit.Init_err := None; glfwinit.WindowHint_err := None;
         glfwinit.CreateWindow_err := None; glfwinit.glfwNewDevice_err := Some "no device";
         glfwinit.Window_Destroy_err := None; glfwinit.Terminate_err := None |}
      {| glfwinit.glfwInit := false; glfwinit.loader := false; glfwinit.trace := [] |}
    = (Some "no device", s')
    /\ glfwinit.glfwInit s' = false
    /\ glfwinit.doExit glfwinit_ok s' = glfwinit.Returned None s'.
Proof.
  eexists. split; [reflexivity |].
  pose proof (doInit_failure _ _ _ _
                (eq_refl : glfwinit.doInit
                   {| glfwinit.Init_err := None; glfwinit.WindowHint_err := None;
                      glfwinit.CreateWindow_err := None;
                      glfwinit.glfwNewDevice_err := Some "no device";
                      glfwinit.Window_Destroy_err := None; glfwinit.Terminate_err := None |}
                   {| glfwinit.glfwInit := false; glfwinit.loader := false;
                      glfwinit.trace := [] |}
                 = (Some "no device", _)))
    as (_ & Hflag & _ & _ & Hexit & _).
  split; [exact Hflag | exact (Hexit glfwinit_ok)].
Defined.

(** X15. When [doExit] returns an error, the flag was set, and the
    asset loader, that was running, has been told to exit, has answered
    and is gone. Either the error is the one of destroying the asset
    window: then the flag stays set, the event poller is not told to exit
    and GLFW is not terminated; a [doExit] that follows finds nobody to
    take its exit signal and waits for ever. Or it is the one of
    [glfw.Terminate]: then the poller has been told to exit and the flag
    is clear all the same. *)
Theorem doExit_failure (n : glfwinit.Native) (s s' : glfwinit.State) (err : glfwinit.error) :
  glfwinit.doExit n s = glfwinit.Returned (Some err) s' ->
  glfwinit.glfwInit s = true
  /\ glfwinit.loader s = true
  /\ glfwinit.loader s' = false
  /\ ((glfwinit.Window_Destroy_err n = Some err
       /\ glfwinit.glfwInit s' = true
       /\ glfwinit.trace s'
          = glfwinit.trace s
            ++ [glfwinit.asset_exit_send; glfwinit.Device_Destroy;
                glfwinit.DetachCurrentContext; glfwinit.Window_Destroy;
                glfwinit.UnlockOSThread; glfwinit.asset_exit_receive]
       /\ (forall n', glfwinit.doExit n' s' = glfwinit.Parked s'))
      \/ (glfwinit.Window_Destroy_err n = None
          /\ glfwinit.Terminate_err n = Some err
          /\ glfwinit.glfwInit s' = false
          /\ glfwinit.trace s'
             = glfwinit.trace s
               ++ [glfwinit.asset_exit_send; glfwinit.Device_Destroy;
                   glfwinit.DetachCurrentContext; glfwinit.Window_Destroy;
                   glfwinit.UnlockOSThread; glfwinit.asset_exit_receive;
                   glfwinit.pollerExit_send; glfwinit.Terminate])).
Proof.
  destruct s as [flag ld tr], n as [e1 e2 e3 e4 e5 e6]. glfwinit_open.
  destruct flag; [| discriminate]. cbn [negb].
  destruct ld; [| discriminate]. cbn [negb].
  destruct e5 as [x5 |]; [| destruct e6 as [x6 |]; [| discriminate]];
    intros [= <- <-]; cbn [glfwinit.glfwInit glfwinit.loader glfwinit.trace];
    (split; [reflexivity |]); (split; [reflexivity |]); (split; [reflexivity |]).
  - left. split_and!; [reflexivity | reflexivity | | reflexivity].
    rewrite <- !app_assoc. reflexivity.
  - right. split_and!; [reflexivity | reflexivity | reflexivity |].
    rewrite <- !app_assoc. reflexivity.
Qed.

Lemma doExit_failure_witness :
  exists s',
    glfwinit.doExit
      {| glfwinit.Init_err := None; glfwinit.WindowHint_err := None;
         glfwinit.CreateWindow_err := None; glfwinit.glfwNewDevice_err := None;
         glfwinit.Window_Destroy_err := Some "busy"; glfwinit.Terminate_err := None |}
      {| glfwinit.glfwInit := true; glfwinit.loader := true; glfwinit.trace := [] |}
    = glfwinit.Returned (Some "busy") s'
    /\ glfwinit.glfwInit s' = true
    /\ glfwinit.doExit glfwinit_ok s' = glfwinit.Parked s'.
Proof.
  eexists. split; [reflexivity |].
  pose proof (doExit_failure _ _ _ _
                (eq_refl : glfwinit.doExit
                   {| glfwinit.Init_err := None; glfwinit.WindowHint_err := None;
                      glfwinit.CreateWindow_err := None; glfwinit.glfwNewDevice_err := None;
                      glfwinit.Window_Destroy_err := Some "busy";
                      glfwinit.Terminate_err := None |}
                   {| glfwinit.glfwInit := true; glfwinit.loader := true;
                      glfwinit.trace := [] |}
                 = glfwinit.Returned (Some "busy") _))
    as (_ & _ & _ & [(_ & Hflag & _ & Hpark) | (Hno & _)]);
    [split; [exact Hflag | exact (Hpark glfwinit_ok)] | discriminate Hno].
Defined.

(** ** The asset loader and its context *)

Import asset_notions.

Lemma current_after_app cur t1 t2 :
  current_after cur (t1 ++ t2) = current_after (current_after cur t1) t2.
Proof. revert cur. induction t1 as [| s t1 IH]; intros cur; [done |]. by destruct s; cbn. Qed.

Lemma context_ok_app cur t1 t2 :
  context_ok cur (t1 ++ t2) = context_ok cur t1 && context_ok (current_after cur t1) t2.
Proof.
  revert cur. induction t1 as [| s t1 IH]; intros cur; [done |].
  cbn [app context_ok]. rewrite IH, andb_assoc. by destruct s.
Qed.

Lemma loop_context_ok n inbox : forall t cur,
  context_ok cur t = true -> current_after cur t = true ->
  context_ok cur (asset.steps (asset.loop n inbox t)) = true.
Proof.
  induction inbox as [| msg inbox IH]; intros t cur Hok Hcur; [done |].
  destruct msg as [[] | | fn]; cbn [asset.loop asset.steps].
  - apply IH.
    + rewrite !context_ok_app, !current_after_app, Hok, Hcur. reflexivity.
    + rewrite !current_after_app. reflexivity.
  - rewrite context_ok_app, Hok, Hcur. reflexivity.
  - rewrite context_ok_app, Hok, Hcur. reflexivity.
  - apply IH.
    + rewrite context_ok_app, Hok, Hcur. reflexivity.
    + rewrite current_after_app. exact Hcur.
Qed.

(** X16. Whatever the asset loader receives, and however far it gets,
    every function it runs and the destruction of the device happen
    while the asset window's context is current on its thread, and the
    hand-over of the context and the destruction of the window happen
    while the context is released. *)
Theorem assetLoader_context (n : glfwinit.Native) (inbox : list asset.Msg) :
  context_ok false (asset.steps (asset.assetLoader n inbox)) = true.
Proof. unfold asset.assetLoader. by apply loop_context_ok. Qed.

Lemma called_app t1 t2 : called (t1 ++ t2) = called t1 ++ called t2.
Proof. induction t1 as [| s t1 IH]; [done |]. destruct s; cbn; by rewrite ?IH. Qed.

Lemma loop_until_Exit n rest pre : forall t,
  forallb hands_back pre = true ->
  existsb is_Exit pre = false ->
  exists t', asset.loop n (pre ++ asset.Exit :: rest) t
             = asset.Returned
                 (t ++ t' ++ [asset.Device_Destroy; asset.DetachCurrentContext;
                              asset.Window_Destroy; asset.UnlockOSThread;
                              asset.exit_send (glfwinit.Window_Destroy_err n)])
             /\ called t' = submitted pre.
Proof.
  induction pre as [| msg pre IH]; intros t Hb He.
  - exists []. split; reflexivity.
  - destruct msg as [[] | | fn]; cbn [forallb existsb hands_back is_Exit orb andb] in *;
      try discriminate; cbn [app asset.loop submitted].
    + destruct (IH ((t ++ [asset.DetachCurrentContext; asset.withoutContext_send])
                      ++ [asset.withoutContext_receive; asset.MakeContextCurrent]) Hb He)
        as (t' & Hrun & Hc).
      exists ([asset.DetachCurrentContext; asset.withoutContext_send;
               asset.withoutContext_receive; asset.MakeContextCurrent] ++ t').
      split; [rewrite Hrun, <- !app_assoc; reflexivity | exact Hc].
    + destruct (IH (t ++ [asset.Call fn]) Hb He) as (t' & Hrun & Hc).
      exists (asset.Call fn :: t').
      split; [rewrite Hrun, <- !app_assoc; reflexivity | cbn; by rewrite Hc].
Qed.

(** X17. The asset loader told to exit, every hand-over of the context
    before that having been given back: it returns, having run the
    functions it received before the exit signal, each once and in the
    order received, and none of those sent after it; it then destroys the
    device, releases the context, destroys the window, unlocks its
    thread and sends the window's error back, in this order. *)
Theorem assetLoader_exit_order (n : glfwinit.Native) (pre rest : list asset.Msg) :
  forallb hands_back pre = true ->
  existsb is_Exit pre = false ->
  exists t,
    asset.assetLoader n (pre ++ asset.Exit :: rest)
    = asset.Returned
        ([asset.LockOSThread; asset.MakeContextCurrent] ++ t
         ++ [asset.Device_Destroy; asset.DetachCurrentContext; asset.Window_Destroy;
             asset.UnlockOSThread; asset.exit_send (glfwinit.Window_Destroy_err n)])
    /\ called t = submitted pre.
Proof. intros Hb He. by apply loop_until_Exit. Qed.

Lemma assetLoader_exit_order_witness :
  exists t,
    asset.assetLoader glfwinit_ok
      ([asset.Exec 1; asset.WithoutContext true; asset.Exec 2] ++ asset.Exit :: [asset.Exec 3])
    = asset.Returned
        ([asset.LockOSThread; asset.MakeContextCurrent] ++ t
         ++ [asset.Device_Destroy; asset.DetachCurrentContext; asset.Window_Destroy;
             asset.UnlockOSThread; asset.exit_send None])
    /\ called t = [1; 2]%nat.
Proof.
  apply (assetLoader_exit_order glfwinit_ok
           [asset.Exec 1; asset.WithoutContext true; asset.Exec 2] [asset.Exec 3]);
    reflexivity.
Defined.

(** ** When unsubscribing works *)

(** X18. [Notify(c, NoEvents)] on a window whose mutex is free: it
    panics, with the write lock left held, exactly when the window's
    last notifier is for [c]. In every other case (no notifier at all,
    or a last notifier for another channel) it returns, with the mutex
    free again, having removed the notifiers of [c] and kept the others
    in order; nothing is sent and nothing native is called. *)
Theorem Notify_NoEvents_outcome (c : chan) (m : Machine) :
  holding (mu (win m)) = NoLock ->
  slice_ok (notifiers (win m)) ->
  (last_is_for c (notifiers (win m)) ->
     exists m', Notify c NoEvents m = Panic "runtime error: slice bounds out of range" m'
                /\ holding (mu (win m')) = WriteLock)
  /\ (~ last_is_for c (notifiers (win m)) ->
        exists m', Notify c NoEvents m = Done tt m'
          /\ elems (notifiers (win m')) = others c (elems (notifiers (win m)))
          /\ holding (mu (win m')) = NoLock
          /\ chans m' = chans m /\ calls m' = calls m).
Proof.
  intros Hfree Hok. split.
  - intros Hlast. by apply Notify_NoEvents_panics.
  - intros Hnot.
    destruct (len (notifiers (win m))) as [| k] eqn:Hlen.
    + assert (elems (notifiers (win m)) = []) as Hnil by (unfold elems; by rewrite Hlen).
      destruct (Notify_NoEvents_absent c m Hfree) as (m' & Hr & Hn & Hf & Hc & Hk);
        [rewrite Hnil; constructor |].
      exists m'. split_and!; try done. by rewrite Hn, Hnil.
    + unfold slice_ok in Hok.
      destruct (lookup_lt_is_Some_2 (array (notifiers (win m))) k ltac:(lia)) as [t Ht].
      apply Notify_NoEvents_last_other; [done | done |].
      exists t. rewrite Hlen. replace (S k - 1)%nat with k by lia.
      split_and!; [done | | lia].
      intros Hc. apply Hnot. exists t. rewrite Hlen.
      replace (S k - 1)%nat with k by lia. split_and!; [done | done | lia].
Qed.

Lemma Notify_NoEvents_outcome_witness :
  (exists m', Notify 2%nat NoEvents shared_machine
              = Panic "runtime error: slice bounds out of range" m')
  /\ (exists m', Notify 1%nat NoEvents shared_machine = Done tt m'
                 /\ elems (notifiers (win m')) = [{| mask := CloseEvents; ch := 2%nat |}]).
Proof.
  assert (slice_ok (notifiers (win shared_machine))) as Hok by (unfold slice_ok; simpl; lia).
  destruct (Notify_NoEvents_outcome 2%nat shared_machine eq_refl Hok) as [H2 _].
  destruct (Notify_NoEvents_outcome 1%nat shared_machine eq_refl Hok) as [_ H1].
  split.
  - destruct H2 as (m' & Hr & _).
    + exists {| mask := CloseEvents; ch := 2%nat |}. split_and!; [reflexivity | reflexivity | simpl; lia].
    + by exists m'.
  - destruct H1 as (m' & Hr & He & _).
    + intros (nf & Hnf & Hch & _). simpl in Hnf. injection Hnf as <-. discriminate Hch.
    + by exists m'.
Defined.

(** ** A title without the token *)

Lemma Index_no_brace s : has_byte "{" s = false -> Index s "{FPS}" = -1.
Proof.
  induction s as [| c s IH]; intros Hb; [reflexivity |].
  cbn [has_byte] in Hb. apply orb_false_iff in Hb as [Hc Hb].
  rewrite Index_cons.
  change (HasPrefix (String c s) "{FPS}")
    with (if Ascii.eqb "{" c then HasPrefix s "FPS}" else false).
  rewrite Hc. cbn zeta. by rewrite (IH Hb).
Qed.

(** X19. A title that has no opening brace is given to the native
    window as it is, at every tick of the timer and by every
    [useProps]. *)
Theorem title_without_token (p : Props) (force : bool) (m : Machine) :
  holding (mu (win m)) = NoLock ->
  (has_byte "{" (Title (props (win m))) = false ->
     exists m', (Lock;; updateTitle;; Unlock) m = Done tt m'
       /\ calls m' = calls m ++ [glfw.SetTitle (Title (props (win m)))])
  /\ (has_byte "{" (Title p) = false ->
        exists m' C, useProps p force m = Done tt m'
          /\ calls m' = calls m ++ glfw.SetTitle (Title p) :: C
          /\ SetTitle_args C = []).
Proof.
  intros Hfree. split; intros Hb.
  - destruct (updateTitle_tick m Hfree) as (m' & Hrun & _ & _ & Hk).
    exists m'. split; [done |]. rewrite Hk. unfold applied_title.
    by rewrite Replace_absent by (by apply Index_no_brace).
  - destruct (useProps_spec p force m Hfree) as (m' & Hrun & _ & _ & Hk & _).
    exists m'. eexists. split; [done |]. rewrite Hk. cbn [calls with_win].
    unfold reconcile_calls, applied_title. cbn zeta.
    rewrite Replace_absent by (by apply Index_no_brace).
    split; [reflexivity |].
    unfold SetTitle_args, Size_calls, Pos_calls, CursorPos_calls, Visible_calls,
      Minimized_calls, VSync_calls, CursorGrabbed_calls.
    rewrite !omap_app.
    repeat match goal with |- context [if ?b then _ else _] => destruct b end; reflexivity.
Qed.

Lemma title_without_token_witness :
  exists m', (Lock;; updateTitle;; Unlock)
               (with_win (set_props plain_props) (sample_machine 1)) = Done tt m'
    /\ calls m' = [glfw.SetTitle "Game"].
Proof.
  destruct (title_without_token plain_props false
              (with_win (set_props plain_props) (sample_machine 1)) eq_refl) as [H _].
  destruct (H eq_refl) as (m' & Hr & Hk).
  exists m'. split; [exact Hr | exact Hk].
Defined.

(** ** Reading the properties back *)

Lemma GetProps_spec m :
  writer (mu (win m)) = false ->
  exists m', GetProps m = Done (props (win m)) m'
    /\ win m' = win m /\ chans m' = chans m /\ calls m' = calls m.
Proof.
  intros Hw. open_unlocked m Hw.
  unfold GetProps, load_props, RLock, RUnlock. mrun. cbn.
  eexists. split_and!; reflexivity.
Qed.

(** X22. [Props()] gives what was last put into the window: after
    [useProps], the property set requested; after a callback, the
    property set it had with what the window reported written into it
    (a cursor sample of a grabbed cursor is not written). [Props()]
    itself changes nothing, and on a window whose write lock is held it
    waits. *)
Theorem Props_reads_back (p : Props) (force : bool) (e : RawEvent) (now : Time) (m : Machine) :
  holding (mu (win m)) = NoLock ->
  (exists m1 m2, useProps p force m = Done tt m1
      /\ GetProps m1 = Done p m2
      /\ win m2 = win m1 /\ chans m2 = chans m1 /\ calls m2 = calls m1)
  /\ (exists m1 m2, dispatch e now m = Done tt m1
        /\ GetProps m1
           = Done (match e with
                   | RawCursorPosition _ _ =>
                       if CursorGrabbed (props (win m)) then props (win m)
                       else reported e (props (win m))
                   | _ => reported e (props (win m))
                   end) m2
        /\ win m2 = win m1 /\ chans m2 = chans m1 /\ calls m2 = calls m1)
  /\ (forall m', holding (mu (win m')) = WriteLock -> GetProps m' = Blocked m').
Proof.
  intros Hfree. apply holding_NoLock in Hfree as Hwr. destruct Hwr as [Hw _].
  split_and!.
  - destruct (useProps_spec p force m Hfree) as (m1 & Hr1 & Hw1 & _).
    assert (writer (mu (win m1)) = false) as Hw1' by (by rewrite Hw1).
    destruct (GetProps_spec m1 Hw1') as (m2 & Hr2 & Hwin & Hc & Hk).
    exists m1, m2. split_and!; try done. rewrite Hr2, Hw1. reflexivity.
  - destruct (dispatch_spec e now m Hw) as (m1 & Hr1 & Hw1 & _).
    assert (writer (mu (win m1)) = false) as Hw1' by (by rewrite Hw1, recorded_mu).
    destruct (GetProps_spec m1 Hw1') as (m2 & Hr2 & Hwin & Hc & Hk).
    exists m1, m2. split_and!; try done. rewrite Hr2, Hw1.
    destruct e; cbn; try reflexivity. by destruct (CursorGrabbed _).
  - intros m' Hheld. unfold GetProps. mrun. by rewrite (RLock_held _ Hheld).
Qed.

Lemma Props_reads_back_witness :
  exists m1 m2, useProps sample_request false (sample_machine 1) = Done tt m1
    /\ GetProps m1 = Done sample_request m2.
Proof.
  destruct (Props_reads_back sample_request false (RawSize 1 1) 0 (sample_machine 1) eq_refl)
    as ((m1 & m2 & H1 & H2 & _) & _).
  exists m1, m2. split; [exact H1 | exact H2].
Defined.

(** ** A nil channel *)

(** X23. The nil channel may be subscribed: [Notify] takes it like any
    other, and publishing passes over it without waiting, every other
    channel getting what it would have got without that notifier. *)
Theorem Notify_nil_channel (msk evt : EventMask) (ev : Event) (m : Machine) :
  holding (mu (win m)) = NoLock ->
  slice_ok (notifiers (win m)) ->
  msk <> NoEvents ->
  exists m1 m2,
    Notify nil_chan msk m = Done tt m1
    /\ elems (notifiers (win m1))
       = elems (notifiers (win m)) ++ [{| mask := msk; ch := nil_chan |}]
    /\ sendEvent ev evt m1 = Done tt m2
    /\ win m2 = win m1
    /\ chans m2 !! nil_chan = chans m !! nil_chan
    /\ (forall c, c <> nil_chan ->
          chans m2 !! c
          = delivered (deliveries c evt (elems (notifiers (win m)))) ev <$> chans m !! c).
Proof.
  intros Hfree Hok Hmsk.
  destruct (Notify_subscribe nil_chan msk m Hfree Hmsk) as (m1 & Hr1 & Hn1 & Hf1 & Hc1 & _).
  destruct (elems_append (notifiers (win m)) {| mask := msk; ch := nil_chan |} Hok) as [He1 _].
  rewrite <- Hn1 in He1.
  apply holding_NoLock in Hf1 as [Hw1 _].
  destruct (sendEvent_spec ev evt m1 Hw1) as (m2 & Hr2 & Hwin2 & _ & _ & Hch2 & Hnil2).
  exists m1, m2. split_and!; [done | done | done | done | by rewrite Hnil2, Hc1 |].
  intros c Hc. rewrite Hch2 by done. rewrite Hc1, He1, deliveries_app.
  cbn [deliveries ch mask]. cbn zeta.
  destruct (Nat.eqb_spec nil_chan c) as [<- | _]; [done |]. cbn [andb].
  by rewrite !Nat.add_0_r.
Qed.

Lemma Notify_nil_channel_witness :
  exists m1 m2,
    Notify nil_chan AllEvents full_machine = Done tt m1
    /\ sendEvent (Close 5) CloseEvents m1 = Done tt m2
    /\ chans m2 !! 1%nat = Some {| cap := 1; buf := [Damaged 0] |}.
Proof.
  destruct (Notify_nil_channel AllEvents CloseEvents (Close 5) full_machine)
    as (m1 & m2 & H1 & _ & H2 & _ & _ & H3).
  - reflexivity.
  - unfold slice_ok. simpl. lia.
  - discriminate.
  - exists m1, m2. split_and!; [exact H1 | exact H2 |].
    pose proof (H3 1%nat ltac:(discriminate)) as H. exact H.
Defined.

(** ** A cursor position that is not a number *)

Lemma SFeqb_nan a b : SFeqb a a = false -> SFeqb a b = false.
Proof.
  unfold SFeqb. destruct a as [sa | sa | | sa ma ea]; cbn.
  - done.
  - by destruct sa.
  - done.
  - rewrite Z.compare_refl, Pos.compare_cont_refl. by destruct sa.
Qed.

Lemma feq_nan a b : feq a a = false -> feq a b = false.
Proof. unfold feq. rewrite !FloatAxioms.eqb_spec. apply SFeqb_nan. Qed.

(** X24. A requested cursor position whose first coordinate is not a
    number never settles: it differs from whatever [last] holds, so every
    [useProps], forced or not and however often repeated, calls
    [SetCursorPosition] with it (the second coordinate not being the
    sentinel [-1]). *)
Theorem useProps_NaN_cursor (p : Props) (force : bool) (m : Machine) :
  holding (mu (win m)) = NoLock ->
  feq (fst (CursorPos p)) (fst (CursorPos p)) = false ->
  fne (snd (CursorPos p)) (-1)%float = true ->
  exists m' C1 C2,
    useProps p force m = Done tt m'
    /\ calls m'
       = calls m ++ C1
         ++ glfw.SetCursorPosition (fst (CursorPos p)) (snd (CursorPos p)) :: C2
    /\ holding (mu (win m')) = NoLock.
Proof.
  intros Hfree Hnan Hy.
  destruct (useProps_spec p force m Hfree) as (m' & Hrun & Hw & _ & Hk & _).
  assert (CursorPos_calls force p (last (win m))
          = [glfw.SetCursorPosition (fst (CursorPos p)) (snd (CursorPos p))]) as Hcur.
  { unfold CursorPos_calls, CursorPos_applies.
    pose proof (feq_nan _ (fst (CursorPos (last (win m)))) Hnan) as H1.
    pose proof (feq_nan _ (-1)%float Hnan) as H2.
    unfold fne in *. unfold feq in H1, H2.
    rewrite H1, H2, Hy. cbn [negb andb]. rewrite orb_true_r. reflexivity. }
  exists m',
    ([glfw.SetTitle (applied_title p (renderer (win m)))]
     ++ Size_calls force p (last (win m))
     ++ Pos_calls force (monitor (win m)) (fst (Size p)) (snd (Size p)) p (last (win m))),
    (Visible_calls force p (last (win m))
     ++ Minimized_calls force p (last (win m))
     ++ VSync_calls force (extWGLEXTSwapControlTear (win m))
          (extGLXEXTSwapControlTear (win m)) p (last (win m))
     ++ CursorGrabbed_calls force p (last (win m))).
  split_and!; [done | | by rewrite Hw].
  rewrite Hk. cbn [calls with_win]. unfold reconcile_calls. cbn zeta.
  rewrite Hcur. f_equal. rewrite <- !app_assoc. reflexivity.
Qed.

Lemma useProps_NaN_cursor_witness :
  exists m1 m2 C1 C2 D1 D2,
    useProps nan_props false (sample_machine 1) = Done tt m1
    /\ calls m1 = calls (sample_machine 1) ++ C1 ++ glfw.SetCursorPosition nan 5%float :: C2
    /\ useProps nan_props false m1 = Done tt m2
    /\ calls m2 = calls m1 ++ D1 ++ glfw.SetCursorPosition nan 5%float :: D2.
Proof.
  destruct (useProps_NaN_cursor nan_props false (sample_machine 1) eq_refl eq_refl eq_refl)
    as (m1 & C1 & C2 & H1 & Hk1 & Hf1).
  destruct (useProps_NaN_cursor nan_props false m1 Hf1 eq_refl eq_refl)
    as (m2 & D1 & D2 & H2 & Hk2 & _).
  exists m1, m2, C1, C2, D1, D2. split_and!; [exact H1 | exact Hk1 | exact H2 | exact Hk2].
Defined.

(** ** The loop with the shutdown channel and every callback *)

Lemma stays_refl m : holding (mu (win m)) = NoLock -> stays m m.
Proof. intros H. split_and!; try done. exists []. by rewrite app_nil_r. Qed.

Lemma stays_trans m1 m2 m3 : stays m1 m2 -> stays m2 m3 -> stays m1 m3.
Proof.
  intros (H1 & S1 & C1 & K1) (H2 & S2 & C2 & K2).
  split_and!; [done | auto |].
  exists (C1 ++ C2). by rewrite K2, K1, app_assoc.
Qed.

Lemma stays_same_win m m' :
  holding (mu (win m)) = NoLock -> win m' = win m -> calls m' = calls m -> stays m m'.
Proof.
  intros H Hw Hk. unfold stays. rewrite Hw, Hk. split_and!; try done.
  exists []. by rewrite app_nil_r.
Qed.

Lemma recorded_ShouldClose e w :
  ShouldClose (props (recorded e w)) = ShouldClose (props w).
Proof. destruct e; cbn; try reflexivity. by destruct (CursorGrabbed _). Qed.

Lemma Close_elsewhere_pending sd : (0 < length (Close_elsewhere sd))%nat.
Proof.
  unfold Close_elsewhere, shutdown_cap.
  destruct (Nat.ltb_spec (length sd) 1); [rewrite length_app; cbn |]; lia.
Qed.

Lemma publish_only_stays ev msk (sd : list bool) m :
  holding (mu (win m)) = NoLock ->
  exists m1, (sendEvent ev msk;; mret sd) m = Done sd m1 /\ stays m m1 /\ win m1 = win m.
Proof.
  intros Hfree. apply holding_NoLock in Hfree as Hwr. destruct Hwr as [Hw _].
  destruct (sendEvent_spec ev msk m Hw) as (m1 & Hr & Hwin & Hk & _).
  exists m1. split_and!; [| by apply stays_same_win | done].
  unfold mbind, M_bind. by rewrite Hr.
Qed.

(** A callback returns, or waits in the close callback on a full
    shutdown channel; it leaves [ShouldClose] as it is and takes nothing
    out of the channel. *)
Lemma callback_settles cb now sd m :
  holding (mu (win m)) = NoLock ->
  numeric_happening (Calls cb now) ->
  match callback cb now sd m with
  | Done sd1 m1 =>
      stays m m1
      /\ ShouldClose (props (win m1)) = ShouldClose (props (win m))
      /\ ((0 < length sd)%nat -> (0 < length sd1)%nat)
  | Blocked m1 =>
      stays m m1 /\ cb = OnClose /\ ShouldClose (props (win m)) = true
      /\ (0 < length sd)%nat
  | Panic _ _ | Exited _ => False
  end.
Proof.
  intros Hfree Hn. apply holding_NoLock in Hfree as Hwr. destruct Hwr as [Hw _].
  destruct cb as [e | | | items | enter]; cbn [callback].
  - destruct (dispatch_spec e now m Hw) as (m1 & Hr & Hwin & Hk & _).
    unfold mbind, M_bind. rewrite Hr. cbn.
    split_and!; [| by rewrite Hwin, recorded_ShouldClose | done].
    unfold stays. rewrite Hwin, recorded_mu.
    split_and!; [done | | by eexists].
    intros Hs. by apply recorded_in_step.
  - destruct (CloseCallback_spec now sd m Hw) as [Ht Hf].
    destruct (ShouldClose (props (win m))) eqn:E.
    + specialize (Ht eq_refl). destruct sd as [| b sd].
      * destruct Ht as (m1 & -> & Hwin & _ & Hk).
        split_and!; [by apply stays_same_win | by rewrite Hwin | cbn; lia].
      * destruct Ht as (m1 & -> & Hwin & _ & Hk).
        split_and!; [by apply stays_same_win | done | done | cbn; lia].
    + destruct (Hf eq_refl) as (m1 & -> & Hwin & Hk & _).
      split_and!; [by apply stays_same_win | by rewrite Hwin | done].
  - unfold RefreshCallback.
    destruct (publish_only_stays (Damaged now) DamagedEvents sd m Hfree)
      as (m1 & -> & Hs & Hwin).
    by rewrite Hwin.
  - unfold DropCallback.
    destruct (publish_only_stays (ItemsDropped items now) ItemsDroppedEvents sd m Hfree)
      as (m1 & -> & Hs & Hwin).
    by rewrite Hwin.
  - unfold CursorEnterCallback. destruct enter.
    + destruct (publish_only_stays (CursorEnter now) CursorEnterEvents sd m Hfree)
        as (m1 & -> & Hs & Hwin).
      by rewrite Hwin.
    + destruct (publish_only_stays (CursorExit now) CursorExitEvents sd m Hfree)
        as (m1 & -> & Hs & Hwin).
      by rewrite Hwin.
Qed.

(** What happens during one frame. *)
Lemma poll_settles during : forall sd m,
  holding (mu (win m)) = NoLock ->
  Forall numeric_happening during ->
  match poll during sd m with
  | Done sd1 m1 =>
      stays m m1
      /\ ShouldClose (props (win m1)) = ShouldClose (props (win m))
      /\ ((0 < length sd)%nat -> (0 < length sd1)%nat)
      /\ (existsb is_ClosedElsewhere during = true -> (0 < length sd1)%nat)
  | Blocked m1 => stays m m1 /\ forallb no_close_callback during = false
  | Panic _ _ | Exited _ => False
  end.
Proof.
  induction during as [| h during IH]; intros sd m Hfree Hn.
  - cbn. split_and!; [by apply stays_refl | done | done | done].
  - apply Forall_cons in Hn as [Hh Hn]. destruct h as [cb now |]; cbn [poll].
    + pose proof (callback_settles cb now sd m Hfree Hh) as Hcb.
      unfold mbind, M_bind.
      destruct (callback cb now sd m) as [sd1 m1 | | m1 |]; [| done | | done].
      * destruct Hcb as (Hs & Hq & Hp).
        pose proof (IH sd1 m1 ltac:(apply Hs) Hn) as Hrest.
        destruct (poll during sd1 m1) as [sd2 m2 | | m2 |]; [| done | | done].
        -- destruct Hrest as (Hs2 & Hq2 & Hp2 & Hc2).
           split_and!; [by eapply stays_trans | congruence | auto | exact Hc2].
        -- destruct Hrest as (Hs2 & Hc2).
           split; [by eapply stays_trans |].
           cbn [forallb]. by rewrite Hc2, andb_false_r.
      * destruct Hcb as (Hs & -> & _). split; [done | reflexivity].
    + pose proof (IH (Close_elsewhere sd) m Hfree Hn) as Hrest.
      destruct (poll during (Close_elsewhere sd) m) as [sd2 m2 | | m2 |];
        [| done | exact Hrest | done].
      destruct Hrest as (Hs2 & Hq2 & Hp2 & _).
      pose proof (Close_elsewhere_pending sd). split_and!; auto.
Qed.

Lemma settled_stays m m1 o : stays m m1 -> settled m1 o -> settled m o.
Proof.
  intros (H1 & S1 & C1 & K1). destruct o as [[] m2 | | m2 |]; cbn; try done.
  - intros (H & S & C & K). split_and!; [done | auto |].
    exists (C1 ++ C). by rewrite K, K1, <- !app_assoc.
  - intros (H & S). auto.
Qed.

(** One round of the loop: it goes on to the next, or the loop ends
    there. *)
Lemma round_settles msg rest sd m :
  holding (mu (win m)) = NoLock ->
  orderly msg ->
  (exists sd1 m1,
      eventLoop (msg :: rest) sd m = eventLoop rest sd1 m1
      /\ stays m m1
      /\ ((0 < length sd)%nat -> (0 < length sd1)%nat)
      /\ (closes msg = true -> (0 < length sd1)%nat))
  \/ (settled m (eventLoop (msg :: rest) sd m) /\ carries_on msg = false).
Proof.
  intros Hfree Hmsg.
  inversion Hmsg as [| | p Hp | renderedFrame rate during Hev |]; subst msg.
  - left. destruct (updateTitle_tick m Hfree) as (m1 & Hrun & Hw & _ & Hk).
    exists sd, m1. split_and!; [| | done | done].
    + cbn [eventLoop].
      change ((Lock;; updateTitle;; Unlock;; eventLoop rest sd) m = eventLoop rest sd m1).
      revert Hrun. unfold mbind, M_bind.
      destruct (Lock m) as [[] m2 | | |]; try discriminate.
      destruct (updateTitle m2) as [[] m3 | | |]; try discriminate.
      destruct (Unlock m3) as [[] m4 | | |]; try discriminate.
      by intros [= ->].
    + unfold stays. rewrite Hw. split_and!; [done | done | by eexists].
  - right. split; [| reflexivity]. cbn [eventLoop]. destruct sd as [| b sd].
    + cbn. split; [done | done].
    + assert ((native glfw.LoaderShutdown;; native glfw.Destroy) m
              = Done tt (logged glfw.Destroy (logged glfw.LoaderShutdown m))) as ->
        by reflexivity.
      cbn [settled logged win calls]. split_and!; [done | done |].
      exists []. cbn [app]. by rewrite <- app_assoc.
  - left.
    destruct (useProps_in_step p false m Hfree Hp) as (m1 & Hrun & Hs & _ & Hf & _ & _ & HC).
    exists sd, m1. split_and!; [| | done | done].
    + cbn [eventLoop].
      exact (bind_Done (useProps p false) (fun _ => eventLoop rest sd) m tt m1 Hrun).
    + split_and!; done.
  - cbn [eventLoop].
    set (m0 := with_win (fun w => set_renderer {| FrameRate := rate;
                                                   Bounds := Bounds (renderer w) |} w) m).
    rewrite (bind_Done _ _ m tt m0) by reflexivity.
    assert (stays m m0) as Hs0.
    { unfold m0, stays, in_step.
      cbn [win with_win calls set_renderer mu props last].
      split_and!; [done | done |]. exists []. by rewrite app_nil_r. }
    assert (holding (mu (win m0)) = NoLock) as Hfree0 by apply Hs0.
    destruct renderedFrame.
    + set (m2 := logged glfw.PollEvents (logged glfw.SwapBuffers m0)).
      assert (stays m0 m2) as Hs2.
      { split_and!; [done | done |]. exists [glfw.SwapBuffers; glfw.PollEvents].
        subst m2. cbn. by rewrite <- app_assoc. }
      pose proof (poll_settles during sd m2 Hfree0 Hev) as Hpoll.
      assert (forall k : list bool -> M unit,
                 ((native glfw.SwapBuffers;; native glfw.PollEvents;; poll during sd) ≫= k) m0
                 = match poll during sd m2 with
                   | Done a m' => k a m'
                   | Panic msg m' => Panic msg m'
                   | Blocked m' => Blocked m'
                   | Exited m' => Exited m'
                   end) as Heq by (intros k; reflexivity).
      rewrite !Heq.
      destruct (poll during sd m2) as [sd1 m1 | | m1 |]; [| done | | done].
      * left. destruct Hpoll as (Hs & _ & Hp & Hc).
        exists sd1, m1. split_and!; [reflexivity | | done | exact Hc].
        eapply stays_trans; [exact Hs0 |]. by eapply stays_trans.
      * right. destruct Hpoll as (Hs & Hc). split; [| exact Hc].
        cbn. destruct Hs0 as (_ & S0 & _), Hs2 as (_ & S2 & _), Hs as (Hf & S & _).
        split; auto.
    + left. exists sd, m0. split_and!; [reflexivity | done | done | done].
  - left. exists (Close_elsewhere sd), m.
    split_and!; [reflexivity | by apply stays_refl | |];
      intros _; apply Close_elsewhere_pending.
Qed.


Lemma eventLoop_returns rest pre : forall sd m,
  holding (mu (win m)) = NoLock ->
  Forall orderly pre ->
  forallb carries_on pre = true ->
  (0 < length sd)%nat \/ existsb closes pre = true ->
  exists m', eventLoop (pre ++ GotShutdown :: rest) sd m = Done tt m'
             /\ settled m (Done tt m').
Proof.
  induction pre as [| msg pre IH]; intros sd m Hfree Hall Hon Hsd.
  - destruct Hsd as [Hsd | Hsd]; [| discriminate].
    destruct sd as [| b sd]; [cbn in Hsd; lia |].
    exists (logged glfw.Destroy (logged glfw.LoaderShutdown m)). split; [reflexivity |].
    cbn [settled logged win calls]. split_and!; [done | done |].
    exists []. cbn [app]. by rewrite <- app_assoc.
  - apply Forall_cons in Hall as [Hmsg Hall].
    cbn [forallb] in Hon. apply andb_true_iff in Hon as [Hon1 Hon].
    cbn [app].
    destruct (round_settles msg (pre ++ GotShutdown :: rest) sd m Hfree Hmsg)
      as [(sd1 & m1 & -> & Hs & Hp & Hc) | [_ Hend]]; [| congruence].
    destruct (IH sd1 m1) as (m' & Hrun & Hset); [apply Hs | done | done | |].
    + destruct Hsd as [Hsd | Hsd]; [left; auto |].
      cbn [existsb] in Hsd. apply orb_true_iff in Hsd as [Hsd | Hsd]; [left; auto | by right].
    + exists m'. split; [exact Hrun | by eapply settled_stays].
Qed.

(** [mainLoop] is [eventLoop] with a shutdown value pending and the
    callbacks that record a property. *)
Lemma poll_deliver events : forall sd m,
  poll (map (fun e => Calls (OnProperty (fst e)) (snd e)) events) sd m
  = (deliver events;; mret sd) m.
Proof.
  induction events as [| [e now] events IH]; intros sd m; [reflexivity |].
  cbn [map poll deliver callback fst snd]. unfold mbind, M_bind.
  destruct (dispatch e now m) as [[] m1 | | |]; try reflexivity.
  cbn. rewrite IH. reflexivity.
Qed.

Lemma eventLoop_mainLoop inbox : forall sd m,
  (0 < length sd)%nat ->
  eventLoop (map lift inbox) sd m = mainLoop inbox m.
Proof.
  induction inbox as [| msg inbox IH]; intros sd m Hsd; [reflexivity |].
  destruct msg as [| | fn | renderedFrame rate events]; cbn [map lift eventLoop mainLoop].
  - do 3 (apply bind_ext; intros ? ?). by apply IH.
  - destruct sd; [cbn in Hsd; lia | reflexivity].
  - apply bind_ext; intros ? ?. by apply IH.
  - apply bind_ext; intros [] m0. destruct renderedFrame.
    + unfold mbind, M_bind. cbn.
      rewrite poll_deliver. unfold mbind, M_bind.
      destruct (deliver events _) as [[] m1 | | |]; try reflexivity.
      cbn. by apply IH.
    + unfold mbind, M_bind. cbn. by apply IH.
Qed.



(** ** Closing the window while [Run] runs *)


(** The close callback on a window that should close: it puts a value
    into an empty shutdown channel, and waits on one that holds a value. *)
Lemma OnClose_closing now sd m :
  holding (mu (win m)) = NoLock ->
  ShouldClose (props (win m)) = true ->
  match sd with
  | [] => exists m1, callback OnClose now sd m = Done [true] m1 /\ stays m m1
                     /\ ShouldClose (props (win m1)) = true
  | _ :: _ => exists m1, callback OnClose now sd m = Blocked m1 /\ stays m m1
  end.
Proof.
  intros Hfree Hsc. apply holding_NoLock in Hfree as Hwr. destruct Hwr as [Hw _].
  destruct (CloseCallback_spec now sd m Hw) as [Ht _]. specialize (Ht Hsc).
  destruct sd as [| b sd]; destruct Ht as (m1 & Hr & Hwin & _ & Hk); exists m1.
  - split_and!; [exact Hr | by apply stays_same_win | by rewrite Hwin].
  - split; [exact Hr | by apply stays_same_win].
Qed.




(** A frame that starts with the close callback, the shutdown channel
    being empty and the window one that should close. *)
Lemma frame_with_click rate now hs rest m :
  holding (mu (win m)) = NoLock ->
  ShouldClose (props (win m)) = true ->
  Forall numeric_happening hs ->
  forallb no_close_callback hs = true ->
  exists sd1 m1,
    eventLoop (GotRenderExec true rate (Calls OnClose now :: hs) :: rest) [] m
    = eventLoop rest sd1 m1
    /\ stays m m1 /\ (0 < length sd1)%nat.
Proof.
  intros Hfree Hsc Hn Hnc. cbn [eventLoop].
  set (m0 := with_win (fun w => set_renderer {| FrameRate := rate;
                                                 Bounds := Bounds (renderer w) |} w) m).
  rewrite (bind_Done _ _ m tt m0) by reflexivity.
  set (m2 := logged glfw.PollEvents (logged glfw.SwapBuffers m0)).
  assert (stays m m2) as Hs2.
  { unfold m2, m0, stays, in_step.
    cbn [win with_win logged calls set_renderer mu props last].
    split_and!; [done | done |]. exists [glfw.SwapBuffers; glfw.PollEvents].
    by rewrite <- app_assoc. }
  assert (ShouldClose (props (win m2)) = true) as Hsc2 by exact Hsc.
  destruct (OnClose_closing now [] m2 ltac:(apply Hs2) Hsc2) as (m3 & Hr3 & Hs3 & Hsc3).
  pose proof (poll_settles hs [true] m3 ltac:(apply Hs3) Hn) as Hrest.
  assert (forall k : list bool -> M unit,
             ((native glfw.SwapBuffers;; native glfw.PollEvents;;
               poll (Calls OnClose now :: hs) []) ≫= k) m0
             = match poll hs [true] m3 with
               | Done a m' => k a m'
               | Panic msg m' => Panic msg m'
               | Blocked m' => Blocked m'
               | Exited m' => Exited m'
               end) as Heq.
  { intros k.
    change (((native glfw.SwapBuffers;; native glfw.PollEvents;;
              poll (Calls OnClose now :: hs) []) ≫= k) m0)
      with (match poll (Calls OnClose now :: hs) [] m2 with
            | Done a m' => k a m'
            | Panic msg m' => Panic msg m'
            | Blocked m' => Blocked m'
            | Exited m' => Exited m'
            end).
    cbn [poll]. unfold mbind at 1, M_bind at 1. rewrite Hr3. reflexivity. }
  rewrite Heq.
  destruct (poll hs [true] m3) as [sd1 m1 | | m1 |]; [| done | | done].
  - destruct Hrest as (Hs & _ & Hp & _).
    exists sd1, m1. split_and!; [reflexivity | | apply Hp; cbn; lia].
    eapply stays_trans; [exact Hs2 |]. by eapply stays_trans.
  - destruct Hrest as (_ & Hc). congruence.
Qed.

Lemma Run_with_returns NewProps n f p loop m m0 m1 :
  Run_with NewProps n (Some f) (Some p) loop m
  = deferred glfw.UnlockOSThread
      (deferred glfw.Terminate (deferred glfw.DetachCurrentContext (loop m0))) ->
  in_step (win m0) ->
  loop m0 = Done tt m1 ->
  settled m0 (Done tt m1) ->
  exists m' C,
    Run_with NewProps n (Some f) (Some p) loop m = Done tt m'
    /\ calls m'
       = C ++ [glfw.LoaderShutdown; glfw.Destroy; glfw.DetachCurrentContext;
               glfw.Terminate; glfw.UnlockOSThread]
    /\ in_step (win m')
    /\ holding (mu (win m')) = NoLock.
Proof.
  intros Hrun Hstep Hloop (Hf & Hs & C & Hk).
  rewrite Hrun, Hloop. cbn [deferred].
  eexists. exists (calls m0 ++ C). split; [reflexivity |].
  cbn [logged calls win]. rewrite Hk.
  split_and!; [by rewrite <- !app_assoc | auto | done].
Qed.

(** X21. [Run] with a graphics loop, on a native side that answers the
    setup with success, returns when the window is closed and the main
    loop then takes the shutdown signal, the rounds before that being
    ones a run of the package gives it in which the close callback is
    not called. Either [Close()] is called from elsewhere in one of these
    rounds; or the window is one that should close and GLFW calls the
    close callback, first thing in the first frame. The native trace ends
    with the shutdown of the loader, the destruction of the window,
    detaching the context, terminating GLFW and unlocking the OS thread;
    the window is left with its mutex free and [last] in agreement with
    [props]. *)
Theorem Run_returns_on_Close (NewProps : Props) (n : Native) (f : GfxLoop) (p : Props)
    (pre rest : list Received) (m : Machine) :
  setup_ok n = true ->
  numeric (CursorPos p) ->
  Forall orderly pre ->
  forallb carries_on pre = true ->
  let returns inbox :=
    exists m' C,
      Run_with NewProps n (Some f) (Some p) (eventLoop inbox []) m = Done tt m'
      /\ calls m'
         = C ++ [glfw.LoaderShutdown; glfw.Destroy; glfw.DetachCurrentContext;
                 glfw.Terminate; glfw.UnlockOSThread]
      /\ in_step (win m')
      /\ holding (mu (win m')) = NoLock in
  (existsb closes pre = true -> returns (pre ++ GotShutdown :: rest))
  /\ (ShouldClose p = true ->
        forall rate now hs,
          Forall numeric_happening hs ->
          forallb no_close_callback hs = true ->
          returns (GotRenderExec true rate (Calls OnClose now :: hs)
                     :: pre ++ GotShutdown :: rest)).
Proof.
  intros Hn Hp Hpre Hon returns. subst returns. cbn beta. split.
  - intros Hcl.
    destruct (Run_with_setup_ok NewProps n f p (eventLoop (pre ++ GotShutdown :: rest) []) m Hn)
      as (m0 & Hrun & Hf0 & _ & _ & _ & Hs0).
    destruct (eventLoop_returns rest pre [] m0 Hf0 Hpre Hon (or_intror Hcl))
      as (m1 & Hr1 & Hset).
    by eapply Run_with_returns; [exact Hrun | apply Hs0 | exact Hr1 | exact Hset].
  - intros Hsc rate now hs Hhs Hnc.
    destruct (Run_with_setup_ok NewProps n f p
                (eventLoop (GotRenderExec true rate (Calls OnClose now :: hs)
                              :: pre ++ GotShutdown :: rest) []) m Hn)
      as (m0 & Hrun & Hf0 & Hp0 & _ & _ & Hs0).
    assert (ShouldClose (props (win m0)) = true) as Hsc0 by (by rewrite Hp0).
    destruct (frame_with_click rate now hs (pre ++ GotShutdown :: rest) m0 Hf0 Hsc0 Hhs Hnc)
      as (sd1 & m1 & Heq & Hst & Hsd1).
    destruct (eventLoop_returns rest pre sd1 m1 ltac:(apply Hst) Hpre Hon (or_introl Hsd1))
      as (m2 & Hr2 & Hset).
    eapply Run_with_returns; [exact Hrun | by apply Hs0 | by rewrite Heq |].
    by eapply settled_stays.
Qed.

Lemma Run_returns_on_Close_witness :
  (exists m',
      Run_with sample_props native_ok (Some gfxLoopFunc) (Some sample_request)
        (eventLoop ([GotUpdateFPS; CloseCalled] ++ GotShutdown :: []) [])
        (sample_machine 1) = Done tt m'
      /\ holding (mu (win m')) = NoLock)
  /\ (exists m',
        Run_with sample_props native_ok (Some gfxLoopFunc) (Some sample_request)
          (eventLoop (GotRenderExec true 60%float [Calls OnClose 9; Calls OnRefresh 10]
                        :: [GotUpdateFPS; CloseCalled] ++ GotShutdown :: []) [])
          (sample_machine 1) = Done tt m'
        /\ holding (mu (win m')) = NoLock).
Proof.
  assert (numeric (CursorPos sample_request)) as Hp by (split; reflexivity).
  assert (Forall orderly [GotUpdateFPS; CloseCalled]) as Hpre by (repeat constructor).
  destruct (Run_returns_on_Close sample_props native_ok gfxLoopFunc sample_request
              [GotUpdateFPS; CloseCalled] [] (sample_machine 1) eq_refl Hp Hpre eq_refl)
    as [H1 H2].
  split.
  - destruct (H1 eq_refl) as (m' & C & Hrun & _ & _ & Hf).
    exists m'. split; [exact Hrun | exact Hf].
  - destruct (H2 eq_refl 60%float 9 [Calls OnRefresh 10]) as (m' & C & Hrun & _ & _ & Hf);
      [repeat constructor | reflexivity |].
    exists m'. split; [exact Hrun | exact Hf].
Defined.


